(** * Backtest mode of jesse: the simulation driver and its matching engine

    A shallow embedding of [jesse/modes/backtest_mode/__init__.py]:
    [run], [_load_candles], [simulator], [_save_daily_portfolio_balance]
    and [_simulate_price_change_effect], with the properties the
    specification states about them.

    Numbers.  Prices, quantities and balances are IEEE doubles in the
    program; they are rationals [Q] here, so every arithmetic identity
    below is about exact arithmetic and says nothing about rounding.
    Timestamps and indices are Python integers, hence [Z] and [nat].

    Effects.  The program works on process-wide singletons ([store],
    [config], [router]).  They are one explicit [Store] value threaded
    through a state-and-exception monad.  A Python list that is reached
    through several names (the order list of an exchange and symbol) stays
    in the store and is read through a handle, so that a mutation made by a
    callback is seen by every holder of the handle.

    Console output, the progress bar, charts and log files do not touch the
    store and are left out, except for the elapsed-time message, which is
    the only place where the wall clock enters [simulator]. *)

From Stdlib Require Import ZArith QArith Qabs Lia.
From stdpp Require Import gmap strings list.


(** ** Candles *)

(** A row of the numpy array:
    [[timestamp, open, close, high, low, volume]], so that index 2 is the
    close. *)
Record Candle := mkCandle {
  timestamp : Z;
  open : Q;
  close : Q;
  high : Q;
  low : Q;
  volume : Q
}.

(** [jesse.enums.timeframes], with the minute counts of
    [jh.timeframe_to_one_minutes].

    Modelled from the spec: the enumeration and the table are not part of
    the two source files; they are the configured set of section 4.2. *)
Inductive timeframe :=
| MINUTE_1 | MINUTE_3 | MINUTE_5 | MINUTE_15 | MINUTE_30
| HOUR_1 | HOUR_2 | HOUR_3 | HOUR_4 | HOUR_6 | HOUR_8 | DAY_1.

Definition timeframe_eqb (a b : timeframe) : bool :=
  match a, b with
  | MINUTE_1, MINUTE_1 | MINUTE_3, MINUTE_3 | MINUTE_5, MINUTE_5
  | MINUTE_15, MINUTE_15 | MINUTE_30, MINUTE_30
  | HOUR_1, HOUR_1 | HOUR_2, HOUR_2 | HOUR_3, HOUR_3 | HOUR_4, HOUR_4
  | HOUR_6, HOUR_6 | HOUR_8, HOUR_8 | DAY_1, DAY_1 => true
  | _, _ => false
  end.

Definition timeframe_str (t : timeframe) : string :=
  match t with
  | MINUTE_1 => "1m" | MINUTE_3 => "3m" | MINUTE_5 => "5m"
  | MINUTE_15 => "15m" | MINUTE_30 => "30m"
  | HOUR_1 => "1h" | HOUR_2 => "2h" | HOUR_3 => "3h" | HOUR_4 => "4h"
  | HOUR_6 => "6h" | HOUR_8 => "8h" | DAY_1 => "1d"
  end.

Definition timeframe_to_one_minutes (t : timeframe) : Z :=
  match t with
  | MINUTE_1 => 1 | MINUTE_3 => 3 | MINUTE_5 => 5
  | MINUTE_15 => 15 | MINUTE_30 => 30
  | HOUR_1 => 60 | HOUR_2 => 120 | HOUR_3 => 180 | HOUR_4 => 240
  | HOUR_6 => 360 | HOUR_8 => 480 | DAY_1 => 1440
  end%Z.

(** ['{}-{}'.format(exchange, symbol)], the key of every per-market
    dictionary. *)
Definition key (exchange symbol : string) : string :=
  exchange +:+ "-" +:+ symbol.

Definition series_key (exchange symbol : string) (t : timeframe) : string :=
  key exchange symbol +:+ "-" +:+ timeframe_str t.

(** ** Candle services *)

(** Modelled from the spec: [candle_includes_price] of
    [jesse.services.candle] is not part of the source files.  Section 4.4:
    the price is inside the candle, inclusive of [high] and [low]; [open]
    and [close] play no part. *)
Definition candle_includes_price (c : Candle) (price : Q) : bool :=
  Qle_bool (low c) price && Qle_bool price (high c).

(** Python's [max] and [min] of a non-empty sequence: the first of equal
    elements is kept. *)
Definition py_max (x : Q) (l : list Q) : Q :=
  fold_left (fun m y => if Qle_bool y m then m else y) l x.

Definition py_min (x : Q) (l : list Q) : Q :=
  fold_left (fun m y => if Qle_bool m y then m else y) l x.

(** [sum(l)]: starts at 0 and adds from the left. *)
Definition py_sum (l : list Q) : Q := fold_left Qplus l 0%Q.

(** A Python slice [l[a:b]] with step 1: a negative bound counts from the
    end, and both bounds are clamped to the list. *)
Definition py_slice {A} (a b : Z) (l : list A) : list A :=
  let n := Z.of_nat (length l) in
  let norm x := if (x <? 0)%Z then Z.max 0 (x + n) else Z.min x n in
  let a' := norm a in
  let b' := norm b in
  take (Z.to_nat (b' - a')) (drop (Z.to_nat a') l).

(** Modelled from the spec: [generate_candle_from_one_minutes] of
    [jesse.services.candle] is not part of the source files.  Section 4.2:
    open of the first, close of the last, maximum of the highs, minimum of
    the lows, sum of the volumes, timestamp of the first.  An empty window
    has no first candle (the program fails there with an index error). *)
Definition generate_candle_from_one_minutes
    (t : timeframe) (window : list Candle) : option Candle :=
  match window with
  | [] => None
  | c0 :: rest =>
      Some {| timestamp := timestamp c0;
              open := open c0;
              close := close (List.last rest c0);
              high := py_max (high c0) (map high rest);
              low := py_min (low c0) (map low rest);
              volume := py_sum (map volume window) |}
  end.

(** Modelled from the spec: [store.candles.add_candle] is not part of the
    source files.  Section 4.1: append, or overwrite the tail when the
    tail has the same timestamp; a candle older than the tail is never
    inserted. *)
Definition add_to_series (c : Candle) (arr : list Candle) : list Candle :=
  match last arr with
  | None => [c]
  | Some t =>
      if (timestamp t <? timestamp c)%Z then arr ++ [c]
      else if (timestamp c =? timestamp t)%Z then removelast arr ++ [c]
      else arr
  end.

(** ** Orders, positions, exchanges *)

Inductive order_status := ACTIVE | EXECUTED | CANCELED.
Inductive order_side := BUY | SELL.
Inductive order_type := MARKET | LIMIT | STOP.

Record Order := mkOrder {
  o_id : nat;
  o_side : order_side;
  o_type : order_type;
  o_qty : Q;
  o_price : Q;
  o_status : order_status
}.

Definition is_active (o : Order) : bool :=
  match o_status o with ACTIVE => true | _ => false end.

Record Position := mkPosition {
  exchange_name : string;
  p_symbol : string;
  p_qty : Q;
  entry_price : Q;
  current_price : Q;
  p_strategy : option nat
}.

(** Modelled from the spec: the [Position] class is not part of the source
    files.  Section 3: [is_open] iff [qty] is not zero, and
    [value = |qty| * current_price]. *)
Definition is_open (p : Position) : bool := negb (Qeq_bool (p_qty p) 0).

Definition value (p : Position) : Q := (Qabs (p_qty p) * current_price p)%Q.

Record Exchange := mkExchange {
  e_name : string;
  balance : Q;
  fee_rate : Q
}.

Record Trade := mkTrade {
  t_exchange : string;
  t_symbol : string;
  t_qty : Q;
  t_entry_price : Q;
  t_exit_price : Q;
  t_pnl : Q
}.

(** Association lists stand for the dictionaries the program iterates
    over: a Python [dict] yields its items in insertion order. *)
Fixpoint assoc_get {A} (k : string) (l : list (string * A)) : option A :=
  match l with
  | [] => None
  | (k', v) :: rest => if String.eqb k k' then Some v else assoc_get k rest
  end.

Fixpoint assoc_alter {A} (f : A -> A) (k : string) (l : list (string * A))
    : list (string * A) :=
  match l with
  | [] => []
  | (k', v) :: rest =>
      if String.eqb k k' then (k', f v) :: rest
      else (k', v) :: assoc_alter f k rest
  end.

(** ** The store *)

Section Backtest.

(** The private state of the user's strategies, the schema returned by a
    strategy's [hyper_parameters()] and the decoded hyper-parameter
    mapping are left open. *)
Context {UserState Schema HP : Type}.

(** What a strategy or a fill callback may change: balances, positions,
    the order book, the list of completed trades and the strategies' own
    state (section 4.6: a strategy acts on the system only by submitting
    orders and closing positions). *)
Record Ledger := mkLedger {
  exchanges : list (string * Exchange);
  positions : list (string * Position);
  orders : gmap string (list Order);
  completed_trades : list Trade;
  user_state : UserState
}.

(** The attributes the host assigns to a strategy instance; the instance of
    the route at index [i] of the router is kept under [i]. *)
Record StrategyInstance := mkStrategyInstance {
  s_name : string;
  s_exchange : string;
  s_symbol : string;
  s_timeframe : timeframe;
  hp : option HP
}.

(** What a callback may read. *)
Record View := mkView {
  v_time : Z;
  v_candles : gmap string (list Candle);
  v_strategies : gmap nat StrategyInstance
}.

(** Calls observed during a run, oldest first. *)
Inductive Event :=
| EvGetOrders (exchange symbol : string)
| EvAddCandle (exchange symbol : string) (t : timeframe) (c : Candle)
| EvOrderExecute (exchange symbol : string) (index : nat) (o : Order)
| EvStrategyExecute (i : nat) (route : nat)
| EvStrategyTerminate (route : nat)
| EvMarketOrders (i : nat)
| EvDatabaseQuery (exchange symbol : string).

Inductive Output :=
| ExecutedIn (seconds : Q).

Record Store := mkStore {
  app_time : Z;
  starting_time : Z;
  daily_balance : list Q;
  candle_storage : gmap string (list Candle);
  strategies : gmap nat StrategyInstance;
  ledger : Ledger;
  cache : gmap string (list Candle);
  trace : list Event;
  stdout : list Output
}.

Definition view_of (s : Store) : View :=
  {| v_time := app_time s;
     v_candles := candle_storage s;
     v_strategies := strategies s |}.

(** ** Outcomes and the state-and-exception monad *)

Inductive Exception :=
| ValueError (msg : string)
| CandleNotFoundInDatabase (msg : string)
| RouteError (msg : string)
| IndexError
| KeyError (k : string)
| AttributeError.

(** A computation returns, raises (the store is kept as it was when the
    exception left), or runs longer than the budget of loop iterations it
    was given. *)
Inductive Outcome (A : Type) :=
| Ok (a : A) (s : Store)
| Raise (e : Exception) (s : Store)
| OutOfFuel.

Arguments Ok {A} a s.
Arguments Raise {A} e s.
Arguments OutOfFuel {A}.

Definition M (A : Type) : Type := Store -> Outcome A.

Definition ret {A} (a : A) : M A := fun s => Ok a s.

Definition bind {A B} (m : M A) (f : A -> M B) : M B :=
  fun s =>
    match m s with
    | Ok a s' => f a s'
    | Raise e s' => Raise e s'
    | OutOfFuel => OutOfFuel
    end.

Definition raise {A} (e : Exception) : M A := fun s => Raise e s.

Definition get : M Store := fun s => Ok s s.
Definition modify (f : Store -> Store) : M unit := fun s => Ok tt (f s).

Definition of_option {A} (o : option A) (e : Exception) : M A :=
  match o with Some a => ret a | None => raise e end.

(** Assignments to one attribute of the store. *)
Definition set_app_time (x : Z) (s : Store) : Store :=
  mkStore x (starting_time s) (daily_balance s) (candle_storage s)
          (strategies s) (ledger s) (cache s) (trace s) (stdout s).

Definition set_starting_time (x : Z) (s : Store) : Store :=
  mkStore (app_time s) x (daily_balance s) (candle_storage s)
          (strategies s) (ledger s) (cache s) (trace s) (stdout s).

Definition set_daily_balance (x : list Q) (s : Store) : Store :=
  mkStore (app_time s) (starting_time s) x (candle_storage s)
          (strategies s) (ledger s) (cache s) (trace s) (stdout s).

Definition set_candle_storage (x : gmap string (list Candle)) (s : Store)
    : Store :=
  mkStore (app_time s) (starting_time s) (daily_balance s) x
          (strategies s) (ledger s) (cache s) (trace s) (stdout s).

Definition set_strategies (x : gmap nat StrategyInstance) (s : Store)
    : Store :=
  mkStore (app_time s) (starting_time s) (daily_balance s)
          (candle_storage s) x (ledger s) (cache s) (trace s) (stdout s).

Definition set_ledger (x : Ledger) (s : Store) : Store :=
  mkStore (app_time s) (starting_time s) (daily_balance s)
          (candle_storage s) (strategies s) x (cache s) (trace s) (stdout s).

Definition set_cache (x : gmap string (list Candle)) (s : Store) : Store :=
  mkStore (app_time s) (starting_time s) (daily_balance s)
          (candle_storage s) (strategies s) (ledger s) x (trace s) (stdout s).

Definition set_trace (x : list Event) (s : Store) : Store :=
  mkStore (app_time s) (starting_time s) (daily_balance s)
          (candle_storage s) (strategies s) (ledger s) (cache s) x (stdout s).

Definition set_stdout (x : list Output) (s : Store) : Store :=
  mkStore (app_time s) (starting_time s) (daily_balance s)
          (candle_storage s) (strategies s) (ledger s) (cache s) (trace s) x.

Definition set_positions (x : list (string * Position)) (l : Ledger)
    : Ledger :=
  mkLedger (exchanges l) x (orders l) (completed_trades l) (user_state l).

Definition set_orders (x : gmap string (list Order)) (l : Ledger) : Ledger :=
  mkLedger (exchanges l) (positions l) x (completed_trades l) (user_state l).

Definition emit (e : Event) : M unit :=
  modify (fun s => set_trace (trace s ++ [e]) s).

(** A callback of the user's code runs on the ledger and sees the rest of
    the store read-only. *)
Definition callback (f : View -> Ledger -> Ledger) : M unit :=
  modify (fun s => set_ledger (f (view_of s) (ledger s)) s).

(** [for x in l: body(x)] and [for index, x in enumerate(l): ...]. *)
Fixpoint for_each {A} (l : list A) (body : A -> M unit) : M unit :=
  match l with
  | [] => ret tt
  | x :: rest => bind (body x) (fun _ => for_each rest body)
  end.

Fixpoint enumerate_from {A} (n : nat) (l : list A) : list (nat * A) :=
  match l with
  | [] => []
  | x :: rest => (n, x) :: enumerate_from (S n) rest
  end.

Definition enumerate {A} (l : list A) : list (nat * A) := enumerate_from 0 l.

End Backtest.

Arguments Ledger : clear implicits.
Arguments Store : clear implicits.
Arguments StrategyInstance : clear implicits.
Arguments View : clear implicits.
Arguments M : clear implicits.
Arguments Outcome : clear implicits.
Arguments Ok {UserState HP A} a s.
Arguments Raise {UserState HP A} e s.
Arguments OutOfFuel {UserState HP A}.

(** The event is a query of the database. *)
Definition is_database_query (e : Event) : Prop :=
  match e with EvDatabaseQuery _ _ => True | _ => False end.

(** The monad is used through stdpp's notations: [x ← m; k] and [m ;; k]. *)
#[global] Instance M_ret {UserState HP} : MRet (M UserState HP) :=
  fun A a => ret a.
#[global] Instance M_bind {UserState HP} : MBind (M UserState HP) :=
  fun A B f m => bind m f.

(** ** What the two modules import

    The code of the user's strategies and the helpers of other modules of
    the package are parameters of the development. *)

(** A strategy class: what [StrategyClass.hyper_parameters()] returns, the
    [hp] attribute of a fresh instance, and the three callbacks, each told
    the index of its route. *)
Record StrategyClass {UserState Schema HP : Type} := mkStrategyClass {
  class_hyper_parameters : Schema;
  fresh_hp : option HP;
  _init_objects : nat -> View HP -> Ledger UserState -> Ledger UserState;
  _execute : nat -> View HP -> Ledger UserState -> Ledger UserState;
  _terminate : nat -> View HP -> Ledger UserState -> Ledger UserState
}.
Arguments StrategyClass : clear implicits.

Record Externals {UserState Schema HP : Type} := mkExternals {
  (** [jh.get_strategy_class] *)
  get_strategy_class : string -> StrategyClass UserState Schema HP;
  (** [jh.dna_to_hp] *)
  dna_to_hp : Schema -> string -> HP;
  (** [split_candle] of [jesse.services.candle]: the piece to store and
      the piece that remains *)
  split_candle : Candle -> Q -> Candle * Candle;
  (** [Order.execute], for the order at [index] of the list of an exchange
      and symbol *)
  order_execute :
    string -> string -> nat -> Order ->
    View HP -> Ledger UserState -> Ledger UserState;
  (** [store.orders.execute_pending_market_orders] *)
  execute_pending_market_orders :
    View HP -> Ledger UserState -> Ledger UserState;
  (** [validate_routes]: the message of the exception it raises, if any *)
  validate_routes : option string;
  (** [jh.arrow_to_timestamp (arrow.get (date, 'YYYY-MM-DD'))] *)
  date_to_timestamp : string -> Z;
  (** [arrow.utcnow().timestamp], in seconds *)
  utcnow_timestamp : Z;
  (** [required_candles.load_required_candles] followed by
      [inject_required_candles_to_store] *)
  inject_required_candles :
    string -> string -> string -> string ->
    gmap string (list Candle) -> gmap string (list Candle);
  (** the rows [Candle.select (...).where (...).order_by (...)] yields *)
  database :
    Z -> Z -> string -> string -> list Candle
}.
Arguments Externals : clear implicits.

(** ** Routes, configuration and the preloaded candles *)

Record Route := mkRoute {
  r_exchange : string;
  r_symbol : string;
  r_timeframe : timeframe;
  strategy_name : string;
  dna : option string
}.

(** The entries of [config['app']] the two modules read, and
    [jh.should_execute_silently()]. *)
Record Config := mkConfig {
  trading_exchanges : list string;
  trading_symbols : list string;
  considering_exchanges : list string;
  considering_symbols : list string;
  considering_candles : list (string * string);
  considering_timeframes : list timeframe;
  should_execute_silently : bool
}.

(** One value of the [candles] dictionary:
    [{'exchange': ..., 'symbol': ..., 'candles': ...}]. *)
Record CandleSet := mkCandleSet {
  cs_exchange : string;
  cs_symbol : string;
  cs_candles : list Candle
}.

Definition is_none {A} (o : option A) : bool :=
  match o with None => true | Some _ => false end.

(** Truth value of [r.dna]: [None] and the empty string are false. *)
Definition truthy (d : option string) : bool :=
  match d with
  | Some s => negb (String.eqb s "")
  | None => false
  end.

Section Driver.

Context {UserState Schema HP : Type}.
Context (X : Externals UserState Schema HP).
Context (config : Config) (routes : list Route).

Abbreviation Store := (Store UserState HP).
Abbreviation M := (M UserState HP).
Abbreviation Ledger := (Ledger UserState).

(** *** Operations of the store *)

Definition get_candles (s : Store) (exchange symbol : string)
    (t : timeframe) : list Candle :=
  default [] (candle_storage s !! series_key exchange symbol t).

Definition add_candle (c : Candle) (exchange symbol : string)
    (t : timeframe) : M unit :=
  emit (EvAddCandle exchange symbol t c) ;;
  modify (fun s =>
    set_candle_storage
      (<[series_key exchange symbol t :=
           add_to_series c (get_candles s exchange symbol t)]>
         (candle_storage s)) s).

(** Modelled from the spec: [store.orders.get_orders] is not part of the
    source files.  Section 4.3: it returns live handles.  The handle is the
    key of the list in the order book, and reading through it gives the
    list as it is in the store at that moment. *)
Definition get_orders (exchange symbol : string) : M string :=
  emit (EvGetOrders exchange symbol) ;;
  ret (key exchange symbol).

Definition orders_at (l : Ledger) (handle : string) : list Order :=
  default [] (orders l !! handle).

Definition read_orders (handle : string) : M (list Order) :=
  fun s => Ok (orders_at (ledger s) handle) s.

Definition with_current_price (price : Q) (p : Position) : Position :=
  mkPosition (exchange_name p) (p_symbol p) (p_qty p) (entry_price p)
             price (p_strategy p).

Definition with_strategy (route : nat) (p : Position) : Position :=
  mkPosition (exchange_name p) (p_symbol p) (p_qty p) (entry_price p)
             (current_price p) (Some route).

(** [p = selectors.get_position(exchange, symbol)] followed by an
    assignment to an attribute of [p]; the selector gives [None] for an
    unknown key, and the assignment fails on it. *)
Definition update_position (f : Position -> Position)
    (exchange symbol : string) : M unit :=
  fun s =>
    match assoc_get (key exchange symbol) (positions (ledger s)) with
    | None => Raise AttributeError s
    | Some _ =>
        Ok tt (set_ledger
                 (set_positions
                    (assoc_alter f (key exchange symbol)
                       (positions (ledger s)))
                    (ledger s)) s)
    end.

(** *** [_simulate_price_change_effect] *)

(** The [for index, order in enumerate(orders)] loop, from [index] on,
    where [n] is [len(orders)].  It yields the flag [executed_order] and,
    when it left through [break], the index and the order it stopped at. *)
Fixpoint scan_orders (n : nat) (current_temp_candle : Candle)
    (index : nat) (rest : list Order) (executed_order : bool)
    : bool * option (nat * Order) :=
  match rest with
  | [] => (executed_order, None)
  | order :: rest' =>
      let executed_order :=
        if (index =? n - 1)%nat && negb (is_active order) then false
        else executed_order in
      if negb (is_active order) then
        scan_orders n current_temp_candle (S index) rest' executed_order
      else if candle_includes_price current_temp_candle (o_price order) then
        (true, Some (index, order))
      else
        scan_orders n current_temp_candle (S index) rest' false
  end.

(** [if len(orders) == 0: ... else: for ...]. *)
Definition for_orders (current_temp_candle : Candle) (os : list Order)
    (executed_order : bool) : bool * option (nat * Order) :=
  if (length os =? 0)%nat then (false, None)
  else scan_orders (length os) current_temp_candle 0 os executed_order.

(** The [while True] loop; [fuel] bounds the number of its iterations. *)
Fixpoint price_change_loop (fuel : nat) (real_candle : Candle)
    (exchange symbol : string) (orders : string)
    (current_temp_candle : Candle) (executed_order : bool) : M unit :=
  match fuel with
  | O => fun _ => OutOfFuel
  | S fuel' =>
      os ← read_orders orders;
      let '(executed_order, hit) :=
        for_orders current_temp_candle os executed_order in
      match hit with
      | Some (index, order) =>
          let '(storable_temp_candle, current_temp_candle) :=
            split_candle X current_temp_candle (o_price order) in
          add_candle storable_temp_candle exchange symbol MINUTE_1 ;;
          update_position
               (with_current_price (close storable_temp_candle))
               exchange symbol ;;
          emit (EvOrderExecute exchange symbol index order) ;;
          callback (order_execute X exchange symbol index order) ;;
          price_change_loop fuel' real_candle exchange symbol orders
            current_temp_candle executed_order
      | None =>
          if negb executed_order then
            add_candle real_candle exchange symbol MINUTE_1 ;;
            update_position (with_current_price (close real_candle))
              exchange symbol
          else
            price_change_loop fuel' real_candle exchange symbol orders
              current_temp_candle executed_order
      end
  end.

(** [fuel] tells, from the ledger the engine starts on, how many
    iterations its loop may make. *)
Definition _simulate_price_change_effect (fuel : Ledger -> nat)
    (real_candle : Candle) (exchange symbol : string) : M unit :=
  orders ← get_orders exchange symbol;
  s ← get;
  price_change_loop (fuel (ledger s)) real_candle exchange symbol orders
    real_candle false.

(** *** [_save_daily_portfolio_balance] *)

(** What the loop over the positions appends for one position. *)
Definition position_balances (l : Ledger) (pos : Position) : list Q :=
  if is_open pos then [value pos]
  else
    map (fun o => Qabs (o_qty o * o_price o))
      (List.filter is_active
         (orders_at l (key (exchange_name pos) (p_symbol pos)))).

Definition balances (l : Ledger) : list Q :=
  map (fun e => balance (snd e)) (exchanges l)
  ++ flat_map (fun p => position_balances l (snd p)) (positions l).

Definition _save_daily_portfolio_balance : M unit :=
  modify (fun s =>
    set_daily_balance (daily_balance s ++ [py_sum (balances (ledger s))]) s).

(** *** [simulator] *)

Definition new_instance (r : Route) : StrategyInstance HP :=
  {| s_name := strategy_name r;
     s_exchange := r_exchange r;
     s_symbol := r_symbol r;
     s_timeframe := r_timeframe r;
     hp := fresh_hp (get_strategy_class X (strategy_name r)) |}.

Definition with_hp (h : HP) (i : StrategyInstance HP) : StrategyInstance HP :=
  {| s_name := s_name i; s_exchange := s_exchange i;
     s_symbol := s_symbol i; s_timeframe := s_timeframe i; hp := Some h |}.

(** The loop that initiates the strategies; [hyper_parameters] is the
    local variable of [simulator], which the loop may assign. *)
Fixpoint initiate_strategies (rs : list (nat * Route))
    (hyper_parameters : option HP) : M unit :=
  match rs with
  | [] => mret tt
  | (index, r) :: rest =>
      let StrategyClass := get_strategy_class X (strategy_name r) in
      let hyper_parameters :=
        if truthy (dna r) && is_none hyper_parameters then
          Some (dna_to_hp X (class_hyper_parameters StrategyClass)
                  (default "" (dna r)))
        else hyper_parameters in
      modify (fun s =>
        set_strategies (<[index := new_instance r]> (strategies s)) s) ;;
      callback (_init_objects StrategyClass index) ;;
      match hyper_parameters with
      | Some h =>
          modify (fun s =>
            set_strategies (alter (with_hp h) index (strategies s)) s)
      | None => mret tt
      end ;;
      update_position (with_strategy index) (r_exchange r) (r_symbol r) ;;
      initiate_strategies rest hyper_parameters
  end.

(** The body of [for timeframe in config['app']['considering_timeframes']]
    at minute [i], for the candles [cs] of one exchange and symbol. *)
Definition generate_bigger_timeframe (i : nat) (cs : CandleSet)
    (t : timeframe) : M unit :=
  if timeframe_eqb t MINUTE_1 then mret tt
  else
    let count := timeframe_to_one_minutes t in
    if ((Z.of_nat i + 1) mod count =? 0)%Z then
      generated_candle ←
        of_option
          (generate_candle_from_one_minutes t
             (py_slice (Z.of_nat i - (count - 1)) (Z.of_nat i + 1)
                (cs_candles cs)))
          IndexError;
      add_candle generated_candle (cs_exchange cs) (cs_symbol cs) t
    else mret tt.

(** The body of [for j in candles] at minute [i]. *)
Definition add_candles (fuel : Ledger -> nat) (i : nat)
    (j : string * CandleSet)
    : M unit :=
  let cs := snd j in
  short_candle ← of_option (cs_candles cs !! i) IndexError;
  add_candle short_candle (cs_exchange cs) (cs_symbol cs) MINUTE_1 ;;
  _simulate_price_change_effect fuel short_candle
    (cs_exchange cs) (cs_symbol cs) ;;
  for_each (considering_timeframes config) (generate_bigger_timeframe i cs).

Definition strategy_execute (i : nat) (index : nat) (r : Route) : M unit :=
  emit (EvStrategyExecute i index) ;;
  callback (_execute (get_strategy_class X (strategy_name r)) index).

(** The body of the [for r in router.routes] that executes the
    strategies at minute [i]. *)
Definition execute_route (i : nat) (ir : nat * Route) : M unit :=
  let r := snd ir in
  let count := timeframe_to_one_minutes (r_timeframe r) in
  if timeframe_eqb (r_timeframe r) MINUTE_1 then
    strategy_execute i (fst ir) r
  else if ((Z.of_nat i + 1) mod count =? 0)%Z then
    strategy_execute i (fst ir) r
  else mret tt.

Definition terminate_route (ir : nat * Route) : M unit :=
  emit (EvStrategyTerminate (fst ir)) ;;
  callback (_terminate (get_strategy_class X (strategy_name (snd ir)))
              (fst ir)).

(** The body of [for i in range(length)]. *)
Definition minute (fuel : Ledger -> nat)
    (candles : list (string * CandleSet))
    (first_candles_set : list Candle) (i : nat) : M unit :=
  c ← of_option (first_candles_set !! i) IndexError;
  modify (set_app_time (timestamp c + 60000)) ;;
  for_each candles (add_candles fuel i) ;;
  for_each (enumerate routes) (execute_route i) ;;
  emit (EvMarketOrders i) ;;
  callback (execute_pending_market_orders X) ;;
  if negb (Z.of_nat i =? 0)%Z && (Z.of_nat i mod 1440 =? 0)%Z then
    _save_daily_portfolio_balance
  else mret tt.

(** [clock] holds what the two calls of [time.time()] return; the second
    call is made only when the run is not silent.  The message printed is
    kept as the difference of the two readings. *)
Definition simulator (fuel : Ledger -> nat) (clock : Q * Q)
    (candles : list (string * CandleSet)) (hyper_parameters : option HP)
    : M unit :=
  let begin_time_track := fst clock in
  exchange ← of_option (trading_exchanges config !! 0%nat) IndexError;
  symbol ← of_option (trading_symbols config !! 0%nat) IndexError;
  let key := key exchange symbol in
  entry ← of_option (assoc_get key candles) (KeyError key);
  let first_candles_set := cs_candles entry in
  let length := length first_candles_set in
  first ← of_option (first_candles_set !! 0%nat) IndexError;
  modify (set_starting_time (timestamp first)) ;;
  initiate_strategies (enumerate routes) hyper_parameters ;;
  _save_daily_portfolio_balance ;;
  for_each (seq 0 length) (minute fuel candles first_candles_set) ;;
  (if negb (should_execute_silently config) then
     let finish_time_track := snd clock in
     modify (fun s =>
       set_stdout
         (stdout s ++ [ExecutedIn (finish_time_track - begin_time_track)])
         s)
   else mret tt) ;;
  for_each (enumerate routes) terminate_route ;;
  _save_daily_portfolio_balance.

(** *** [_load_candles] *)

(** [d[k] = v] on a dictionary kept in insertion order. *)
Fixpoint assoc_set {A} (k : string) (v : A) (l : list (string * A))
    : list (string * A) :=
  match l with
  | [] => [(k, v)]
  | (k', v') :: rest =>
      if String.eqb k k' then (k', v) :: rest
      else (k', v') :: assoc_set k v rest
  end.

(** A loop that assigns a local variable. *)
Fixpoint for_each_acc {A B} (l : list A) (body : B -> A -> M B) (acc : B)
    : M B :=
  match l with
  | [] => mret acc
  | x :: rest => acc' ← body acc x; for_each_acc rest body acc'
  end.

(** The two checks made on the rows loaded for one symbol: the exception
    to raise, if any.  [required_candles_count] is a true division.  (The
    first message is given without the quotation marks around the name of
    the command.) *)
Definition validate_candles (start_date finish_date : Z)
    (start_date_str finish_date_str symbol : string)
    (candles_tuple : list Candle) : option Exception :=
  let required_candles_count :=
    (inject_Z (finish_date - start_date) / inject_Z 60000)%Q in
  if (length candles_tuple =? 0)%nat
     || negb (timestamp (List.last candles_tuple (mkCandle 0 0 0 0 0 0))
              =? finish_date)%Z
     || negb (timestamp (hd (mkCandle 0 0 0 0 0 0) candles_tuple)
              =? start_date)%Z
  then
    Some (CandleNotFoundInDatabase
            ("Not enough candles for " +:+ symbol
             +:+ ". Try running jesse import-candles"))
  else if negb (Qeq_bool (inject_Z (Z.of_nat (length candles_tuple)))
                         (required_candles_count + 1))
  then
    Some (CandleNotFoundInDatabase
            ("There are missing candles between " +:+ start_date_str
             +:+ " => " +:+ finish_date_str))
  else None.

(** The body of the inner loop of [_load_candles], with the dictionary
    [candles] as accumulator.  A cached value counts when it is not
    empty. *)
Definition load_symbol (start_date finish_date : Z)
    (start_date_str finish_date_str : string) (exchange : string)
    (candles : list (string * CandleSet)) (symbol : string)
    : M (list (string * CandleSet)) :=
  let key := key exchange symbol in
  let cache_key :=
    start_date_str +:+ "-" +:+ finish_date_str +:+ "-" +:+ key in
  s ← get;
  candles_tuple ←
    match cache s !! cache_key with
    | Some (c :: cached_value) => mret (c :: cached_value)
    | _ =>
        emit (EvDatabaseQuery exchange symbol) ;;
        mret (database X start_date finish_date exchange symbol)
    end;
  match validate_candles start_date finish_date
          start_date_str finish_date_str symbol candles_tuple with
  | Some e => raise e
  | None =>
      modify (fun s =>
        set_cache (<[cache_key := candles_tuple]> (cache s)) s) ;;
      mret (assoc_set key (mkCandleSet exchange symbol candles_tuple)
              candles)
  end.

Definition _load_candles (start_date_str finish_date_str : string)
    : M (list (string * CandleSet)) :=
  let start_date := date_to_timestamp X start_date_str in
  let finish_date := (date_to_timestamp X finish_date_str - 60000)%Z in
  if (start_date =? finish_date)%Z then
    raise (ValueError "start_date and finish_date cannot be the same.")
  else if (finish_date <? start_date)%Z then
    raise (ValueError "start_date cannot be bigger than finish_date.")
  else if (utcnow_timestamp X * 1000 <? finish_date)%Z then
    raise (ValueError "Can't backtest the future!")
  else
    for_each (considering_candles config) (fun c =>
      modify (fun s =>
        set_candle_storage
          (inject_required_candles X (fst c) (snd c)
             start_date_str finish_date_str (candle_storage s)) s)) ;;
    for_each_acc (considering_exchanges config) (fun candles exchange =>
      for_each_acc (considering_symbols config)
        (load_symbol start_date finish_date
           start_date_str finish_date_str exchange)
        candles) [].

(** *** [run]

    [store.candles.init_storage(5000)] reserves capacity and the reports
    after the simulation only read the store; neither is modelled. *)
Definition run (fuel : Ledger -> nat) (clock : Q * Q)
    (start_date finish_date : string)
    (candles : option (list (string * CandleSet))) : M unit :=
  match validate_routes X with
  | Some msg => raise (RouteError msg)
  | None => mret tt
  end ;;
  candles ←
    match candles with
    | None => _load_candles start_date finish_date
    | Some candles => mret candles
    end;
  simulator fuel clock candles None.

End Driver.

(** * Notions used in the statements *)

Section Sums.

Context {UserState : Type}.

Local Open Scope Q_scope.

(** The three sums of section 4.5, each on its own. *)
Definition sumQ (l : list Q) : Q := fold_right Qplus 0 l.





(** [c] is the aggregate of the non-empty window [w] (section 4.2). *)
Definition aggregate_of (w : list Candle) (c : Candle) : Prop :=
  exists first final,
    head w = Some first /\ last w = Some final
    /\ timestamp c = timestamp first
    /\ open c = open first
    /\ close c = close final
    /\ (forall x, x ∈ w -> high x <= high c)
    /\ (exists x, x ∈ w /\ high c = high x)
    /\ (forall x, x ∈ w -> low c <= low x)
    /\ (exists x, x ∈ w /\ low c = low x)
    /\ volume c == sumQ (map volume w).

End Sums.

Section Notions.

Context {UserState Schema HP : Type}.
Context (X : Externals UserState Schema HP).
Context (config : Config) (routes : list Route).

Abbreviation Store := (Store UserState HP).
Abbreviation M := (M UserState HP).
Abbreviation Ledger := (Ledger UserState).

(** ** What a computation leaves unchanged, and when it returns

    [post m R]: whenever [m] returns or raises, the store it leaves is
    related by [R] to the store it started from. *)
Definition post {A} (m : M A) (R : Store -> Store -> Prop) : Prop :=
  forall s,
    match m s with
    | Ok _ s' | Raise _ s' => R s s'
    | OutOfFuel => True
    end.

(** [total I m]: from a store that satisfies [I], [m] returns, in a store
    that satisfies [I]. *)
Definition total {A} (I : Store -> Prop) (m : M A) : Prop :=
  forall s, I s -> exists a s', m s = Ok a s' /\ I s'.

(** [frame P]: the daily balances, the strategy instances, the cache, the
    output and the starting time are the same, and the trace has grown by
    events that all satisfy [P]. *)
Definition frame (P : Event -> Prop) (s s' : Store) : Prop :=
  daily_balance s' = daily_balance s
  /\ strategies s' = strategies s
  /\ cache s' = cache s
  /\ stdout s' = stdout s
  /\ starting_time s' = starting_time s
  /\ exists evs, trace s' = trace s ++ evs /\ Forall P evs.

(** ** The matching engine *)

(** What the last branch of the [while] loop does to a store that has a
    position for the exchange and symbol. *)
Definition store_real_candle (real_candle : Candle)
    (exchange symbol : string) (s : Store) : Store :=
  set_ledger
    (set_positions
       (assoc_alter (with_current_price (close real_candle))
          (key exchange symbol) (positions (ledger s)))
       (ledger s))
    (set_candle_storage
       (<[series_key exchange symbol MINUTE_1 :=
            add_to_series real_candle
              (get_candles s exchange symbol MINUTE_1)]>
          (candle_storage s))
       (set_trace
          (trace s ++ [EvAddCandle exchange symbol MINUTE_1 real_candle])
          s)).

Definition loop_event (e : Event) : Prop :=
  match e with
  | EvAddCandle _ _ MINUTE_1 _ | EvOrderExecute _ _ _ _ => True
  | _ => False
  end.

Definition engine_event (e : Event) : Prop :=
  match e with
  | EvGetOrders _ _ | EvAddCandle _ _ MINUTE_1 _
  | EvOrderExecute _ _ _ _ => True
  | _ => False
  end.

(** The store after one fill: the piece before the price is stored, the
    price becomes the position's current price, the order is executed. *)
Definition fill_step (exchange symbol : string) (index : nat) (order : Order)
    (storable_temp_candle : Candle) (s : Store) : Store :=
  let s1 :=
    set_candle_storage
      (<[series_key exchange symbol MINUTE_1 :=
           add_to_series storable_temp_candle
             (get_candles s exchange symbol MINUTE_1)]>
         (candle_storage s))
      (set_trace
         (trace s ++ [EvAddCandle exchange symbol MINUTE_1
                        storable_temp_candle]) s) in
  let s2 :=
    set_ledger
      (set_positions
         (assoc_alter (with_current_price (close storable_temp_candle))
            (key exchange symbol) (positions (ledger s1)))
         (ledger s1)) s1 in
  let s3 :=
    set_trace (trace s2 ++ [EvOrderExecute exchange symbol index order]) s2 in
  set_ledger
    (order_execute X exchange symbol index order (view_of s3) (ledger s3)) s3.

Definition is_get_orders (e : Event) : bool :=
  match e with EvGetOrders _ _ => true | _ => false end.

Definition is_add_candle_1m (e : Event) : bool :=
  match e with EvAddCandle _ _ MINUTE_1 _ => true | _ => false end.

(** How often the order list was fetched, and how many iterations the
    loop of the engine made: an iteration that executes an order stores
    one piece in the 1m series, and the last one stores the real candle. *)
Definition fetches (evs : list Event) : nat :=
  length (List.filter is_get_orders evs).

Definition iterations (evs : list Event) : nat :=
  length (List.filter is_add_candle_1m evs).

(** ** The driver *)

(** The 1m candles with indices [i - k + 1 .. i]. *)
Definition window (cs : CandleSet) (i : nat) (k : Z) : list Candle :=
  take (Z.to_nat k) (drop (i + 1 - Z.to_nat k) (cs_candles cs)).

Definition is_strategy_execute (e : Event) : bool :=
  match e with EvStrategyExecute _ _ => true | _ => false end.

Definition not_strategy_execute (e : Event) : Prop :=
  is_strategy_execute e = false.

(** The executions recorded in a trace, as pairs of the minute and the
    index of the route. *)
Definition executions (evs : list Event) : list (nat * nat) :=
  flat_map
    (fun e => match e with EvStrategyExecute i r => [(i, r)] | _ => [] end)
    evs.

(** The route is due at minute [i]: its timeframe closes there. *)
Definition due (i : nat) (r : Route) : bool :=
  ((Z.of_nat i + 1) mod timeframe_to_one_minutes (r_timeframe r) =? 0)%Z.

Definition due_routes (i : nat) (rs : list (nat * Route)) : list (nat * nat) :=
  map (fun ir => (i, fst ir)) (List.filter (fun ir => due i (snd ir)) rs).

(** A snapshot is taken at the end of minute [i]. *)
Definition snapshot_due (i : nat) : bool :=
  negb (Z.of_nat i =? 0)%Z && (Z.of_nat i mod 1440 =? 0)%Z.

(** What a completed minute adds to the executions and to the daily
    balances. *)
Definition minute_rel (i : nat) (s s' : Store) : Prop :=
  executions (trace s')
  = executions (trace s) ++ due_routes i (enumerate routes)
  /\ length (daily_balance s')
     = (length (daily_balance s) + if snapshot_due i then 1 else 0)%nat
  /\ strategies s' = strategies s
  /\ stdout s' = stdout s.

(** What the loop that initiates the strategies leaves alone. *)
Definition init_rel (s s' : Store) : Prop :=
  daily_balance s' = daily_balance s /\ trace s' = trace s
  /\ stdout s' = stdout s /\ cache s' = cache s.

(** The callbacks of the strategies and the sweep of the market orders. *)
Definition strategy_callback (f : View HP -> Ledger -> Ledger) : Prop :=
  (exists name index, f = _init_objects (get_strategy_class X name) index)
  \/ (exists name index, f = _execute (get_strategy_class X name) index)
  \/ (exists name index, f = _terminate (get_strategy_class X name) index)
  \/ f = execute_pending_market_orders X.

(** No callback removes a position from the store. *)
Definition keeps_positions (f : View HP -> Ledger -> Ledger) : Prop :=
  forall v l k,
    is_Some (assoc_get k (positions l)) ->
    is_Some (assoc_get k (positions (f v l))).

Definition positions_kept : Prop :=
  (forall exchange symbol index order,
     keeps_positions (order_execute X exchange symbol index order))
  /\ (forall f, strategy_callback f -> keeps_positions f).

(** [Inv] is a property of the order book that the callbacks of the
    strategies keep. *)
Definition book_invariant (Inv : gmap string (list Order) -> Prop) : Prop :=
  forall f, strategy_callback f ->
    forall v l, Inv (orders l) -> Inv (orders (f v l)).

(** Fills make progress: executing an active order of a book that
    satisfies [Inv] keeps [Inv] and makes the measure [mu] of the book
    smaller. *)
Definition fills_progress (Inv : gmap string (list Order) -> Prop)
    (mu : gmap string (list Order) -> nat) : Prop :=
  forall exchange symbol index order v l,
    Inv (orders l) ->
    orders_at l (key exchange symbol) !! index = Some order ->
    is_active order = true ->
    Inv (orders (order_execute X exchange symbol index order v l))
    /\ (mu (orders (order_execute X exchange symbol index order v l))
        < mu (orders l))%nat.

(** The keys of the positions a run needs. *)
Definition needed_positions (candles : list (string * CandleSet))
    : list string :=
  map (fun j => key (cs_exchange (snd j)) (cs_symbol (snd j))) candles
  ++ map (fun r => key (r_exchange r) (r_symbol r)) routes.

(** The configuration names a trading route whose candles are there, and
    every symbol has at least as many candles as that route. *)
Definition candles_ok (candles : list (string * CandleSet)) (N : nat)
    : Prop :=
  exists exchange symbol entry,
    trading_exchanges config !! 0%nat = Some exchange
    /\ trading_symbols config !! 0%nat = Some symbol
    /\ assoc_get (key exchange symbol) candles = Some entry
    /\ length (cs_candles entry) = N
    /\ forall j, j ∈ candles -> (N <= length (cs_candles (snd j)))%nat.

Section Invariants.

Context (Inv : gmap string (list Order) -> Prop).
Context (K : list string).

Definition has_positions (l : Ledger) : Prop :=
  forall k, k ∈ K -> is_Some (assoc_get k (positions l)).

Definition well_kept (s : Store) : Prop :=
  has_positions (ledger s) /\ Inv (orders (ledger s)).

End Invariants.

(** The strategies never touch the ledger. *)
Definition idle_strategies : Prop :=
  forall f, strategy_callback f -> forall v l, f v l = l.

(** No position is open and no order is active. *)
Definition flat_book (l : Ledger) : Prop :=
  (forall kp, kp ∈ positions l -> is_open (snd kp) = false)
  /\ (forall k os, orders l !! k = Some os ->
                   forall o, o ∈ os -> is_active o = false).

Definition starting_balance (l : Ledger) : Q :=
  py_sum (map (fun e => balance (snd e)) (exchanges l)).

(** The daily balances only grow; and when the strategies are idle and the
    book is flat, the book stays flat, the exchanges stay as they are and
    every new snapshot is the starting balance. *)
Definition quiet_rel (s s' : Store) : Prop :=
  exists snaps,
    daily_balance s' = daily_balance s ++ snaps
    /\ (idle_strategies -> flat_book (ledger s) ->
        flat_book (ledger s')
        /\ exchanges (ledger s') = exchanges (ledger s)
        /\ Forall (fun x => x = starting_balance (ledger s)) snaps).

(** The value of the variable [hyper_parameters] after the route [r]. *)
Definition next_hyper_parameters (acc : option HP) (r : Route) : option HP :=
  if truthy (dna r) && is_none acc then
    Some (dna_to_hp X
            (class_hyper_parameters (get_strategy_class X (strategy_name r)))
            (default "" (dna r)))
  else acc.

(** What is injected into the strategy of each route, in turn. *)
Fixpoint injected (acc : option HP) (rs : list Route) : list (option HP) :=
  match rs with
  | [] => []
  | r :: rest =>
      next_hyper_parameters acc r
      :: injected (next_hyper_parameters acc r) rest
  end.

Definition instance_with (o : option HP) (r : Route) : StrategyInstance HP :=
  match o with
  | Some h => with_hp h (new_instance X r)
  | None => new_instance X r
  end.

Definition route_keys (rs : list Route) : list string :=
  map (fun r => key (r_exchange r) (r_symbol r)) rs.

(** The store after the body of the loop for the route [r] at [index],
    up to the assignment to the position. *)
Definition instantiated (index : nat) (r : Route) (acc' : option HP)
    (s : Store) : Store :=
  let s1 := set_strategies (<[index:=new_instance X r]> (strategies s)) s in
  let s2 :=
    set_ledger
      (_init_objects (get_strategy_class X (strategy_name r)) index
         (view_of s1) (ledger s1)) s1 in
  match acc' with
  | Some h => set_strategies (alter (with_hp h) index (strategies s2)) s2
  | None => s2
  end.

(** The contract of the loader (section 6): the first row is at
    [start_ms], the last at [finish_ms], and there are
    [(finish_ms - start_ms) / 60000 + 1] rows. *)
Definition contract_violated (start_ms finish_ms : Z) (rows : list Candle)
    : Prop :=
  timestamp <$> head rows <> Some start_ms
  \/ timestamp <$> last rows <> Some finish_ms
  \/ ~ (inject_Z (Z.of_nat (length rows))
        == inject_Z (finish_ms - start_ms) / inject_Z 60000 + 1)%Q.

(** The rows [load_symbol] checks: the cached ones if there are any, or
    else those of the database. *)
Definition fetched (start_date finish_date : Z)
    (start_date_str finish_date_str exchange symbol : string) (s : Store)
    : list Candle :=
  match cache s !! (start_date_str +:+ "-" +:+ finish_date_str +:+ "-"
                    +:+ key exchange symbol) with
  | Some (c :: cached_value) => c :: cached_value
  | _ => database X start_date finish_date exchange symbol
  end.

(** The two nested loops of [_load_candles] as one loop over the pairs. *)
Definition load_pairs (start_date finish_date : Z)
    (start_date_str finish_date_str : string)
    (pairs : list (string * string)) (candles : list (string * CandleSet))
    : M (list (string * CandleSet)) :=
  for_each_acc pairs
    (fun candles p =>
       load_symbol X start_date finish_date start_date_str finish_date_str
         (fst p) candles (snd p))
    candles.

Definition pairs_of (exchanges symbols : list string)
    : list (string * string) :=
  flat_map (fun exchange => map (fun symbol => (exchange, symbol)) symbols)
    exchanges.

(** The store after the loop that injects the required initial candles. *)
Definition with_required_candles (start_date_str finish_date_str : string)
    (s : Store) : Store :=
  fold_left
    (fun s c =>
       set_candle_storage
         (inject_required_candles X (fst c) (snd c)
            start_date_str finish_date_str (candle_storage s)) s)
    (considering_candles config) s.

(** Loading touches the cache, the candle storage and the trace only. *)
Definition load_rel (s s' : Store) : Prop :=
  daily_balance s' = daily_balance s /\ ledger s' = ledger s
  /\ strategies s' = strategies s /\ app_time s' = app_time s
  /\ exists evs, trace s' = trace s ++ evs /\ Forall is_database_query evs.

(** The store in which the rows are checked: the query of the database,
    if one was needed, has been made. *)
Definition queried (start_date_str finish_date_str exchange symbol : string)
    (s : Store) : Store :=
  match cache s !! (start_date_str +:+ "-" +:+ finish_date_str +:+ "-"
                    +:+ key exchange symbol) with
  | Some (c :: cached_value) => s
  | _ => set_trace (trace s ++ [EvDatabaseQuery exchange symbol]) s
  end.

(** The same imports with another calendar, clock and database. *)
Definition with_loader (d : string -> Z) (u : Z)
    (inj : string -> string -> string -> string ->
           gmap string (list Candle) -> gmap string (list Candle))
    (db : Z -> Z -> string -> string -> list Candle)
    : Externals UserState Schema HP :=
  {| get_strategy_class := get_strategy_class X;
     dna_to_hp := dna_to_hp X;
     split_candle := split_candle X;
     order_execute := order_execute X;
     execute_pending_market_orders := execute_pending_market_orders X;
     validate_routes := validate_routes X;
     date_to_timestamp := d;
     utcnow_timestamp := u;
     inject_required_candles := inj;
     database := db |}.

(** The exceptions of [_load_candles]. *)
Definition loader_error (e : Exception) : Prop :=
  match e with
  | ValueError _ | CandleNotFoundInDatabase _ => True
  | _ => False
  end.

(** [raises m P]: every exception that leaves [m] satisfies [P]. *)
Definition raises {A} (m : M A) (P : Exception -> Prop) : Prop :=
  forall s e s', m s = Raise e s' -> P e.

(** The cache is as it was and the database has not been queried. *)
Definition no_load_rel (s s' : Store) : Prop :=
  cache s' = cache s
  /\ exists evs,
       trace s' = trace s ++ evs
       /\ Forall (fun e => ~ is_database_query e) evs.




End Notions.

(** ** Notions of the loader, of the engine and of the schedule *)

Section LoadingNotions.

Context {UserState Schema HP : Type}.
Context (X : Externals UserState Schema HP).

(** The key under which [_load_candles] caches the rows of an exchange and
    symbol. *)
Definition cache_key_of (start_date_str finish_date_str exchange symbol
    : string) : string :=
  start_date_str +:+ "-" +:+ finish_date_str +:+ "-" +:+ key exchange symbol.

(** The rows pass the two checks of [_load_candles]: they start at
    [start_ms], end at [finish_ms] and number
    [(finish_ms - start_ms) / 60000 + 1]. *)
Definition contract_kept (start_ms finish_ms : Z) (rows : list Candle)
    : Prop :=
  timestamp <$> head rows = Some start_ms
  /\ timestamp <$> last rows = Some finish_ms
  /\ (inject_Z (Z.of_nat (length rows))
      == inject_Z (finish_ms - start_ms) / inject_Z 60000 + 1)%Q.

(** [arrow.get (date, 'YYYY-MM-DD')] is a midnight: its timestamp is a
    whole number of days. *)
Definition whole_days : Prop :=
  forall d, (date_to_timestamp X d mod 86400000 = 0)%Z.

(** What [_load_candles] may have done to the cache between [s] and [s']:
    every entry of [s'] was there in [s], or holds rows that keep the
    contract, under the cache key of some exchange and symbol. *)
Definition cached_checked (start_ms finish_ms : Z)
    (start_date_str finish_date_str : string)
    (s s' : Store UserState HP) : Prop :=
  forall k rows,
    cache s' !! k = Some rows ->
    cache s !! k = Some rows
    \/ (contract_kept start_ms finish_ms rows
        /\ exists exchange symbol,
             k = cache_key_of start_date_str finish_date_str exchange symbol).

(** What a rejection of the dates leaves as it was: no balance is saved,
    no strategy is set up, nothing is cached and nothing is asked of the
    database. *)
Definition nothing_loaded (s s' : Store UserState HP) : Prop :=
  daily_balance s' = daily_balance s
  /\ ledger s' = ledger s
  /\ strategies s' = strategies s
  /\ cache s' = cache s
  /\ trace s' = trace s.

End LoadingNotions.

Section EngineNotions.

Context {UserState Schema HP : Type}.
Context (X : Externals UserState Schema HP).

(** One fill of the engine: the piece of the candle it stored, and the
    index and the order it executed. *)
Record Fill := mkFill {
  piece : Candle;
  fill_index : nat;
  fill_order : Order
}.

Definition fill_events (exchange symbol : string) (f : Fill) : list Event :=
  [EvAddCandle exchange symbol MINUTE_1 (piece f);
   EvOrderExecute exchange symbol (fill_index f) (fill_order f)].

(** The fills cut the candle [temp] in turn: each order is active and has
    its price inside what the fills before it left of the candle, and the
    piece stored is the first part of the split at its price. *)
Fixpoint matched_in_turn (temp : Candle) (fills : list Fill) : Prop :=
  match fills with
  | [] => True
  | f :: rest =>
      is_active (fill_order f) = true
      /\ candle_includes_price temp (o_price (fill_order f)) = true
      /\ piece f = fst (split_candle X temp (o_price (fill_order f)))
      /\ matched_in_turn
           (snd (split_candle X temp (o_price (fill_order f)))) rest
  end.

End EngineNotions.

Section ScheduleNotions.

Context {UserState Schema HP : Type}.
Context (X : Externals UserState Schema HP).
Context (config : Config) (routes : list Route).

(** The events of the ingestion of a candle: the candle store and the
    matching engine at work. *)
Definition is_ingest_event (e : Event) : bool :=
  match e with
  | EvGetOrders _ _ | EvAddCandle _ _ _ _ | EvOrderExecute _ _ _ _ => true
  | _ => false
  end.

Definition ingest_event (e : Event) : Prop := is_ingest_event e = true.

(** What is left of a trace without the events of the ingestion: the calls
    the driver makes on the strategies and on the pending market orders. *)
Definition schedule (evs : list Event) : list Event :=
  List.filter (fun e => negb (is_ingest_event e)) evs.

(** What the driver calls at minute [i], after the candles are in: the
    strategies that are due, in the order of the router, and then the
    sweep of the market orders. *)
Definition minute_schedule (i : nat) : list Event :=
  map (fun ir => EvStrategyExecute (fst ir) (snd ir))
    (due_routes i (enumerate routes))
  ++ [EvMarketOrders i].

(** The clocks of the store are as they were and the trace has grown by
    events that satisfy [P]. *)
Definition clock_rel (P : Event -> Prop) (s s' : Store UserState HP)
    : Prop :=
  app_time s' = app_time s
  /\ starting_time s' = starting_time s
  /\ exists evs, trace s' = trace s ++ evs /\ Forall P evs.

Definition no_event (e : Event) : Prop := False.

(** The events of the 1m candle of a minute and of the matching engine. *)
Definition is_minute_event (e : Event) : bool :=
  match e with
  | EvGetOrders _ _ | EvOrderExecute _ _ _ _ => true
  | EvAddCandle _ _ t _ => timeframe_eqb t MINUTE_1
  | _ => false
  end.

Definition minute_event (e : Event) : Prop := is_minute_event e = true.

(** The candles of timeframe [t] that a trace has added. *)
Definition is_generated (t : timeframe) (e : Event) : bool :=
  match e with
  | EvAddCandle _ _ t' _ => timeframe_eqb t t'
  | _ => false
  end.

Definition generated (t : timeframe) (evs : list Event) : list Event :=
  List.filter (is_generated t) evs.

(** The timeframe [t] closes at minute [i]. *)
Definition closes (t : timeframe) (i : nat) : bool :=
  ((Z.of_nat i + 1) mod timeframe_to_one_minutes t =? 0)%Z.

(** How many times [t] stands among the configured timeframes. *)
Definition configured (t : timeframe) : nat :=
  length (List.filter (timeframe_eqb t) (considering_timeframes config)).

(** How many candles of timeframe [t] minute [i] adds for one exchange and
    symbol. *)
Definition closing (t : timeframe) (i : nat) : nat :=
  if closes t i then configured t else 0%nat.

(** The trace of the minutes of a run from minute [k] on, where
    [ingested] holds, minute by minute, the events of the ingestion: each
    minute ingests, and then follows its schedule. *)
Definition minutes_from (k : nat) (ingested : list (list Event))
    : list Event :=
  concat (imap (fun i evs => evs ++ minute_schedule (k + i)) ingested).

End ScheduleNotions.

Section ExecutionNotions.

Context {UserState Schema HP : Type}.
Context (X : Externals UserState Schema HP).

(** The store after [r.strategy._execute()] for the route [ir] at minute
    [i]: the call is on the log, and the callback of the strategy has run
    on the ledger. *)
Definition strategy_executed (i : nat) (ir : nat * Route)
    (s : Store UserState HP) : Store UserState HP :=
  let s1 := set_trace (trace s ++ [EvStrategyExecute i (fst ir)]) s in
  set_ledger
    (_execute (get_strategy_class X (strategy_name (snd ir))) (fst ir)
       (view_of s1) (ledger s1))
    s1.

(** The store after the strategies of the routes that are due at minute
    [i] have executed, one after the other in the order of the router. *)
Definition due_executed (i : nat) (rs : list (nat * Route))
    (s : Store UserState HP) : Store UserState HP :=
  fold_left (fun s ir => strategy_executed i ir s)
    (List.filter (fun ir => due i (snd ir)) rs) s.

(** [obs] is something to be seen on the ledger that only [_execute]
    moves, by [step] at the index of its route: no other callback of a
    strategy, no fill of an order, no sweep of the market orders and no
    update of a position changes it. *)
Definition only_execute_moves {B} (obs : Ledger UserState -> B)
    (step : B -> nat -> B) : Prop :=
  (forall name index v l,
     obs (_execute (get_strategy_class X name) index v l)
     = step (obs l) index)
  /\ (forall name index v l,
        obs (_init_objects (get_strategy_class X name) index v l) = obs l)
  /\ (forall name index v l,
        obs (_terminate (get_strategy_class X name) index v l) = obs l)
  /\ (forall v l, obs (execute_pending_market_orders X v l) = obs l)
  /\ (forall exchange symbol index order v l,
        obs (order_execute X exchange symbol index order v l) = obs l)
  /\ (forall ps l, obs (set_positions ps l) = obs l).

(** Between [s] and [s'], what [obs] sees has moved by [step], once for
    each execution that the log has gained, in their order. *)
Definition observed {B} (obs : Ledger UserState -> B) (step : B -> nat -> B)
    (s s' : Store UserState HP) : Prop :=
  exists evs,
    trace s' = trace s ++ evs
    /\ obs (ledger s')
       = fold_left step (map snd (executions evs)) (obs (ledger s)).

End ExecutionNotions.

(** ** A concrete market, used to run the definitions

    One exchange and one symbol.  [split_candle] cuts at the price and
    keeps the extremes on the later piece; executing an order marks it
    executed, moves the position, and a filled buy places a sell limit ten
    above its price, as a strategy that sets a take-profit from its fill
    callback does. *)
Module Scenario.

Definition split_at (c : Candle) (price : Q) : Candle * Candle :=
  (mkCandle (timestamp c) (open c) price
     (if Qle_bool (open c) price then price else open c)
     (if Qle_bool (open c) price then open c else price)
     (volume c),
   mkCandle (timestamp c) price (close c) (high c) (low c) (volume c)).

Definition executed (o : Order) : Order :=
  mkOrder (o_id o) (o_side o) (o_type o) (o_qty o) (o_price o) EXECUTED.

Definition filled (o : Order) (p : Position) : Position :=
  mkPosition (exchange_name p) (p_symbol p)
    (match o_side o with
     | BUY => p_qty p + o_qty o
     | SELL => p_qty p - o_qty o
     end)%Q
    (o_price o) (current_price p) (p_strategy p).

Definition take_profit (o : Order) (book : list Order) : list Order :=
  match o_side o with
  | BUY =>
      book ++ [mkOrder (length book) SELL LIMIT (o_qty o)
                 (o_price o + 10)%Q ACTIVE]
  | SELL => book
  end.

Definition execute_order (exchange symbol : string) (index : nat) (o : Order)
    (v : View string) (l : Ledger unit) : Ledger unit :=
  mkLedger (exchanges l)
    (assoc_alter (filled o) (key exchange symbol) (positions l))
    (alter (fun book => take_profit o (<[index := executed o]> book))
       (key exchange symbol) (orders l))
    (completed_trades l) (user_state l).

(** A strategy that never does anything. *)
Definition idle : StrategyClass unit unit string :=
  {| class_hyper_parameters := tt;
     fresh_hp := None;
     _init_objects := fun _ _ l => l;
     _execute := fun _ _ l => l;
     _terminate := fun _ _ l => l |}.

(** The database holds one candle a minute from timestamp 0 on, all at
    100, except that the minute at 120000 is missing. *)
Definition flat (i : nat) : Candle :=
  mkCandle (Z.of_nat i * 60000) 100 100 100 100 1.

Definition flats (n : nat) : list Candle := map flat (seq 0 n).

Definition rows_with_gap (start_date finish_date : Z) : list Candle :=
  List.filter
    (fun c => (start_date <=? timestamp c)%Z && (timestamp c <=? finish_date)%Z
              && negb (timestamp c =? 120000)%Z)
    (flats 10).

(** The imports of the market: every strategy is [idle], a DNA decodes to
    itself, the calendar starts at 1970-01-01 and puts every other date
    six minutes later. *)
Definition externals : Externals unit unit string :=
  {| get_strategy_class := fun _ => idle;
     dna_to_hp := fun _ d => d;
     split_candle := split_at;
     order_execute := execute_order;
     execute_pending_market_orders := fun _ l => l;
     validate_routes := None;
     date_to_timestamp := fun d =>
       if String.eqb d "1970-01-01" then 0%Z else 360000%Z;
     utcnow_timestamp := 1000000%Z;
     inject_required_candles := fun _ _ _ _ m => m;
     database := fun start_date finish_date _ _ =>
       rows_with_gap start_date finish_date |}.

Definition config : Config :=
  {| trading_exchanges := ["Binance"];
     trading_symbols := ["BTCUSD"];
     considering_exchanges := ["Binance"];
     considering_symbols := ["BTCUSD"];
     considering_candles := [("Binance", "BTCUSD")];
     considering_timeframes := [MINUTE_1; MINUTE_15];
     should_execute_silently := true |}.

Definition routes : list Route :=
  [mkRoute "Binance" "BTCUSD" MINUTE_15 "Idle" None].

Definition flat_position : Position :=
  mkPosition "Binance" "BTCUSD" 0 0 0 None.

Definition book (os : list Order) : Ledger unit :=
  {| exchanges := [("Binance", mkExchange "Binance" 1000 0)];
     positions := [("Binance-BTCUSD", flat_position)];
     orders := {["Binance-BTCUSD" := os]};
     completed_trades := [];
     user_state := tt |}.

Definition store_with (os : list Order) : Store unit string :=
  {| app_time := 0; starting_time := 0; daily_balance := [];
     candle_storage := ∅; strategies := ∅; ledger := book os;
     cache := ∅; trace := []; stdout := [] |}.

Definition preloaded (n : nat) : list (string * CandleSet) :=
  [("Binance-BTCUSD", mkCandleSet "Binance" "BTCUSD" (flats n))].

(** The candle of scenario S2 and a buy limit at 98. *)
Definition real_candle : Candle := mkCandle 0 100 105 110 95 7.

Definition buy_98 : Order := mkOrder 0 BUY LIMIT 1 98 ACTIVE.

(** [ceil (n / d)] on naturals. *)
Definition ceil_div (n d : nat) : nat := ((n + d - 1) / d)%nat.

(** What an outcome leaves behind. *)
Definition daily_balance_of {A} (o : Outcome unit string A) : option (list Q) :=
  match o with Ok _ s => Some (daily_balance s) | _ => None end.

Definition trace_of {A} (o : Outcome unit string A) : list Event :=
  match o with Ok _ s | Raise _ s => trace s | OutOfFuel => [] end.

Definition store_of {A} (o : Outcome unit string A) : Store unit string :=
  match o with Ok _ s | Raise _ s => s | OutOfFuel => store_with [] end.

(** A sell limit far above the candle, the take-profit of [buy_98], and
    three routes of which the second and the third carry a DNA. *)
Definition outside_order : Order := mkOrder 0 SELL LIMIT 1 200 ACTIVE.

Definition sell_108 : Order := mkOrder 1 SELL LIMIT 1 (98 + 10) ACTIVE.

Definition dna_routes : list Route :=
  [mkRoute "Binance" "BTCUSD" MINUTE_1 "First" None;
   mkRoute "Binance" "BTCUSD" MINUTE_5 "Second" (Some "abc");
   mkRoute "Binance" "BTCUSD" MINUTE_15 "Third" (Some "xyz")].

(** No order of the book is active. *)
Definition no_active_order (book : gmap string (list Order)) : Prop :=
  forall k os, book !! k = Some os -> forall o, o ∈ os -> is_active o = false.

(** A database without a gap: of the first [n] minutes from timestamp 0
    on, the rows between the two timestamps. *)
Definition rows_between (n : nat) (start_date finish_date : Z)
    : list Candle :=
  List.filter
    (fun c => (start_date <=? timestamp c)%Z && (timestamp c <=? finish_date)%Z)
    (flats n).

(** The market of [externals] over a database of ten minutes without a
    gap. *)
Definition complete : Externals unit unit string :=
  with_loader externals (date_to_timestamp externals)
    (utcnow_timestamp externals) (inject_required_candles externals)
    (fun start_date finish_date _ _ => rows_between 10 start_date finish_date).

(** A calendar of midnights, and the market over a database of one day. *)
Definition calendar (d : string) : Z :=
  if String.eqb d "1970-01-01" then 0%Z else 86400000%Z.

Definition daily : Externals unit unit string :=
  with_loader externals calendar (utcnow_timestamp externals)
    (inject_required_candles externals)
    (fun start_date finish_date _ _ =>
       rows_between 1440 start_date finish_date).

Definition result_of {A} (o : Outcome unit string A) (d : A) : A :=
  match o with Ok a _ => a | _ => d end.

(** A strategy that counts its executions in the user's state, a market
    whose strategies all do so and whose order book takes no fill, and a
    store for it with the count at 0. *)
Definition tallied (l : Ledger nat) : Ledger nat :=
  mkLedger (exchanges l) (positions l) (orders l) (completed_trades l)
    (S (user_state l)).

Definition tally : StrategyClass nat unit string :=
  {| class_hyper_parameters := tt;
     fresh_hp := None;
     _init_objects := fun _ _ l => l;
     _execute := fun _ _ l => tallied l;
     _terminate := fun _ _ l => l |}.

Definition tally_market : Externals nat unit string :=
  {| get_strategy_class := fun _ => tally;
     dna_to_hp := fun _ d => d;
     split_candle := split_at;
     order_execute := fun _ _ _ _ _ l => l;
     execute_pending_market_orders := fun _ l => l;
     validate_routes := None;
     date_to_timestamp := date_to_timestamp externals;
     utcnow_timestamp := utcnow_timestamp externals;
     inject_required_candles := fun _ _ _ _ m => m;
     database := fun start_date finish_date _ _ =>
       rows_with_gap start_date finish_date |}.

Definition tally_store : Store nat string :=
  {| app_time := 0; starting_time := 0; daily_balance := [];
     candle_storage := ∅; strategies := ∅;
     ledger :=
       {| exchanges := [("Binance", mkExchange "Binance" 1000 0)];
          positions := [("Binance-BTCUSD", flat_position)];
          orders := {["Binance-BTCUSD" := []]};
          completed_trades := [];
          user_state := 0%nat |};
     cache := ∅; trace := []; stdout := [] |}.

End Scenario.

(** * Properties *)

Ltac unfold_monad :=
  unfold mbind, M_bind, bind, mret, M_ret, ret, raise, modify, emit,
    callback, of_option, get in *.

Section Lists.

Lemma assoc_get_alter {A} (f : A -> A) (k k' : string)
    (l : list (string * A)) :
  assoc_get k' (assoc_alter f k l)
  = if String.eqb k' k then f <$> assoc_get k' l else assoc_get k' l.
Proof.
  induction l as [|[k0 v] l IH]; simpl.
  - by destruct (String.eqb k' k).
  - destruct (String.eqb k k0) eqn:E0; simpl.
    + apply String.eqb_eq in E0; subst k0.
      by destruct (String.eqb k' k).
    + destruct (String.eqb k' k0) eqn:E1; [|exact IH].
      destruct (String.eqb k' k) eqn:E2; [|done].
      apply String.eqb_eq in E1, E2. subst.
      by rewrite String.eqb_refl in E0.
Qed.

Lemma assoc_get_alter_eq {A} (f : A -> A) (k : string)
    (l : list (string * A)) :
  assoc_get k (assoc_alter f k l) = f <$> assoc_get k l.
Proof. by rewrite assoc_get_alter, String.eqb_refl. Qed.

Lemma add_to_series_overwrite (c t : Candle) (arr : list Candle) :
  last arr = Some t -> timestamp t = timestamp c ->
  add_to_series c arr = removelast arr ++ [c].
Proof.
  intros Hl Ht. unfold add_to_series. rewrite Hl, Ht.
  by rewrite Z.ltb_irrefl, Z.eqb_refl.
Qed.

Lemma add_to_series_last (c : Candle) (arr : list Candle) :
  (forall t, last arr = Some t -> (timestamp t <= timestamp c)%Z) ->
  last (add_to_series c arr) = Some c.
Proof.
  intros H. unfold add_to_series.
  destruct (last arr) as [t|] eqn:Hl; [|done].
  specialize (H t eq_refl).
  destruct (timestamp t <? timestamp c)%Z eqn:E1.
  - by rewrite last_snoc.
  - apply Z.ltb_ge in E1.
    replace (timestamp c =? timestamp t)%Z with true
      by (symmetry; apply Z.eqb_eq; lia).
    by rewrite last_snoc.
Qed.

End Lists.

(** ** Rules for [post], [total] and [frame] *)
Section Post.

Context {UserState HP : Type}.

Abbreviation Store := (Store UserState HP).
Abbreviation M := (M UserState HP).
Abbreviation frame := (@frame UserState HP).

Lemma post_ok {A} (m : M A) R s a s' : post m R -> m s = Ok a s' -> R s s'.
Proof. intros H E. specialize (H s). by rewrite E in H. Qed.

Lemma post_raise_at {A} (m : M A) R s e s' :
  post m R -> m s = Raise e s' -> R s s'.
Proof. intros H E. specialize (H s). by rewrite E in H. Qed.

Lemma post_weaken {A} (m : M A) (R R' : Store -> Store -> Prop) :
  (forall s s', R s s' -> R' s s') -> post m R -> post m R'.
Proof.
  intros HR H s. specialize (H s). destruct (m s); auto.
Qed.

Section Preorder.

Context (R : Store -> Store -> Prop) `{!PreOrder R}.

Lemma post_ret {A} (a : A) : post (mret a : M A) R.
Proof. intros s. simpl. reflexivity. Qed.

Lemma post_raise {A} (e : Exception) : post (raise e : M A) R.
Proof. intros s. simpl. reflexivity. Qed.

Lemma post_get : post (get : M _) R.
Proof. intros s. simpl. reflexivity. Qed.

Lemma post_of_option {A} (o : option A) (e : Exception) :
  post (of_option o e : M A) R.
Proof. destruct o; [apply post_ret|apply post_raise]. Qed.

Lemma post_bind {A B} (m : M A) (f : A -> M B) :
  post m R -> (forall a, post (f a) R) -> post (m ≫= f) R.
Proof.
  intros Hm Hf s. specialize (Hm s).
  unfold mbind, M_bind, bind. destruct (m s) as [a s1|e s1|]; auto.
  specialize (Hf a s1). destruct (f a s1); auto; by etrans.
Qed.

Lemma post_modify (f : Store -> Store) :
  (forall s, R s (f s)) -> post (modify f) R.
Proof. intros H s. apply H. Qed.

Lemma post_for_each {A} (l : list A) (body : A -> M unit) :
  (forall x, x ∈ l -> post (body x) R) -> post (for_each l body) R.
Proof.
  induction l as [|x l IH]; intros H; simpl.
  - apply post_ret.
  - apply post_bind; [apply H, list_elem_of_here|].
    intros _. apply IH. intros y Hy. by apply H, list_elem_of_further.
Qed.

End Preorder.

Section Invariant.

Context (I : Store -> Prop).

Lemma total_ret {A} (a : A) : total I (mret a : M A).
Proof. intros s Hs. by exists a, s. Qed.

Lemma total_bind {A B} (m : M A) (f : A -> M B) :
  total I m -> (forall a, total I (f a)) -> total I (m ≫= f).
Proof.
  intros Hm Hf s Hs. destruct (Hm s Hs) as (a & s1 & E1 & Hs1).
  destruct (Hf a s1 Hs1) as (b & s2 & E2 & Hs2).
  exists b, s2. split; [|done].
  unfold mbind, M_bind, bind. by rewrite E1.
Qed.

Lemma total_of_option {A} (o : option A) (e : Exception) :
  is_Some o -> total I (of_option o e : M A).
Proof. intros [a ->] s Hs. by exists a, s. Qed.

Lemma total_modify (f : Store -> Store) :
  (forall s, I s -> I (f s)) -> total I (modify f).
Proof. intros Hf s Hs. exists tt, (f s). split; [done|]. by apply Hf. Qed.

Lemma total_for_each {A} (l : list A) (body : A -> M unit) :
  (forall x, x ∈ l -> total I (body x)) -> total I (for_each l body).
Proof.
  induction l as [|x l IH]; intros H; simpl.
  - apply total_ret.
  - apply total_bind; [apply H, list_elem_of_here|].
    intros _. apply IH. intros y Hy. by apply H, list_elem_of_further.
Qed.

End Invariant.

#[global] Instance frame_preorder (P : Event -> Prop) : PreOrder (frame P).
Proof.
  split.
  - intros s. repeat split. exists []. by rewrite app_nil_r.
  - intros s1 s2 s3 (H1 & H2 & H3 & H4 & H5 & evs & Ht & Hevs)
      (H1' & H2' & H3' & H4' & H5' & evs' & Ht' & Hevs').
    repeat split; try congruence.
    exists (evs ++ evs'). split; [|by apply Forall_app].
    by rewrite Ht', Ht, app_assoc.
Qed.

Lemma frame_mono (P P' : Event -> Prop) s s' :
  (forall e, P e -> P' e) -> frame P s s' -> frame P' s s'.
Proof.
  intros Himp (H1 & H2 & H3 & H4 & H5 & evs & Ht & Hevs).
  repeat split; try done. exists evs. split; [done|].
  eapply Forall_impl; eauto.
Qed.

Lemma post_frame_mono {A} (m : M A) (P P' : Event -> Prop) :
  (forall e, P e -> P' e) -> post m (frame P) -> post m (frame P').
Proof. intros Himp. apply post_weaken. intros s s'. by apply frame_mono. Qed.

Lemma frame_emit (P : Event -> Prop) (e : Event) :
  P e -> post (emit e) (frame P).
Proof.
  intros He s. simpl. repeat split. exists [e]. split; [done|].
  by apply Forall_singleton.
Qed.

Lemma frame_set_ledger (P : Event -> Prop) (f : Store -> Ledger UserState) :
  post (modify (fun s => set_ledger (f s) s)) (frame P).
Proof.
  intros s. simpl. repeat split. exists []. by rewrite app_nil_r.
Qed.

Lemma frame_callback (P : Event -> Prop) f :
  post (callback f) (frame P).
Proof. apply frame_set_ledger. Qed.

Lemma frame_set_candle_storage (P : Event -> Prop)
    (f : Store -> gmap string (list Candle)) :
  post (modify (fun s => set_candle_storage (f s) s)) (frame P).
Proof.
  intros s. simpl. repeat split. exists []. by rewrite app_nil_r.
Qed.

Lemma frame_set_app_time (P : Event -> Prop) (x : Z) :
  post (modify (set_app_time x)) (frame P).
Proof.
  intros s. simpl. repeat split. exists []. by rewrite app_nil_r.
Qed.

End Post.

Section Engine.

Context {UserState Schema HP : Type}.
Context (X : Externals UserState Schema HP).

Abbreviation Store := (Store UserState HP).
Abbreviation frame := (@frame UserState HP).
Abbreviation fill_step := (fill_step X).

Lemma scan_orders_cons (n : nat) (temp : Candle) (index : nat) (o : Order)
    (os : list Order) (flag : bool) :
  scan_orders n temp index (o :: os) flag
  = if is_active o then
      if candle_includes_price temp (o_price o) then (true, Some (index, o))
      else scan_orders n temp (S index) os false
    else
      scan_orders n temp (S index) os
        (if (index =? n - 1)%nat then false else flag).
Proof.
  cbn [scan_orders].
  destruct (is_active o); cbn [negb];
    rewrite ?andb_false_r, ?andb_true_r; reflexivity.
Qed.

(** When no active order of the list has its price inside the candle, the
    [for] loop ends without [break] and leaves the flag false, whatever
    the flag was before. *)
Lemma scan_orders_none (n : nat) (temp : Candle) (os : list Order) :
  forall index flag,
    os <> [] -> (index + length os = n)%nat ->
    (forall o, o ∈ os -> is_active o = true ->
               candle_includes_price temp (o_price o) = false) ->
    scan_orders n temp index os flag = (false, None).
Proof.
  induction os as [|o os IH]; intros index flag Hne Hn Hno; [done|].
  rewrite scan_orders_cons.
  assert (Ho : is_active o = true ->
               candle_includes_price temp (o_price o) = false)
    by (apply Hno, list_elem_of_here).
  destruct os as [|o' os'].
  - replace (index =? n - 1)%nat with true
      by (symmetry; apply Nat.eqb_eq; simpl in Hn; lia).
    destruct (is_active o); [by rewrite Ho|done].
  - assert (Hrest : forall b,
        scan_orders n temp (S index) (o' :: os') b = (false, None)).
    { intros b. apply IH; [done|simpl in *; lia|].
      intros o0 Hin. apply Hno. by apply list_elem_of_further. }
    destruct (is_active o); [by rewrite Ho, Hrest|apply Hrest].
Qed.

(** The loop stops at the first active order whose price is inside the
    candle. *)
Lemma scan_orders_first (n : nat) (temp : Candle) (pre post : list Order)
    (o : Order) :
  forall index flag,
    (forall o', o' ∈ pre -> is_active o' = true ->
                candle_includes_price temp (o_price o') = false) ->
    is_active o = true -> candle_includes_price temp (o_price o) = true ->
    scan_orders n temp index (pre ++ o :: post) flag
    = (true, Some ((index + length pre)%nat, o)).
Proof.
  induction pre as [|p pre IH]; intros index flag Hpre Ha Hin.
  - simpl app. rewrite scan_orders_cons, Ha, Hin.
    by rewrite Nat.add_0_r.
  - assert (Hrest : forall b,
        scan_orders n temp (S index) (pre ++ o :: post) b
        = (true, Some ((index + S (length pre))%nat, o))).
    { intros b. rewrite IH; [|intros; apply Hpre;
        [by apply list_elem_of_further|done]|done|done].
      do 3 f_equal. lia. }
    assert (Hp : is_active p = true ->
                 candle_includes_price temp (o_price p) = false)
      by (apply Hpre, list_elem_of_here).
    change ((p :: pre) ++ o :: post) with (p :: (pre ++ o :: post)).
    rewrite scan_orders_cons. simpl length.
    destruct (is_active p); [by rewrite Hp, Hrest|apply Hrest].
Qed.

(** A hit of the loop is an active order of the list, at the index
    reported, whose price is inside the candle. *)
Lemma scan_orders_hit (n : nat) (temp : Candle) (os : list Order) :
  forall index flag flag' i o,
    scan_orders n temp index os flag = (flag', Some (i, o)) ->
    flag' = true /\ (index <= i)%nat /\ os !! (i - index)%nat = Some o
    /\ is_active o = true
    /\ candle_includes_price temp (o_price o) = true.
Proof.
  induction os as [|p os IH]; intros index flag flag' i o; [done|].
  rewrite scan_orders_cons.
  assert (Hrest : forall b,
    scan_orders n temp (S index) os b = (flag', Some (i, o)) ->
    flag' = true /\ (index <= i)%nat /\ (p :: os) !! (i - index)%nat = Some o
    /\ is_active o = true
    /\ candle_includes_price temp (o_price o) = true).
  { intros b H. apply IH in H as (-> & Hle & Hl & Ha & Hi).
    repeat split; [lia| |done|done].
    replace (i - index)%nat with (S (i - S index)) by lia. done. }
  destruct (is_active p) eqn:Hp; [|apply Hrest].
  destruct (candle_includes_price temp (o_price p)) eqn:Hin; [|apply Hrest].
  intros [= <- <- <-]. rewrite Nat.sub_diag. by repeat split.
Qed.

Lemma for_orders_none (temp : Candle) (os : list Order) (flag : bool) :
  (forall o, o ∈ os -> is_active o = true ->
             candle_includes_price temp (o_price o) = false) ->
  for_orders temp os flag = (false, None).
Proof.
  intros Hno. unfold for_orders. destruct os as [|o os]; [done|].
  by apply scan_orders_none.
Qed.

Lemma for_orders_first (temp : Candle) (pre post : list Order) (o : Order)
    (flag : bool) :
  (forall o', o' ∈ pre -> is_active o' = true ->
              candle_includes_price temp (o_price o') = false) ->
  is_active o = true -> candle_includes_price temp (o_price o) = true ->
  for_orders temp (pre ++ o :: post) flag = (true, Some (length pre, o)).
Proof.
  intros Hpre Ha Hin. unfold for_orders.
  replace (length (pre ++ o :: post) =? 0)%nat with false
    by (symmetry; apply Nat.eqb_neq; rewrite length_app; simpl; lia).
  by rewrite scan_orders_first.
Qed.

Lemma for_orders_hit (temp : Candle) (os : list Order) (flag flag' : bool)
    (i : nat) (o : Order) :
  for_orders temp os flag = (flag', Some (i, o)) ->
  flag' = true /\ os !! i = Some o /\ is_active o = true
  /\ candle_includes_price temp (o_price o) = true.
Proof.
  unfold for_orders. destruct (length os =? 0)%nat; [done|].
  intros H. apply scan_orders_hit in H as (? & ? & Hl & ? & ?).
  by rewrite Nat.sub_0_r in Hl.
Qed.

Lemma first_match_split (temp : Candle) (os : list Order) :
  (forall o, o ∈ os -> is_active o = true ->
             candle_includes_price temp (o_price o) = false)
  \/ exists pre o post,
       os = pre ++ o :: post
       /\ (forall o', o' ∈ pre -> is_active o' = true ->
                      candle_includes_price temp (o_price o') = false)
       /\ is_active o = true
       /\ candle_includes_price temp (o_price o) = true.
Proof.
  induction os as [|p os IH].
  - left. intros o Hin. by apply elem_of_nil in Hin.
  - destruct (is_active p && candle_includes_price temp (o_price p))
      eqn:Hp.
    + apply andb_true_iff in Hp as [Ha Hi].
      right. exists [], p, os. repeat split; [|done|done].
      intros o' Hin. by apply elem_of_nil in Hin.
    + assert (Hp' : is_active p = true ->
                    candle_includes_price temp (o_price p) = false).
      { intros Ha. by rewrite Ha in Hp. }
      destruct IH as [Hno|(pre & o & post & -> & Hpre & Ha & Hi)].
      * left. intros o Hin. apply elem_of_cons in Hin as [->|Hin]; auto.
      * right. exists (p :: pre), o, post. repeat split; [|done|done].
        intros o' Hin. apply elem_of_cons in Hin as [->|Hin]; auto.
Qed.

(** The flag and the hit agree: the flag is true exactly when the [for]
    loop left through [break]. *)
Lemma for_orders_flag (temp : Candle) (os : list Order) (flag : bool) :
  for_orders temp os flag = (false, None)
  \/ exists i o, for_orders temp os flag = (true, Some (i, o)).
Proof.
  destruct (first_match_split temp os)
    as [Hno|(pre & o & post & -> & Hpre & Ha & Hi)].
  - left. by apply for_orders_none.
  - right. exists (length pre), o. by apply for_orders_first.
Qed.

Lemma get_candles_add (s : Store) (exchange symbol : string)
    (t : timeframe) (x : list Candle) :
  get_candles
    (set_candle_storage
       (<[series_key exchange symbol t := x]> (candle_storage s)) s)
    exchange symbol t = x.
Proof. unfold get_candles. simpl. by rewrite lookup_insert_eq. Qed.

Lemma price_change_loop_exit (fuel : nat) (real_candle : Candle)
    (exchange symbol : string) (temp : Candle) (flag : bool) (s : Store)
    (p : Position) :
  assoc_get (key exchange symbol) (positions (ledger s)) = Some p ->
  for_orders temp (orders_at (ledger s) (key exchange symbol)) flag
  = (false, None) ->
  price_change_loop X (S fuel) real_candle exchange symbol
    (key exchange symbol) temp flag s
  = Ok tt (store_real_candle real_candle exchange symbol s).
Proof.
  intros Hp Hscan. cbn [price_change_loop].
  unfold mbind, M_bind, bind, read_orders. rewrite Hscan. cbn [negb].
  unfold add_candle, update_position.
  unfold_monad. simpl. by rewrite Hp.
Qed.

(** C2.  Whenever the loop of the matching engine starts an iteration in
    which no order of the exchange and symbol is active, or no active one
    has its price inside the current temp candle (bounds included), that
    iteration is the last: the engine adds the real candle [R] to the 1m
    series (over the piece written before for the same minute, if any),
    sets the position's current price to the close of [R], and returns. *)
Theorem no_order_inside_stores_real_candle
    (fuel : nat) (R : Candle) (exchange symbol : string)
    (current_temp_candle : Candle) (executed_order : bool) (s : Store)
    (p : Position) :
  assoc_get (key exchange symbol) (positions (ledger s)) = Some p ->
  (forall o, o ∈ orders_at (ledger s) (key exchange symbol) ->
             is_active o = true ->
             candle_includes_price current_temp_candle (o_price o) = false) ->
  exists s',
    price_change_loop X (S fuel) R exchange symbol (key exchange symbol)
      current_temp_candle executed_order s = Ok tt s'
    /\ trace s' = trace s ++ [EvAddCandle exchange symbol MINUTE_1 R]
    /\ get_candles s' exchange symbol MINUTE_1
       = add_to_series R (get_candles s exchange symbol MINUTE_1)
    /\ (forall t, last (get_candles s exchange symbol MINUTE_1) = Some t ->
                  timestamp t = timestamp R ->
                  get_candles s' exchange symbol MINUTE_1
                  = removelast (get_candles s exchange symbol MINUTE_1)
                    ++ [R])
    /\ assoc_get (key exchange symbol) (positions (ledger s'))
       = Some (with_current_price (close R) p)
    /\ current_price (with_current_price (close R) p) = close R
    /\ orders (ledger s') = orders (ledger s)
    /\ daily_balance s' = daily_balance s.
Proof.
  intros Hp Hno.
  exists (store_real_candle R exchange symbol s).
  split; [apply (price_change_loop_exit _ _ _ _ _ _ _ p Hp),
            for_orders_none, Hno|].
  assert (Hget : get_candles (store_real_candle R exchange symbol s)
                   exchange symbol MINUTE_1
                 = add_to_series R (get_candles s exchange symbol MINUTE_1)).
  { unfold store_real_candle, get_candles. simpl.
    by rewrite lookup_insert_eq. }
  repeat split; try done.
  - intros t Hl Ht. rewrite Hget. by apply add_to_series_overwrite with t.
  - unfold store_real_candle. simpl.
    by rewrite assoc_get_alter_eq, Hp.
Qed.

(** *** The events of one run of the matching engine *)

Lemma frame_add_candle (P : Event -> Prop) (c : Candle)
    (exchange symbol : string) (t : timeframe) :
  P (EvAddCandle exchange symbol t c) ->
  post (add_candle c exchange symbol t : M UserState HP unit) (frame P).
Proof.
  intros He. unfold add_candle.
  apply post_bind; [apply _|by apply frame_emit|].
  intros _. apply frame_set_candle_storage.
Qed.

Lemma frame_update_position (P : Event -> Prop) (f : Position -> Position)
    (exchange symbol : string) :
  post (update_position f exchange symbol : M UserState HP unit) (frame P).
Proof.
  intros s. unfold update_position.
  destruct (assoc_get _ _); simpl;
    repeat split; exists []; by rewrite app_nil_r.
Qed.

Lemma frame_price_change_loop (fuel : nat) (real_candle : Candle)
    (exchange symbol handle : string) :
  forall temp flag,
    post (price_change_loop X fuel real_candle exchange symbol handle
            temp flag)
         (frame loop_event).
Proof.
  induction fuel as [|fuel IH]; intros temp flag; [by intros s|].
  cbn [price_change_loop].
  apply post_bind; [apply _|by intros s; simpl|].
  intros os. destruct (for_orders temp os flag) as [b [[index order]|]].
  - destruct (split_candle X temp (o_price order)) as [storable rest].
    apply post_bind; [apply _|by apply frame_add_candle|]. intros _.
    apply post_bind; [apply _|apply frame_update_position|]. intros _.
    apply post_bind; [apply _|by apply frame_emit|]. intros _.
    apply post_bind; [apply _|apply frame_callback|]. intros _.
    apply IH.
  - destruct b; simpl; [apply IH|].
    apply post_bind; [apply _|by apply frame_add_candle|]. intros _.
    apply frame_update_position.
Qed.

Lemma frame_simulate_price_change_effect
    (fuel : Ledger UserState -> nat) (real_candle : Candle)
    (exchange symbol : string) :
  post (_simulate_price_change_effect X fuel real_candle exchange symbol)
       (frame engine_event).
Proof.
  unfold _simulate_price_change_effect, get_orders.
  apply post_bind; [apply _| |].
  - apply post_bind; [apply _|by apply frame_emit|].
    intros _. apply post_ret, _.
  - intros h. apply post_bind; [apply _|apply post_get, _|]. intros s.
    eapply post_frame_mono; [|apply frame_price_change_loop].
    by intros [].
Qed.

Lemma price_change_loop_step (fuel : nat) (real_candle : Candle)
    (exchange symbol : string) (temp : Candle) (flag flag' : bool)
    (s : Store) (p : Position) (index : nat) (order : Order) :
  assoc_get (key exchange symbol) (positions (ledger s)) = Some p ->
  for_orders temp (orders_at (ledger s) (key exchange symbol)) flag
  = (flag', Some (index, order)) ->
  price_change_loop X (S fuel) real_candle exchange symbol
    (key exchange symbol) temp flag s
  = price_change_loop X fuel real_candle exchange symbol
      (key exchange symbol)
      (snd (split_candle X temp (o_price order))) flag'
      (fill_step exchange symbol index order
         (fst (split_candle X temp (o_price order))) s).
Proof.
  intros Hp Hscan. cbn [price_change_loop].
  unfold mbind, M_bind, bind, read_orders. rewrite Hscan.
  destruct (split_candle X temp (o_price order)) as [storable rest].
  unfold add_candle, update_position. unfold_monad. simpl.
  by rewrite Hp.
Qed.

Lemma filter_get_orders_loop_events (evs : list Event) :
  Forall loop_event evs -> List.filter is_get_orders evs = [].
Proof.
  induction 1 as [|e evs He _ IH]; [done|].
  simpl. rewrite IH. by destruct e.
Qed.

(** C3, as the program has it.  One run of the matching engine fetches the
    order list exactly once, before its loop.  What it holds is the list
    of the order book itself, read anew at every iteration, so that after
    a fill the next iteration scans the list as the fill callback left it:
    an order that the callback created, if it is then the first active
    order whose price is inside the remainder candle, is executed within
    the same minute. *)
Theorem orders_fetched_once_and_read_live
    (budget : Ledger UserState -> nat) (fuel : nat) (R : Candle)
    (exchange symbol : string) (s : Store)
    (p p' : Position) (index index' : nat) (order order' : Order) :
  let handle := key exchange symbol in
  let pieces := split_candle X R (o_price order) in
  let s1 := fill_step exchange symbol index order (fst pieces) s in
  let pieces' := split_candle X (snd pieces) (o_price order') in
  assoc_get handle (positions (ledger s)) = Some p ->
  for_orders R (orders_at (ledger s) handle) false
  = (true, Some (index, order)) ->
  assoc_get handle (positions (ledger s1)) = Some p' ->
  for_orders (snd pieces) (orders_at (ledger s1) handle) true
  = (true, Some (index', order')) ->
  (forall s0 : Store,
     _simulate_price_change_effect X budget R exchange symbol s0
     = price_change_loop X (budget (ledger s0)) R exchange symbol handle
         R false (set_trace (trace s0 ++ [EvGetOrders exchange symbol]) s0))
  /\ (forall s0 : Store,
       match _simulate_price_change_effect X budget R exchange symbol s0
       with
       | Ok _ s' | Raise _ s' =>
           exists evs,
             trace s' = trace s0 ++ EvGetOrders exchange symbol :: evs
             /\ fetches evs = 0%nat
       | OutOfFuel => True
       end)
  /\ price_change_loop X (S (S fuel)) R exchange symbol handle R false s
     = price_change_loop X fuel R exchange symbol handle (snd pieces') true
         (fill_step exchange symbol index' order' (fst pieces') s1).
Proof.
  intros handle pieces s1 pieces' Hp Hscan Hp' Hscan'.
  split; [done|]. split.
  - intros s0. unfold _simulate_price_change_effect, get_orders.
    unfold mbind, M_bind, bind, mret, M_ret, ret, emit, modify, get.
    pose proof (frame_price_change_loop (budget (ledger s0)) R
                  exchange symbol
                  (key exchange symbol) R false
                  (set_trace (trace s0 ++ [EvGetOrders exchange symbol]) s0))
      as H.
    destruct (price_change_loop _ _ _ _ _ _ _ _ _) as [a s'|e s'|];
      [| |done];
      destruct H as (_ & _ & _ & _ & _ & evs & Ht & Hevs);
      exists evs; simpl in Ht; rewrite <- app_assoc in Ht;
      (split; [exact Ht|]);
      unfold fetches; by rewrite filter_get_orders_loop_events.
  - subst handle.
    rewrite (price_change_loop_step _ _ _ _ _ false true s p index order);
      [|exact Hp|exact Hscan].
    fold pieces. fold s1.
    by rewrite (price_change_loop_step _ _ _ _ _ true true s1 p' index'
                  order').
Qed.

End Engine.

(** ** The daily balance snapshot *)

Section Equity.

Context {UserState HP : Type}.

Local Open Scope Q_scope.

Lemma fold_left_Qplus (l : list Q) (a : Q) :
  fold_left Qplus l a == a + sumQ l.
Proof.
  revert a. induction l as [|x l IH]; intros a; simpl.
  - ring.
  - rewrite IH. ring.
Qed.

Lemma py_sum_sumQ (l : list Q) : py_sum l == sumQ l.
Proof. unfold py_sum. rewrite fold_left_Qplus. ring. Qed.




End Equity.

(** ** Candles of the bigger timeframes *)

Section Aggregation.

Local Open Scope Q_scope.

Lemma py_max_spec (l : list Q) :
  forall x,
    x <= py_max x l /\ (forall y, y ∈ l -> y <= py_max x l)
    /\ (py_max x l = x \/ py_max x l ∈ l).
Proof.
  unfold py_max. induction l as [|y l IH]; intros x; simpl.
  - split; [apply Qle_refl|]. split; [|by left].
    intros y Hy. by apply elem_of_nil in Hy.
  - destruct (Qle_bool y x) eqn:E.
    + apply Qle_bool_iff in E.
      destruct (IH x) as (H1 & H2 & H3). split; [done|]. split.
      * intros z Hz. apply elem_of_cons in Hz as [->|Hz]; [|by apply H2].
        by apply Qle_trans with x.
      * destruct H3 as [H3|H3]; [by left|right].
        by apply list_elem_of_further.
    + assert (x <= y).
      { apply Qlt_le_weak, Qnot_le_lt. intros H.
        apply Qle_bool_iff in H. congruence. }
      destruct (IH y) as (H1 & H2 & H3). split; [by apply Qle_trans with y|].
      split.
      * intros z Hz. apply elem_of_cons in Hz as [->|Hz]; [done|by apply H2].
      * right. destruct H3 as [->|H3];
          [apply list_elem_of_here|by apply list_elem_of_further].
Qed.

Lemma py_min_spec (l : list Q) :
  forall x,
    py_min x l <= x /\ (forall y, y ∈ l -> py_min x l <= y)
    /\ (py_min x l = x \/ py_min x l ∈ l).
Proof.
  unfold py_min. induction l as [|y l IH]; intros x; simpl.
  - split; [apply Qle_refl|]. split; [|by left].
    intros y Hy. by apply elem_of_nil in Hy.
  - destruct (Qle_bool x y) eqn:E.
    + apply Qle_bool_iff in E.
      destruct (IH x) as (H1 & H2 & H3). split; [done|]. split.
      * intros z Hz. apply elem_of_cons in Hz as [->|Hz]; [|by apply H2].
        by apply Qle_trans with x.
      * destruct H3 as [H3|H3]; [by left|right].
        by apply list_elem_of_further.
    + assert (y <= x).
      { apply Qlt_le_weak, Qnot_le_lt. intros H.
        apply Qle_bool_iff in H. congruence. }
      destruct (IH y) as (H1 & H2 & H3). split; [by apply Qle_trans with y|].
      split.
      * intros z Hz. apply elem_of_cons in Hz as [->|Hz]; [done|by apply H2].
      * right. destruct H3 as [->|H3];
          [apply list_elem_of_here|by apply list_elem_of_further].
Qed.

Lemma last_default_irrelevant {A} (a x y : A) (l : list A) :
  List.last (a :: l) x = List.last (a :: l) y.
Proof.
  revert a. induction l as [|b l IH]; intros a; [done|].
  change (List.last (b :: l) x = List.last (b :: l) y). apply IH.
Qed.

Lemma last_cons_default {A} (x : A) (l : list A) :
  last (x :: l) = Some (List.last l x).
Proof.
  revert x. induction l as [|y l IH]; intros x; [done|].
  change (last (x :: y :: l)) with (last (y :: l)). rewrite IH.
  f_equal. destruct l as [|z l]; [done|].
  change (List.last (z :: l) y = List.last (z :: l) x).
  apply last_default_irrelevant.
Qed.

Lemma generate_candle_is_aggregate (t : timeframe) (w : list Candle) :
  w <> [] ->
  exists c,
    generate_candle_from_one_minutes t w = Some c /\ aggregate_of w c.
Proof.
  destruct w as [|c0 rest]; [done|]. intros _.
  eexists. split; [reflexivity|].
  exists c0, (List.last rest c0). simpl.
  destruct (py_max_spec (map high rest) (high c0)) as (Hx & Hall & Hin).
  destruct (py_min_spec (map low rest) (low c0)) as (Hn & Hnall & Hnin).
  split; [done|]. split; [apply last_cons_default|].
  do 3 (split; [done|]). split; [|split; [|split; [|split]]].
  - intros x Hx'. apply elem_of_cons in Hx' as [->|Hx']; [done|].
    apply Hall. apply list_elem_of_In, in_map, list_elem_of_In, Hx'.
  - destruct Hin as [->|Hin]; [exists c0; split; [apply list_elem_of_here|done]|].
    apply list_elem_of_In, in_map_iff in Hin as (x & Hx1 & Hx2).
    exists x. split; [by apply list_elem_of_further, list_elem_of_In|done].
  - intros x Hx'. apply elem_of_cons in Hx' as [->|Hx']; [done|].
    apply Hnall. apply list_elem_of_In, in_map, list_elem_of_In, Hx'.
  - destruct Hnin as [->|Hnin];
      [exists c0; split; [apply list_elem_of_here|done]|].
    apply list_elem_of_In, in_map_iff in Hnin as (x & Hx1 & Hx2).
    exists x. split; [by apply list_elem_of_further, list_elem_of_In|done].
  - apply (py_sum_sumQ (volume c0 :: map volume rest)).
Qed.

(** The slice taken at minute [i] for a timeframe of [k] minutes, once
    [k] divides [i + 1]: the [k] candles that end at index [i]. *)
Lemma py_slice_window {A} (l : list A) (i : nat) (k : Z) :
  (0 < k)%Z -> (k <= Z.of_nat i + 1)%Z -> (i < length l)%nat ->
  py_slice (Z.of_nat i - (k - 1)) (Z.of_nat i + 1) l
  = take (Z.to_nat k) (drop (i + 1 - Z.to_nat k) l).
Proof.
  intros Hk Hle Hi. unfold py_slice.
  replace (Z.of_nat i - (k - 1) <? 0)%Z with false
    by (symmetry; apply Z.ltb_ge; lia).
  replace (Z.of_nat i + 1 <? 0)%Z with false
    by (symmetry; apply Z.ltb_ge; lia).
  f_equal; [lia|]. f_equal. lia.
Qed.

Lemma divides_le (i : nat) (k : Z) :
  (0 < k)%Z -> ((Z.of_nat i + 1) mod k = 0)%Z -> (k <= Z.of_nat i + 1)%Z.
Proof.
  intros Hk Hm.
  apply Z.mod_divide in Hm; [|lia]. apply Z.divide_pos_le in Hm; lia.
Qed.

Lemma timeframe_to_one_minutes_pos (t : timeframe) :
  (0 < timeframe_to_one_minutes t)%Z.
Proof. by destruct t. Qed.

End Aggregation.

Section BiggerTimeframes.

Context {UserState HP : Type}.

(** What the loop over the timeframes does at minute [i] for a timeframe
    other than 1m. *)
Lemma generate_bigger_timeframe_due
    (i : nat) (cs : CandleSet) (t : timeframe) (s : Store UserState HP) :
  let k := timeframe_to_one_minutes t in
  (i < length (cs_candles cs))%nat ->
  t <> MINUTE_1 ->
  if ((Z.of_nat i + 1) mod k =? 0)%Z then
    exists c,
      generate_bigger_timeframe i cs t s
      = Ok tt
          (set_candle_storage
             (<[series_key (cs_exchange cs) (cs_symbol cs) t :=
                  add_to_series c
                    (get_candles s (cs_exchange cs) (cs_symbol cs) t)]>
                (candle_storage s))
             (set_trace
                (trace s
                 ++ [EvAddCandle (cs_exchange cs) (cs_symbol cs) t c]) s))
      /\ aggregate_of (window cs i k) c
      /\ length (window cs i k) = Z.to_nat k
      /\ (forall j, (j < Z.to_nat k)%nat ->
                    window cs i k !! j
                    = cs_candles cs !! (i + 1 - Z.to_nat k + j)%nat)
  else
    generate_bigger_timeframe i cs t s = Ok tt s.
Proof.
  intros k Hi Ht. unfold generate_bigger_timeframe.
  replace (timeframe_eqb t MINUTE_1) with false by (by destruct t).
  fold k. destruct ((Z.of_nat i + 1) mod k =? 0)%Z eqn:E; [|done].
  apply Z.eqb_eq in E.
  pose proof (timeframe_to_one_minutes_pos t) as Hk. fold k in Hk.
  pose proof (divides_le i k Hk E) as Hle.
  rewrite py_slice_window by done. fold (window cs i k).
  assert (Hlen : length (window cs i k) = Z.to_nat k).
  { unfold window. rewrite length_take, length_drop. lia. }
  destruct (generate_candle_is_aggregate t (window cs i k)) as (c & Hc & Ha).
  { intros Hw. rewrite Hw in Hlen. simpl in Hlen. lia. }
  exists c. rewrite Hc. split; [done|]. split; [done|]. split; [done|].
  intros j Hj. unfold window. rewrite lookup_take_lt by done.
  by rewrite lookup_drop.
Qed.

(** C5.  At minute [i], for a bigger timeframe [t] of [k] minutes: when
    [(i + 1) mod k = 0] the driver adds exactly one candle to the series of
    [t], and that candle is the aggregate of the [k] one-minute candles
    with indices [i - k + 1 .. i] of the symbol (open and timestamp of the
    first, close of the last, greatest high, least low, sum of the
    volumes); otherwise it adds none and leaves the store as it is.  For
    1m itself the loop does nothing: the candle of the minute is the one
    the driver has stored already. *)
Theorem bigger_timeframe_candle_emitted
    (i : nat) (cs : CandleSet) (t : timeframe) (s : Store UserState HP) :
  let k := timeframe_to_one_minutes t in
  (i < length (cs_candles cs))%nat ->
  (t = MINUTE_1 -> generate_bigger_timeframe i cs t s = Ok tt s)
  /\ (t <> MINUTE_1 ->
  if ((Z.of_nat i + 1) mod k =? 0)%Z then
    exists c,
      generate_bigger_timeframe i cs t s
      = Ok tt
          (set_candle_storage
             (<[series_key (cs_exchange cs) (cs_symbol cs) t :=
                  add_to_series c
                    (get_candles s (cs_exchange cs) (cs_symbol cs) t)]>
                (candle_storage s))
             (set_trace
                (trace s
                 ++ [EvAddCandle (cs_exchange cs) (cs_symbol cs) t c]) s))
      /\ aggregate_of (window cs i k) c
      /\ length (window cs i k) = Z.to_nat k
      /\ (forall j, (j < Z.to_nat k)%nat ->
                    window cs i k !! j
                    = cs_candles cs !! (i + 1 - Z.to_nat k + j)%nat)
  else
    generate_bigger_timeframe i cs t s = Ok tt s).
Proof.
  intros k Hi. split.
  - intros ->. reflexivity.
  - intros Ht. by apply generate_bigger_timeframe_due.
Qed.

End BiggerTimeframes.

(** ** The driver *)

Section DriverProperties.

Context {UserState Schema HP : Type}.
Context (X : Externals UserState Schema HP).
Context (config : Config) (routes : list Route).

Abbreviation Store := (Store UserState HP).
Abbreviation M := (M UserState HP).
Abbreviation Ledger := (Ledger UserState).
Abbreviation frame := (@frame UserState HP).
Abbreviation minute_rel := (minute_rel routes).
Abbreviation init_rel := (@init_rel UserState HP).

Lemma bind_ok {A B} (m : M A) (f : A -> M B) (s s' : Store) (b : B) :
  (m ≫= f) s = Ok b s' ->
  exists a s1, m s = Ok a s1 /\ f a s1 = Ok b s'.
Proof.
  unfold mbind, M_bind, bind. destruct (m s) as [a s1| |]; [|done|done].
  intros H. by exists a, s1.
Qed.

Lemma of_option_ok {A} (o : option A) (e : Exception) (s s' : Store)
    (a : A) :
  (of_option o e : M A) s = Ok a s' -> o = Some a /\ s' = s.
Proof. destruct o; simpl; [|done]. by intros [= -> ->]. Qed.

(** A loop whose body changes a measure of the store in a known way. *)
Lemma for_each_ok_fold {A B} (l : list A) (body : A -> M unit)
    (mu : Store -> B) (step : B -> A -> B) :
  (forall x s s', x ∈ l -> body x s = Ok tt s' -> mu s' = step (mu s) x) ->
  forall s s',
    for_each l body s = Ok tt s' -> mu s' = fold_left step l (mu s).
Proof.
  induction l as [|x l IH]; intros Hbody s s'; simpl.
  - by intros [= ->].
  - intros H. apply bind_ok in H as ([] & s1 & H1 & H2).
    apply IH in H2; [|intros; eapply Hbody; eauto using list_elem_of_further].
    rewrite H2. f_equal. eapply Hbody; [apply list_elem_of_here|done].
Qed.

(** *** Events of a minute *)

Lemma executions_app (a b : list Event) :
  executions (a ++ b) = executions a ++ executions b.
Proof. unfold executions. by rewrite flat_map_app. Qed.

Lemma executions_none (evs : list Event) :
  Forall not_strategy_execute evs -> executions evs = [].
Proof.
  induction 1 as [|e evs He _ IH]; [done|].
  unfold executions in *. simpl. rewrite IH. by destruct e.
Qed.

Lemma frame_executions (s s' : Store) :
  frame not_strategy_execute s s' ->
  executions (trace s') = executions (trace s).
Proof.
  intros (_ & _ & _ & _ & _ & evs & -> & Hevs).
  by rewrite executions_app, (executions_none evs), app_nil_r.
Qed.

Lemma frame_generate_bigger_timeframe (i : nat) (cs : CandleSet)
    (t : timeframe) :
  post (generate_bigger_timeframe i cs t : M unit)
       (frame not_strategy_execute).
Proof.
  unfold generate_bigger_timeframe.
  destruct (timeframe_eqb t MINUTE_1); [apply post_ret, _|].
  destruct (_ =? 0)%Z; [|apply post_ret, _].
  apply post_bind; [apply _|apply post_of_option, _|].
  intros c. by apply frame_add_candle.
Qed.

Lemma frame_add_candles (fuel : Ledger -> nat) (i : nat)
    (j : string * CandleSet) :
  post (add_candles X config fuel i j) (frame not_strategy_execute).
Proof.
  unfold add_candles.
  apply post_bind; [apply _|apply post_of_option, _|]. intros c.
  apply post_bind; [apply _|by apply frame_add_candle|]. intros _.
  apply post_bind; [apply _| |].
  - eapply post_frame_mono; [|apply frame_simulate_price_change_effect].
    by intros [].
  - intros _. apply post_for_each; [apply _|].
    intros t _. apply frame_generate_bigger_timeframe.
Qed.

(** *** Dispatch of the strategies *)

Lemma execute_route_due (i : nat) (ir : nat * Route) :
  execute_route X i ir
  = if due i (snd ir) then strategy_execute X i (fst ir) (snd ir)
    else mret tt.
Proof.
  unfold execute_route, due.
  destruct (timeframe_eqb (r_timeframe (snd ir)) MINUTE_1) eqn:E; [|done].
  destruct (r_timeframe (snd ir)); try done.
  simpl timeframe_to_one_minutes. by rewrite Z.mod_1_r.
Qed.

Lemma execute_routes_total (i : nat) (rs : list (nat * Route)) :
  forall s : Store,
    exists s',
      for_each rs (execute_route X i) s = Ok tt s'
      /\ trace s'
         = trace s ++ map (fun ir => EvStrategyExecute ir.1 ir.2)
                        (due_routes i rs)
      /\ daily_balance s' = daily_balance s
      /\ candle_storage s' = candle_storage s
      /\ strategies s' = strategies s
      /\ app_time s' = app_time s
      /\ stdout s' = stdout s.
Proof.
  induction rs as [|ir rs IH]; intros s; simpl.
  - exists s. by rewrite app_nil_r.
  - unfold mbind, M_bind, bind. rewrite execute_route_due.
    unfold due_routes. simpl. destruct (due i (snd ir)).
    + unfold strategy_execute. unfold_monad. simpl.
      match goal with |- context [for_each rs _ ?s0] =>
        destruct (IH s0) as (s' & -> & Ht & Hd & Hc & Hs & Ha & Ho) end.
      exists s'. split; [done|]. simpl in *.
      rewrite Ht, <- app_assoc. done.
    + simpl. apply IH.
Qed.

(** *** One minute *)

Lemma minute_ok (fuel : Ledger -> nat) (candles : list (string * CandleSet))
    (first_candles_set : list Candle) (i : nat) (s s' : Store) :
  minute X config routes fuel candles first_candles_set i s = Ok tt s' ->
  minute_rel i s s'.
Proof.
  unfold minute. intros H.
  apply bind_ok in H as (c & s1 & H1 & H).
  apply of_option_ok in H1 as [_ ->].
  apply bind_ok in H as ([] & s2 & H2 & H). injection H2 as <-.
  apply bind_ok in H as ([] & s3 & H3 & H).
  apply (post_ok _ (frame not_strategy_execute)) in H3;
    [|apply post_for_each; [apply _|intros; apply frame_add_candles]].
  apply bind_ok in H as ([] & s4 & H4 & H).
  destruct (execute_routes_total i (enumerate routes) s3)
    as (s4' & E & Ht & Hd & _ & Hs & _ & Ho).
  rewrite E in H4. injection H4 as ->.
  apply bind_ok in H as ([] & s5 & H5 & H). injection H5 as <-.
  apply bind_ok in H as ([] & s6 & H6 & H). injection H6 as <-.
  pose proof (frame_executions _ _ H3) as Hex.
  destruct H3 as (Hd3 & Hs3 & _ & Ho3 & _).
  fold (snapshot_due i) in H.
  assert (Hexec : executions (trace s4)
                  = executions (trace s) ++ due_routes i (enumerate routes)).
  { rewrite Ht, executions_app, Hex. simpl. f_equal.
    generalize (due_routes i (enumerate routes)). clear.
    induction l as [|[a b] l IH]; [done|]. simpl. by f_equal. }
  unfold minute_rel. destruct (snapshot_due i).
  - injection H as <-. repeat split; simpl.
    + rewrite executions_app, Hexec. simpl. by rewrite app_nil_r.
    + rewrite length_app, Hd, Hd3. simpl. lia.
    + by rewrite Hs, Hs3.
    + by rewrite Ho, Ho3.
  - injection H as <-. repeat split; simpl.
    + rewrite executions_app, Hexec. simpl. by rewrite app_nil_r.
    + rewrite Hd, Hd3. simpl. lia.
    + by rewrite Hs, Hs3.
    + by rewrite Ho, Ho3.
Qed.

(** *** The whole run *)

Lemma count_snapshots (N : nat) :
  length (List.filter snapshot_due (seq 0 N)) = ((N - 1) / 1440)%nat.
Proof.
  induction N as [|N IH]; [done|].
  rewrite seq_S, List.filter_app, length_app, IH. clear IH.
  cbn [List.filter Nat.add].
  replace (S N - 1)%nat with N by lia.
  destruct N as [|N]; [done|].
  replace (S N - 1)%nat with N by lia.
  unfold snapshot_due.
  pose proof (Nat.div_mod_eq (S N) 1440) as Hdm.
  pose proof (Nat.mod_upper_bound (S N) 1440 ltac:(lia)) as Hr.
  change 1440%Z with (Z.of_nat 1440). rewrite <- Nat2Z.inj_mod.
  generalize dependent (S N mod 1440)%nat.
  generalize dependent (S N / 1440)%nat.
  intros q r Hdm Hr.
  destruct (Z.eqb_spec (Z.of_nat (S N)) 0); [lia|].
  destruct (Z.eqb_spec (Z.of_nat r) 0); cbn [negb andb length].
  - assert (N / 1440 = q - 1)%nat as ->; [|lia].
    symmetry. apply (Nat.div_unique _ _ _ 1439); lia.
  - assert (N / 1440 = q)%nat as ->; [|lia].
    symmetry. apply (Nat.div_unique _ _ _ (r - 1)); lia.
Qed.

#[local] Instance init_rel_preorder : PreOrder init_rel.
Proof.
  split.
  - by intros s.
  - intros s1 s2 s3 (? & ? & ? & ?) (? & ? & ? & ?).
    repeat split; congruence.
Qed.

Lemma post_initiate_strategies (rs : list (nat * Route))
    (hyper_parameters : option HP) :
  post (initiate_strategies X rs hyper_parameters) init_rel.
Proof.
  revert hyper_parameters. induction rs as [|[index r] rs IH];
    intros hyper_parameters; [apply post_ret, _|].
  cbn [initiate_strategies].
  apply post_bind; [apply _|by intros s|]. intros _.
  apply post_bind; [apply _|by intros s|]. intros _.
  apply post_bind; [apply _| |].
  { match goal with |- post (match ?x with _ => _ end) _ => destruct x end;
      [by intros s|apply post_ret, _]. }
  intros _. apply post_bind; [apply _| |intros _; apply IH].
  intros s. unfold update_position. by destruct (assoc_get _ _).
Qed.

Lemma post_terminate_routes (rs : list (nat * Route)) :
  post (for_each rs (terminate_route X)) (frame not_strategy_execute).
Proof.
  apply post_for_each; [apply _|]. intros ir _. unfold terminate_route.
  apply post_bind; [apply _|by apply frame_emit|]. intros _.
  apply frame_callback.
Qed.

Lemma fold_left_app_flat_map {A B} (f : A -> list B) (l : list A)
    (acc : list B) :
  fold_left (fun acc x => acc ++ f x) l acc = acc ++ flat_map f l.
Proof.
  revert acc. induction l as [|x l IH]; intros acc; simpl.
  - by rewrite app_nil_r.
  - by rewrite IH, app_assoc.
Qed.

Lemma fold_left_count {A} (p : A -> bool) (l : list A) (n : nat) :
  fold_left (fun n x => n + if p x then 1 else 0)%nat l n
  = (n + length (List.filter p l))%nat.
Proof.
  revert n. induction l as [|x l IH]; intros n; simpl; [lia|].
  rewrite IH. destruct (p x); simpl; lia.
Qed.

(** What a completed run has added to the executions and to the daily
    balances, where [N] is the number of candles of the trading route. *)
Lemma simulator_ok (fuel : Ledger -> nat) (clock : Q * Q)
    (candles : list (string * CandleSet)) (hyper_parameters : option HP)
    (s s' : Store) :
  simulator X config routes fuel clock candles hyper_parameters s
  = Ok tt s' ->
  exists exchange symbol entry,
    trading_exchanges config !! 0%nat = Some exchange
    /\ trading_symbols config !! 0%nat = Some symbol
    /\ assoc_get (key exchange symbol) candles = Some entry
    /\ cs_candles entry <> []
    /\ executions (trace s')
       = executions (trace s)
         ++ flat_map (fun i => due_routes i (enumerate routes))
              (seq 0 (length (cs_candles entry)))
    /\ length (daily_balance s')
       = (length (daily_balance s)
          + ((length (cs_candles entry) - 1) / 1440 + 2))%nat.
Proof.
  unfold simulator. intros H.
  apply bind_ok in H as (exchange & s1 & H1 & H).
  apply of_option_ok in H1 as [Hex ->].
  apply bind_ok in H as (symbol & s1 & H1 & H).
  apply of_option_ok in H1 as [Hsym ->].
  apply bind_ok in H as (entry & s1 & H1 & H).
  apply of_option_ok in H1 as [Hentry ->].
  apply bind_ok in H as (first & s1 & H1 & H).
  apply of_option_ok in H1 as [Hfirst ->].
  apply bind_ok in H as ([] & s1 & H1 & H). injection H1 as <-.
  apply bind_ok in H as ([] & s2 & H2 & H).
  apply (post_ok _ _ _ _ _ (post_initiate_strategies _ _)) in H2.
  destruct H2 as (Hd2 & Ht2 & Ho2 & _). simpl in Hd2, Ht2, Ho2.
  apply bind_ok in H as ([] & s3 & H3 & H). injection H3 as <-.
  apply bind_ok in H as ([] & s4 & H4 & H).
  pose proof (for_each_ok_fold _ _ (fun s => executions (trace s))
                (fun acc i => acc ++ due_routes i (enumerate routes))
                (fun i s s' _ E => proj1 (minute_ok _ _ _ _ _ _ E))
                _ _ H4) as He4.
  pose proof (for_each_ok_fold _ _ (fun s => length (daily_balance s))
                (fun n i => n + if snapshot_due i then 1 else 0)%nat
                (fun i s s' _ E => proj1 (proj2 (minute_ok _ _ _ _ _ _ E)))
                _ _ H4) as Hd4.
  simpl in He4, Hd4.
  rewrite fold_left_app_flat_map in He4.
  rewrite fold_left_count, count_snapshots, length_app in Hd4.
  apply bind_ok in H as ([] & s5 & H5 & H).
  assert (Hframe5 : trace s5 = trace s4
                    /\ daily_balance s5 = daily_balance s4).
  { by destruct (should_execute_silently config);
      cbv [negb modify mret M_ret ret] in H5; injection H5 as <-. }
  destruct Hframe5 as [Ht5 Hd5].
  apply bind_ok in H as ([] & s6 & H6 & H).
  apply (post_ok _ _ _ _ _ (post_terminate_routes _)) in H6.
  injection H as <-.
  exists exchange, symbol, entry. repeat split; try done.
  - intros Hnil. by rewrite Hnil in Hfirst.
  - simpl. rewrite (frame_executions _ _ H6), Ht5.
    by rewrite He4, Ht2.
  - simpl. destruct H6 as (Hd6 & _).
    rewrite length_app, Hd6, Hd5, Hd4, Hd2. simpl. lia.
Qed.

Lemma elem_of_enumerate_from {A} (l : list A) :
  forall k n x,
    (n, x) ∈ enumerate_from k l <-> (k <= n)%nat /\ l !! (n - k)%nat = Some x.
Proof.
  induction l as [|y l IH]; intros k n x; simpl.
  - split; [intros H; by apply elem_of_nil in H|by intros [_ ?]].
  - rewrite elem_of_cons, IH. split.
    + intros [[= -> ->]|[Hle Hl]].
      * rewrite Nat.sub_diag. by split.
      * split; [lia|]. by replace (n - k)%nat with (S (n - S k)) by lia.
    + intros [Hle Hl]. destruct (decide (n = k)) as [->|Hne].
      * left. rewrite Nat.sub_diag in Hl. by injection Hl as ->.
      * right. split; [lia|].
        by replace (n - k)%nat with (S (n - S k)) in Hl by lia.
Qed.

Lemma elem_of_due_routes (i j index : nat) :
  (j, index) ∈ due_routes i (enumerate routes)
  <-> j = i /\ exists r, routes !! index = Some r /\ due i r = true.
Proof.
  unfold due_routes.
  rewrite list_elem_of_In, in_map_iff. split.
  - intros ([n r] & [= <- <-] & Hin).
    apply filter_In in Hin as [Hin Hdue].
    apply list_elem_of_In, elem_of_enumerate_from in Hin as [_ Hl].
    rewrite Nat.sub_0_r in Hl. split; [done|]. by exists r.
  - intros [-> (r & Hl & Hdue)]. exists (index, r). split; [done|].
    apply filter_In. split; [|done].
    apply list_elem_of_In, elem_of_enumerate_from.
    rewrite Nat.sub_0_r. split; [lia|done].
Qed.

Lemma NoDup_enumerate_from {A} (l : list A) (k : nat) :
  NoDup (map fst (enumerate_from k l)).
Proof.
  revert k. induction l as [|x l IH]; intros k; simpl; constructor.
  - intros Hin. apply list_elem_of_In, in_map_iff in Hin as ([n y] & Hn & Hin).
    simpl in Hn. subst n.
    apply list_elem_of_In, elem_of_enumerate_from in Hin as [Hle _]. lia.
  - apply IH.
Qed.

Lemma NoDup_due_routes (i : nat) : NoDup (due_routes i (enumerate routes)).
Proof.
  unfold due_routes, enumerate.
  pose proof (NoDup_enumerate_from routes 0) as Hnd.
  induction (enumerate_from 0 routes) as [|[n r] l IH]; simpl;
    [constructor|].
  inversion Hnd as [|? ? Hn Hnd']; subst.
  destruct (due i r); simpl; [|by apply IH].
  constructor; [|by apply IH].
  intros Hin. apply Hn.
  apply list_elem_of_In, in_map_iff in Hin as ([n' r'] & [= <-] & Hin).
  apply filter_In in Hin as [Hin _].
  apply list_elem_of_In, in_map_iff. by exists (n', r').
Qed.

End DriverProperties.

(** ** Runs that complete *)

Section TotalRun.

Context {UserState Schema HP : Type}.
Context (X : Externals UserState Schema HP).
Context (config : Config) (routes : list Route).

Abbreviation Store := (Store UserState HP).
Abbreviation M := (M UserState HP).
Abbreviation Ledger := (Ledger UserState).
Abbreviation strategy_callback := (strategy_callback X).
Abbreviation positions_kept := (positions_kept X).
Abbreviation book_invariant := (book_invariant X).
Abbreviation fills_progress := (fills_progress X).
Abbreviation needed_positions := (needed_positions routes).
Abbreviation candles_ok := (candles_ok config).

Context (Inv : gmap string (list Order) -> Prop).
Context (mu : gmap string (list Order) -> nat).
Context (K : list string).

Abbreviation has_positions := (@has_positions UserState K).
Abbreviation well_kept := (@well_kept UserState HP Inv K).

Context (Hpositions : positions_kept).
Context (Hbook : book_invariant Inv).
Context (Hfills : fills_progress Inv mu).

Lemma assoc_alter_is_Some {A} (f : A -> A) (k k' : string)
    (l : list (string * A)) :
  is_Some (assoc_get k l) -> is_Some (assoc_get k (assoc_alter f k' l)).
Proof.
  intros [a Ha]. rewrite assoc_get_alter, Ha.
  destruct (String.eqb k k'); by eexists.
Qed.

Lemma total_emit (e : Event) : total well_kept (emit e).
Proof. by apply total_modify. Qed.

Lemma total_add_candle (c : Candle) (exchange symbol : string)
    (t : timeframe) :
  total well_kept (add_candle c exchange symbol t : M unit).
Proof.
  unfold add_candle. apply total_bind; [apply total_emit|].
  intros _. by apply total_modify.
Qed.

Lemma total_update_position (f : Position -> Position)
    (exchange symbol : string) :
  key exchange symbol ∈ K ->
  total well_kept (update_position f exchange symbol : M unit).
Proof.
  intros Hk s [Hp Hi]. unfold update_position.
  destruct (Hp _ Hk) as [p ->]. eexists tt, _. split; [done|].
  split; [|done]. intros k Hin. simpl. by apply assoc_alter_is_Some, Hp.
Qed.

Lemma total_callback (f : View HP -> Ledger -> Ledger) :
  strategy_callback f -> total well_kept (callback f).
Proof.
  intros Hf. apply total_modify. intros s [Hp Hi]. split; simpl.
  - intros k Hk. by apply Hpositions, Hp.
  - by apply Hbook.
Qed.

(** The loop of the engine ends within [n] iterations when the measure of
    the book is below [n]. *)
Lemma price_change_loop_total (real_candle : Candle)
    (exchange symbol : string) (n : nat) :
  key exchange symbol ∈ K ->
  forall temp flag s,
    well_kept s -> (mu (orders (ledger s)) < n)%nat ->
    exists s',
      price_change_loop X n real_candle exchange symbol
        (key exchange symbol) temp flag s = Ok tt s'
      /\ well_kept s'.
Proof.
  intros Hk. induction n as [|n IH]; intros temp flag s [Hp Hi] Hmu; [lia|].
  destruct (Hp _ Hk) as [p Hpos].
  destruct (for_orders_flag temp
              (orders_at (ledger s) (key exchange symbol)) flag)
    as [Hnone|(index & order & Hhit)].
  - rewrite (price_change_loop_exit X _ _ _ _ _ _ _ p Hpos Hnone).
    eexists. split; [done|]. split; [|done].
    intros k Hin. simpl. by apply assoc_alter_is_Some, Hp.
  - rewrite (price_change_loop_step X _ _ _ _ _ _ _ _ p _ _ Hpos Hhit).
    apply for_orders_hit in Hhit as (_ & Hl & Ha & _).
    apply IH.
    + split.
      * intros k Hin. unfold fill_step. simpl.
        apply (proj1 Hpositions). simpl.
        by apply assoc_alter_is_Some, Hp.
      * unfold fill_step. simpl. by eapply Hfills.
    + unfold fill_step. simpl.
      match goal with |- (mu (orders (order_execute X _ _ _ _ ?v ?l)) < n)%nat =>
        destruct (Hfills exchange symbol index order v l Hi Hl Ha)
          as [_ Hlt] end.
      simpl in Hlt. lia.
Qed.

Lemma simulate_price_change_effect_total (real_candle : Candle)
    (exchange symbol : string) :
  key exchange symbol ∈ K ->
  total well_kept
    (_simulate_price_change_effect X (fun l => S (mu (orders l)))
       real_candle exchange symbol).
Proof.
  intros Hk s Hs. unfold _simulate_price_change_effect, get_orders.
  unfold mbind, M_bind, bind, mret, M_ret, ret, emit, modify, get.
  destruct (price_change_loop_total real_candle exchange symbol
              (S (mu (orders (ledger s)))) Hk real_candle false
              (set_trace (trace s ++ [EvGetOrders exchange symbol]) s))
    as (s' & E & Hs'); [done|simpl; lia|].
  exists tt, s'. by split.
Qed.

Lemma total_generate_bigger_timeframe (i : nat) (cs : CandleSet)
    (t : timeframe) :
  (i < length (cs_candles cs))%nat ->
  total well_kept (generate_bigger_timeframe i cs t : M unit).
Proof.
  intros Hi s Hs.
  destruct (timeframe_eqb t MINUTE_1) eqn:Et.
  - unfold generate_bigger_timeframe. rewrite Et. by exists tt, s.
  - assert (Hne : t <> MINUTE_1) by (intros ->; done).
    pose proof (generate_bigger_timeframe_due i cs t s Hi Hne) as H.
    simpl in H. destruct (_ =? 0)%Z.
    + destruct H as (c & -> & _). eexists tt, _. split; [done|].
      by destruct Hs.
    + rewrite H. by exists tt, s.
Qed.

Lemma total_add_candles (i : nat) (j : string * CandleSet) :
  (i < length (cs_candles (snd j)))%nat ->
  key (cs_exchange (snd j)) (cs_symbol (snd j)) ∈ K ->
  total well_kept
    (add_candles X config (fun l => S (mu (orders l))) i j).
Proof.
  intros Hi Hk. unfold add_candles.
  apply total_bind; [by apply total_of_option, lookup_lt_is_Some|].
  intros c. apply total_bind; [apply total_add_candle|]. intros _.
  apply total_bind; [by apply simulate_price_change_effect_total|].
  intros _. apply total_for_each. intros t _.
  by apply total_generate_bigger_timeframe.
Qed.

Lemma total_execute_route (i : nat) (ir : nat * Route) :
  total well_kept (execute_route X i ir).
Proof.
  rewrite execute_route_due. destruct (due i (snd ir)); [|apply total_ret].
  unfold strategy_execute. apply total_bind; [apply total_emit|].
  intros _. apply total_callback. right. left. eauto.
Qed.

Lemma total_save_daily_portfolio_balance :
  total well_kept (_save_daily_portfolio_balance : M unit).
Proof. by apply total_modify. Qed.

Lemma total_minute (candles : list (string * CandleSet))
    (first_candles_set : list Candle) (i : nat) :
  (i < length first_candles_set)%nat ->
  (forall j, j ∈ candles ->
     (length first_candles_set <= length (cs_candles (snd j)))%nat
     /\ key (cs_exchange (snd j)) (cs_symbol (snd j)) ∈ K) ->
  total well_kept
    (minute X config routes (fun l => S (mu (orders l))) candles
       first_candles_set i).
Proof.
  intros Hi Hc. unfold minute.
  apply total_bind; [by apply total_of_option, lookup_lt_is_Some|].
  intros c. apply total_bind; [by apply total_modify|]. intros _.
  apply total_bind.
  { apply total_for_each. intros j Hj. destruct (Hc j Hj).
    apply total_add_candles; [lia|done]. }
  intros _. apply total_bind.
  { apply total_for_each. intros ir _. apply total_execute_route. }
  intros _. apply total_bind; [apply total_emit|]. intros _.
  apply total_bind; [apply total_callback; by repeat right|]. intros _.
  destruct (_ && _);
    [apply total_save_daily_portfolio_balance|apply total_ret].
Qed.

Lemma total_initiate_strategies (rs : list (nat * Route))
    (hyper_parameters : option HP) :
  (forall ir, ir ∈ rs ->
     key (r_exchange (snd ir)) (r_symbol (snd ir)) ∈ K) ->
  total well_kept (initiate_strategies X rs hyper_parameters).
Proof.
  revert hyper_parameters.
  induction rs as [|[index r] rs IH]; intros hyper_parameters Hrs;
    [apply total_ret|].
  cbn [initiate_strategies].
  apply total_bind; [by apply total_modify|]. intros _.
  apply total_bind; [apply total_callback; left; eauto|]. intros _.
  apply total_bind.
  { match goal with |- total _ (match ?x with _ => _ end) => destruct x end;
      [by apply total_modify|apply total_ret]. }
  intros _. apply total_bind.
  { apply total_update_position. apply (Hrs (index, r)), list_elem_of_here. }
  intros _. apply IH. intros ir Hir. by apply Hrs, list_elem_of_further.
Qed.

Lemma elem_of_enumerate {A} (l : list A) (ir : nat * A) :
  ir ∈ enumerate l -> snd ir ∈ l.
Proof.
  destruct ir as [n x]. intros Hin.
  apply elem_of_enumerate_from in Hin as [_ Hl].
  by apply list_elem_of_lookup_2 in Hl.
Qed.

Lemma bind_of_option {A B} (o : option A) (e : Exception) (f : A -> M B)
    (s : Store) (a : A) :
  o = Some a -> ((of_option o e : M A) ≫= f) s = f a s.
Proof. by intros ->. Qed.

(** A run on well-formed inputs whose fills make progress completes. *)
Lemma simulator_total (clock : Q * Q) (candles : list (string * CandleSet))
    (hyper_parameters : option HP) (N : nat) :
  candles_ok candles N -> (0 < N)%nat ->
  (forall k, k ∈ needed_positions candles -> k ∈ K) ->
  total well_kept
    (simulator X config routes (fun l => S (mu (orders l))) clock candles
       hyper_parameters).
Proof.
  intros (exchange & symbol & entry & He & Hs & Hen & Hlen & Hall) HN HK.
  intros s Hs0. unfold simulator.
  rewrite (bind_of_option _ _ _ _ _ He). cbv beta.
  rewrite (bind_of_option _ _ _ _ _ Hs). cbv beta zeta.
  rewrite (bind_of_option _ _ _ _ _ Hen). cbv beta zeta.
  destruct (lookup_lt_is_Some_2 (cs_candles entry) 0%nat) as [first Hfirst];
    [lia|].
  rewrite (bind_of_option _ _ _ _ _ Hfirst). cbv beta.
  revert s Hs0.
  refine (total_bind well_kept _ _ _ _).
  { by apply total_modify. }
  intros _. apply total_bind.
  { apply total_initiate_strategies. intros ir Hir. apply HK.
    unfold needed_positions. apply elem_of_app. right.
    apply list_elem_of_In.
    apply (in_map (fun r => key (r_exchange r) (r_symbol r))).
    by apply list_elem_of_In, elem_of_enumerate. }
  intros _. apply total_bind; [apply total_save_daily_portfolio_balance|].
  intros _. apply total_bind.
  { apply total_for_each. intros i Hi.
    apply list_elem_of_In, in_seq in Hi. apply total_minute; [lia|].
    intros j Hj. split; [rewrite Hlen; by apply Hall|].
    apply HK. unfold needed_positions. apply elem_of_app. left.
    apply list_elem_of_In.
    apply (in_map (fun j => key (cs_exchange (snd j)) (cs_symbol (snd j)))).
    by apply list_elem_of_In. }
  intros _. apply total_bind.
  { destruct (negb _); [by apply total_modify|apply total_ret]. }
  intros _. apply total_bind.
  { apply total_for_each. intros ir _. unfold terminate_route.
    apply total_bind; [apply total_emit|]. intros _.
    apply total_callback. right. right. left. eauto. }
  intros _. apply total_save_daily_portfolio_balance.
Qed.

End TotalRun.

(** ** The executions of the strategies *)

Section Executions.

Context {UserState Schema HP : Type}.
Context (X : Externals UserState Schema HP).
Context (config : Config) (routes : list Route).

Abbreviation Store := (Store UserState HP).
Abbreviation M := (M UserState HP).
Abbreviation Ledger := (Ledger UserState).

(** The loop over the routes at minute [i] returns, and it leaves the
    store that the executions of the due routes make of the one it
    found. *)
Lemma execute_routes_due_executed (i : nat) (rs : list (nat * Route)) :
  forall s : Store,
    for_each rs (execute_route X i) s = Ok tt (due_executed X i rs s).
Proof.
  induction rs as [|ir rs IH]; intros s; [done|].
  simpl. unfold mbind, M_bind, bind. rewrite execute_route_due.
  unfold due_executed. simpl. destruct (due i (snd ir)).
  - unfold strategy_execute. unfold_monad. simpl. apply IH.
  - simpl. apply IH.
Qed.

Lemma executions_of_events (l : list (nat * nat)) :
  executions (map (fun ir => EvStrategyExecute ir.1 ir.2) l) = l.
Proof.
  induction l as [|[a b] l IH]; [done|].
  unfold executions in *. simpl. by f_equal.
Qed.

Lemma executions_due_executed (i : nat) (rs : list (nat * Route))
    (s : Store) :
  executions (trace (due_executed X i rs s))
  = executions (trace s) ++ due_routes i rs.
Proof.
  destruct (execute_routes_total X i rs s) as (s' & E & Ht & _).
  rewrite execute_routes_due_executed in E. injection E as <-.
  by rewrite Ht, executions_app, executions_of_events.
Qed.

Section Observed.

Context {B : Type} (obs : Ledger -> B) (step : B -> nat -> B).
Context (Hmoves : only_execute_moves X obs step).

Abbreviation observed := (@observed UserState HP B obs step).

#[local] Instance observed_preorder : PreOrder observed.
Proof.
  split.
  - intros s. exists []. by rewrite app_nil_r.
  - intros s1 s2 s3 (e1 & Ht1 & Ho1) (e2 & Ht2 & Ho2). exists (e1 ++ e2).
    split; [by rewrite Ht2, Ht1, app_assoc|].
    by rewrite Ho2, Ho1, executions_app, map_app, fold_left_app.
Qed.

Lemma observed_same (s s' : Store) :
  trace s' = trace s -> obs (ledger s') = obs (ledger s) -> observed s s'.
Proof. intros Ht Ho. exists []. by rewrite app_nil_r. Qed.

Lemma observed_emit (e : Event) :
  not_strategy_execute e -> post (emit e : M unit) observed.
Proof. intros He s. exists [e]. split; [done|]. by destruct e. Qed.

Lemma observed_callback f :
  (forall v l, obs (f v l) = obs l) -> post (callback f : M unit) observed.
Proof. intros Hf s. apply observed_same; [done|]. simpl. apply Hf. Qed.

Lemma observed_add_candle (c : Candle) (exchange symbol : string)
    (t : timeframe) :
  post (add_candle c exchange symbol t : M unit) observed.
Proof.
  unfold add_candle.
  apply post_bind; [apply _|by apply observed_emit|]. intros _ s.
  by apply observed_same.
Qed.

Lemma observed_update_position (f : Position -> Position)
    (exchange symbol : string) :
  post (update_position f exchange symbol : M unit) observed.
Proof.
  intros s. unfold update_position.
  destruct (assoc_get _ _); [|reflexivity].
  apply observed_same; [done|]. simpl. apply Hmoves.
Qed.

Lemma observed_price_change_loop (fuel : nat) (real_candle : Candle)
    (exchange symbol handle : string) :
  forall temp flag,
    post (price_change_loop X fuel real_candle exchange symbol handle
            temp flag)
         observed.
Proof.
  induction fuel as [|fuel IH]; intros temp flag; [by intros s|].
  cbn [price_change_loop].
  apply post_bind; [apply _|by intros s; simpl|].
  intros os. destruct (for_orders temp os flag) as [b [[index order]|]].
  - destruct (split_candle X temp (o_price order)) as [storable rest].
    apply post_bind; [apply _|apply observed_add_candle|]. intros _.
    apply post_bind; [apply _|apply observed_update_position|]. intros _.
    apply post_bind; [apply _|by apply observed_emit|]. intros _.
    apply post_bind; [apply _|apply observed_callback, Hmoves|]. intros _.
    apply IH.
  - destruct b; simpl; [apply IH|].
    apply post_bind; [apply _|apply observed_add_candle|]. intros _.
    apply observed_update_position.
Qed.

Lemma observed_strategy_execute (i index : nat) (r : Route) :
  post (strategy_execute X i index r) observed.
Proof.
  intros s. unfold strategy_execute. unfold_monad. simpl.
  exists [EvStrategyExecute i index]. split; [done|]. simpl.
  apply Hmoves.
Qed.

Lemma observed_snapshot :
  post (_save_daily_portfolio_balance : M unit) observed.
Proof. intros s. by apply observed_same. Qed.

Lemma observed_initiate_strategies (rs : list (nat * Route))
    (hyper_parameters : option HP) :
  post (initiate_strategies X rs hyper_parameters) observed.
Proof.
  revert hyper_parameters. induction rs as [|[index r] rs IH];
    intros hyper_parameters; [apply post_ret, _|].
  cbn [initiate_strategies].
  apply post_bind; [apply _|by intros s; apply observed_same|]. intros _.
  apply post_bind; [apply _|apply observed_callback, Hmoves|]. intros _.
  apply post_bind; [apply _| |].
  { match goal with |- post (match ?x with _ => _ end) _ => destruct x end;
      [by intros s; apply observed_same|apply post_ret, _]. }
  intros _. apply post_bind; [apply _|apply observed_update_position|].
  intros _. apply IH.
Qed.

Lemma observed_minute (fuel : Ledger -> nat)
    (candles : list (string * CandleSet))
    (first_candles_set : list Candle) (i : nat) :
  post (minute X config routes fuel candles first_candles_set i) observed.
Proof.
  unfold minute.
  apply post_bind; [apply _|apply post_of_option, _|]. intros c.
  apply post_bind; [apply _|by intros s; apply observed_same|]. intros _.
  apply post_bind; [apply _| |].
  { apply post_for_each; [apply _|]. intros j _. unfold add_candles.
    apply post_bind; [apply _|apply post_of_option, _|]. intros sc.
    apply post_bind; [apply _|apply observed_add_candle|]. intros _.
    apply post_bind; [apply _| |].
    { unfold _simulate_price_change_effect, get_orders.
      apply post_bind; [apply _| |].
      - apply post_bind; [apply _|by apply observed_emit|].
        intros _. apply post_ret, _.
      - intros h. apply post_bind; [apply _|apply post_get, _|].
        intros s. apply observed_price_change_loop. }
    intros _. apply post_for_each; [apply _|]. intros t _.
    unfold generate_bigger_timeframe.
    destruct (timeframe_eqb t MINUTE_1); [apply post_ret, _|].
    destruct (_ =? 0)%Z; [|apply post_ret, _].
    apply post_bind; [apply _|apply post_of_option, _|].
    intros g. apply observed_add_candle. }
  intros _. apply post_bind; [apply _| |].
  { apply post_for_each; [apply _|]. intros ir _.
    rewrite execute_route_due. destruct (due i (snd ir));
      [apply observed_strategy_execute|apply post_ret, _]. }
  intros _. apply post_bind; [apply _|by apply observed_emit|]. intros _.
  apply post_bind; [apply _|apply observed_callback, Hmoves|].
  intros _. destruct (_ && _); [apply observed_snapshot|apply post_ret, _].
Qed.

Lemma observed_simulator (fuel : Ledger -> nat) (clock : Q * Q)
    (candles : list (string * CandleSet)) (hyper_parameters : option HP) :
  post (simulator X config routes fuel clock candles hyper_parameters)
       observed.
Proof.
  unfold simulator.
  apply post_bind; [apply _|apply post_of_option, _|]. intros exchange.
  apply post_bind; [apply _|apply post_of_option, _|]. intros symbol.
  apply post_bind; [apply _|apply post_of_option, _|]. intros entry.
  apply post_bind; [apply _|apply post_of_option, _|]. intros first.
  apply post_bind; [apply _|by intros s; apply observed_same|]. intros _.
  apply post_bind; [apply _|apply observed_initiate_strategies|]. intros _.
  apply post_bind; [apply _|apply observed_snapshot|]. intros _.
  apply post_bind; [apply _| |].
  { apply post_for_each; [apply _|]. intros i _. apply observed_minute. }
  intros _. apply post_bind; [apply _| |].
  { destruct (negb _); [by intros s; apply observed_same|apply post_ret, _]. }
  intros _. apply post_bind; [apply _| |].
  { apply post_for_each; [apply _|]. intros ir _. unfold terminate_route.
    apply post_bind; [apply _|by apply observed_emit|]. intros _.
    apply observed_callback, Hmoves. }
  intros _. apply observed_snapshot.
Qed.

End Observed.

(** C6.  In every minute [i] the loop over the routes runs, in the order
    of the router, the [_execute] of exactly the routes with
    [(i + 1) mod minutes (timeframe) = 0], each once, and of no other: a 1m
    route is among them in every minute.  Each of these calls acts on the
    ledger: the store the loop leaves is the one that the callbacks of the
    due routes, one after the other, make of the store it found.  A
    backtest over [N >= 1] candles, on well-formed inputs and with fills
    that make progress, completes; its executions are those of the
    minutes [0 .. N - 1] in turn, and whatever only [_execute] moves on
    the ledger has moved once for each of them, in that order.  A single
    15m route run over 15 candles is executed exactly once, at
    [i = 14]. *)
Theorem execute_called_when_timeframe_closes
    (Inv : gmap string (list Order) -> Prop)
    (mu : gmap string (list Order) -> nat)
    (clock : Q * Q) (candles : list (string * CandleSet))
    (hyper_parameters : option HP) (N : nat) (s : Store) :
  positions_kept X -> book_invariant X Inv -> fills_progress X Inv mu ->
  candles_ok config candles N -> (0 < N)%nat ->
  has_positions (needed_positions routes candles) (ledger s) ->
  Inv (orders (ledger s)) ->
  (forall (i : nat) (s0 : Store),
     for_each (enumerate routes) (execute_route X i) s0
     = Ok tt (due_executed X i (enumerate routes) s0)
     /\ executions (trace (due_executed X i (enumerate routes) s0))
        = executions (trace s0) ++ due_routes i (enumerate routes))
  /\ (forall i, NoDup (due_routes i (enumerate routes)))
  /\ (forall i index r,
        routes !! index = Some r ->
        (i, index) ∈ due_routes i (enumerate routes)
        <-> ((Z.of_nat i + 1) mod timeframe_to_one_minutes (r_timeframe r)
             = 0)%Z)
  /\ (forall i index r,
        routes !! index = Some r -> r_timeframe r = MINUTE_1 ->
        (i, index) ∈ due_routes i (enumerate routes))
  /\ exists s',
       simulator X config routes (fun l => S (mu (orders l))) clock candles
         hyper_parameters s = Ok tt s'
       /\ executions (trace s')
          = executions (trace s)
            ++ flat_map (fun i => due_routes i (enumerate routes)) (seq 0 N)
       /\ (forall r,
             routes = [r] -> r_timeframe r = MINUTE_15 -> N = 15%nat ->
             executions (trace s') = executions (trace s) ++ [(14, 0)%nat])
       /\ (forall (B : Type) (obs : Ledger -> B) (step : B -> nat -> B),
             only_execute_moves X obs step ->
             obs (ledger s')
             = fold_left step
                 (map snd
                    (flat_map (fun i => due_routes i (enumerate routes))
                       (seq 0 N)))
                 (obs (ledger s))).
Proof.
  intros Hpos Hbook Hfills Hc HN Hhas Hinv.
  assert (Hiff : forall i index r,
    routes !! index = Some r ->
    (i, index) ∈ due_routes i (enumerate routes)
    <-> ((Z.of_nat i + 1) mod timeframe_to_one_minutes (r_timeframe r)
         = 0)%Z).
  { intros i index r Hr. rewrite elem_of_due_routes. unfold due. split.
    - intros [_ (r' & Hr' & Hd)]. rewrite Hr in Hr'. injection Hr' as <-.
      by apply Z.eqb_eq.
    - intros Hm. split; [done|]. exists r. split; [done|].
      by apply Z.eqb_eq. }
  split; [|split; [apply NoDup_due_routes|split; [exact Hiff|split]]].
  - intros i s0. split; [apply execute_routes_due_executed|].
    apply executions_due_executed.
  - intros i index r Hr Ht. apply (Hiff i index r Hr).
    rewrite Ht. simpl. apply Z.mod_1_r.
  - destruct (simulator_total X config routes Inv mu
                (needed_positions routes candles) Hpos Hbook Hfills
                clock candles hyper_parameters N Hc HN (fun k H => H) s)
      as ([] & s' & E & _); [by split|].
    destruct (simulator_ok _ _ _ _ _ _ _ _ _ E)
      as (exchange & symbol & entry & He & Hs & Hen & _ & Hex & _).
    destruct Hc as (exchange' & symbol' & entry' & He' & Hs' & Hen' & HN'
                    & _).
    rewrite He in He'. injection He' as <-.
    rewrite Hs in Hs'. injection Hs' as <-.
    rewrite Hen in Hen'. injection Hen' as <-.
    rewrite HN' in Hex.
    exists s'. split; [exact E|]. split; [exact Hex|]. split.
    + intros r -> Hr ->. rewrite Hex. f_equal.
      unfold due_routes, due. simpl. rewrite Hr. reflexivity.
    + intros B obs step Hmoves.
      destruct (post_ok _ _ _ _ _
                  (observed_simulator obs step Hmoves _ clock candles
                     hyper_parameters) E) as (evs & Ht & Ho).
      rewrite Ho. do 2 f_equal.
      rewrite Ht, executions_app in Hex. by apply app_inv_head in Hex.
Qed.

End Executions.

(** ** What a run may do to the store

    Every step of [simulator] is one of: a change that leaves the ledger
    and the daily balances alone, an assignment to an attribute of a
    position other than its quantity, a callback of a strategy, a run of
    the matching engine, or a snapshot.  A preorder that contains these
    steps relates the store a run ends in to the store it started from. *)
Section Footprint.

Context {UserState Schema HP : Type}.
Context (X : Externals UserState Schema HP).
Context (config : Config) (routes : list Route).

Abbreviation Store := (Store UserState HP).
Abbreviation M := (M UserState HP).
Abbreviation Ledger := (Ledger UserState).

Context (R : Store -> Store -> Prop) `{!PreOrder R}.

Context (R_event : forall (s : Store) e,
  ~ is_database_query e -> R s (set_trace (trace s ++ [e]) s)).
Context (R_candle_storage : forall (s : Store) x,
  R s (set_candle_storage x s)).
Context (R_app_time : forall (s : Store) x, R s (set_app_time x s)).
Context (R_starting_time : forall (s : Store) x,
  R s (set_starting_time x s)).
Context (R_strategies : forall (s : Store) x, R s (set_strategies x s)).
Context (R_stdout : forall (s : Store) x, R s (set_stdout x s)).
Context (R_position : forall (s : Store) (f : Position -> Position) k,
  (forall p, p_qty (f p) = p_qty p) ->
  R s (set_ledger
         (set_positions (assoc_alter f k (positions (ledger s))) (ledger s))
         s)).
Context (R_callback : forall f, strategy_callback X f ->
  forall s : Store, R s (set_ledger (f (view_of s) (ledger s)) s)).
Context (R_engine : forall fuel real_candle exchange symbol,
  post (_simulate_price_change_effect X fuel real_candle exchange symbol) R).
Context (R_snapshot : forall s : Store,
  R s (set_daily_balance
         (daily_balance s ++ [py_sum (balances (ledger s))]) s)).

Lemma R_emit (e : Event) :
  ~ is_database_query e -> post (emit e : M unit) R.
Proof. intros He s. by apply R_event. Qed.

Lemma R_add_candle (c : Candle) (exchange symbol : string) (t : timeframe) :
  post (add_candle c exchange symbol t : M unit) R.
Proof.
  unfold add_candle. apply post_bind; [done|apply R_emit; intros []|].
  intros _ s. apply R_candle_storage.
Qed.

Lemma R_update_position (f : Position -> Position)
    (exchange symbol : string) :
  (forall p, p_qty (f p) = p_qty p) ->
  post (update_position f exchange symbol : M unit) R.
Proof.
  intros Hf s. unfold update_position.
  destruct (assoc_get _ _); [by apply R_position|reflexivity].
Qed.

Lemma R_strategy_callback f :
  strategy_callback X f -> post (callback f) R.
Proof. intros Hf s. by apply R_callback. Qed.

Lemma R_save_daily_portfolio_balance :
  post (_save_daily_portfolio_balance : M unit) R.
Proof. intros s. apply R_snapshot. Qed.

Lemma R_initiate_strategies (rs : list (nat * Route))
    (hyper_parameters : option HP) :
  post (initiate_strategies X rs hyper_parameters) R.
Proof.
  revert hyper_parameters. induction rs as [|[index r] rs IH];
    intros hyper_parameters; [by apply post_ret|].
  cbn [initiate_strategies].
  apply post_bind; [done|by intros s; apply R_strategies|]. intros _.
  apply post_bind; [done|apply R_strategy_callback; left; eauto|].
  intros _. apply post_bind; [done| |].
  { match goal with |- post (match ?x with _ => _ end) _ => destruct x end;
      [by intros s; apply R_strategies|by apply post_ret]. }
  intros _. apply post_bind; [done|by apply R_update_position|].
  intros _. apply IH.
Qed.

Lemma R_minute (fuel : Ledger -> nat) (candles : list (string * CandleSet))
    (first_candles_set : list Candle) (i : nat) :
  post (minute X config routes fuel candles first_candles_set i) R.
Proof.
  unfold minute.
  apply post_bind; [done|by apply post_of_option|]. intros c.
  apply post_bind; [done|by intros s; apply R_app_time|]. intros _.
  apply post_bind; [done| |].
  { apply post_for_each; [done|]. intros j _. unfold add_candles.
    apply post_bind; [done|by apply post_of_option|]. intros sc.
    apply post_bind; [done|apply R_add_candle|]. intros _.
    apply post_bind; [done|apply R_engine|]. intros _.
    apply post_for_each; [done|]. intros t _.
    unfold generate_bigger_timeframe.
    destruct (timeframe_eqb t MINUTE_1); [by apply post_ret|].
    destruct (_ =? 0)%Z; [|by apply post_ret].
    apply post_bind; [done|by apply post_of_option|].
    intros g. apply R_add_candle. }
  intros _. apply post_bind; [done| |].
  { apply post_for_each; [done|]. intros ir _.
    rewrite execute_route_due. destruct (due i (snd ir));
      [|by apply post_ret].
    unfold strategy_execute. apply post_bind; [done|apply R_emit; intros []|].
    intros _. apply R_strategy_callback. right. left. eauto. }
  intros _. apply post_bind; [done|apply R_emit; intros []|]. intros _.
  apply post_bind; [done|apply R_strategy_callback; by repeat right|].
  intros _. destruct (_ && _);
    [apply R_save_daily_portfolio_balance|by apply post_ret].
Qed.

Lemma R_simulator (fuel : Ledger -> nat) (clock : Q * Q)
    (candles : list (string * CandleSet)) (hyper_parameters : option HP) :
  post (simulator X config routes fuel clock candles hyper_parameters) R.
Proof.
  unfold simulator.
  apply post_bind; [done|by apply post_of_option|]. intros exchange.
  apply post_bind; [done|by apply post_of_option|]. intros symbol.
  apply post_bind; [done|by apply post_of_option|]. intros entry.
  apply post_bind; [done|by apply post_of_option|]. intros first.
  apply post_bind; [done|by intros s; apply R_starting_time|]. intros _.
  apply post_bind; [done|apply R_initiate_strategies|]. intros _.
  apply post_bind; [done|apply R_save_daily_portfolio_balance|]. intros _.
  apply post_bind; [done| |].
  { apply post_for_each; [done|]. intros i _. apply R_minute. }
  intros _. apply post_bind; [done| |].
  { destruct (negb _); [by intros s; apply R_stdout|by apply post_ret]. }
  intros _. apply post_bind; [done| |].
  { apply post_for_each; [done|]. intros ir _. unfold terminate_route.
    apply post_bind; [done|apply R_emit; intros []|]. intros _.
    apply R_strategy_callback. right. right. left. eauto. }
  intros _. apply R_save_daily_portfolio_balance.
Qed.

End Footprint.

(** ** The daily balances of a run *)

Section DailyBalance.

Context {UserState Schema HP : Type}.
Context (X : Externals UserState Schema HP).
Context (config : Config) (routes : list Route).

Abbreviation Store := (Store UserState HP).
Abbreviation M := (M UserState HP).
Abbreviation Ledger := (Ledger UserState).
Abbreviation idle_strategies := (idle_strategies X).
Abbreviation quiet_rel := (quiet_rel X).

#[local] Instance quiet_rel_preorder : PreOrder quiet_rel.
Proof.
  split.
  - intros s. exists []. split; [by rewrite app_nil_r|]. by intros _ Hf.
  - intros s1 s2 s3 (sn1 & Hd1 & H1) (sn2 & Hd2 & H2).
    exists (sn1 ++ sn2). split; [by rewrite Hd2, Hd1, app_assoc|].
    intros Hidle Hf1. destruct (H1 Hidle Hf1) as (Hf2 & He2 & Hs1).
    destruct (H2 Hidle Hf2) as (Hf3 & He3 & Hs2).
    split; [done|]. split; [congruence|].
    apply Forall_app. split; [done|].
    unfold starting_balance in *. by rewrite <- He2.
Qed.

Lemma quiet_skip (s s' : Store) :
  ledger s' = ledger s -> daily_balance s' = daily_balance s ->
  quiet_rel s s'.
Proof.
  intros Hl Hd. exists []. split; [by rewrite app_nil_r|].
  intros _ Hf. by rewrite Hl.
Qed.

Lemma elem_of_assoc_alter {A} (f : A -> A) (k : string)
    (l : list (string * A)) (kv : string * A) :
  kv ∈ assoc_alter f k l ->
  exists v, (fst kv, v) ∈ l /\ (snd kv = v \/ snd kv = f v).
Proof.
  induction l as [|[k0 v0] l IH]; simpl; [intros H; by apply elem_of_nil in H|].
  destruct (String.eqb k k0).
  - intros H. apply elem_of_cons in H as [->|H].
    + exists v0. split; [apply list_elem_of_here|by right].
    + exists (snd kv). split; [|by left].
      apply list_elem_of_further. by destruct kv.
  - intros H. apply elem_of_cons in H as [->|H].
    + exists v0. split; [apply list_elem_of_here|by left].
    + destruct (IH H) as (v & Hin & Hv). exists v.
      split; [by apply list_elem_of_further|done].
Qed.

Lemma flat_book_alter (l : Ledger) (f : Position -> Position) (k : string) :
  (forall p, p_qty (f p) = p_qty p) ->
  flat_book l ->
  flat_book (set_positions (assoc_alter f k (positions l)) l).
Proof.
  intros Hf [Hp Ho]. split; [|exact Ho]. simpl.
  intros kp Hin. apply elem_of_assoc_alter in Hin as (p & Hin & [->| ->]).
  - apply (Hp _ Hin).
  - specialize (Hp _ Hin). simpl in Hp. unfold is_open in *.
    by rewrite Hf.
Qed.

Lemma quiet_position (s : Store) (f : Position -> Position) (k : string) :
  (forall p, p_qty (f p) = p_qty p) ->
  quiet_rel s
    (set_ledger
       (set_positions (assoc_alter f k (positions (ledger s))) (ledger s)) s).
Proof.
  intros Hf. exists []. split; [by rewrite app_nil_r|].
  intros _ Hflat. split; [by apply flat_book_alter|done].
Qed.

Lemma quiet_callback f :
  strategy_callback X f ->
  forall s : Store, quiet_rel s (set_ledger (f (view_of s) (ledger s)) s).
Proof.
  intros Hf s. exists []. split; [by rewrite app_nil_r|].
  intros Hidle Hflat. simpl. by rewrite (Hidle f Hf).
Qed.

Lemma flat_book_balances (l : Ledger) :
  flat_book l -> balances l = map (fun e => balance (snd e)) (exchanges l).
Proof.
  intros [Hp Ho]. unfold balances.
  assert (flat_map (fun p => position_balances l (snd p)) (positions l) = [])
    as ->; [|by rewrite app_nil_r].
  induction (positions l) as [|kp ps IH]; [done|]. simpl.
  rewrite IH by (intros; apply Hp; by apply list_elem_of_further).
  rewrite app_nil_r. unfold position_balances.
  rewrite (Hp kp) by apply list_elem_of_here.
  unfold orders_at.
  destruct (orders l !! _) as [os|] eqn:E; [|done]. simpl.
  specialize (Ho _ _ E). clear E.
  induction os as [|o os IHo]; [done|]. simpl.
  rewrite (Ho o) by apply list_elem_of_here.
  apply IHo. intros; apply Ho; by apply list_elem_of_further.
Qed.

Lemma quiet_snapshot (s : Store) :
  quiet_rel s
    (set_daily_balance
       (daily_balance s ++ [py_sum (balances (ledger s))]) s).
Proof.
  eexists. split; [done|]. intros _ Hflat.
  split; [done|]. split; [done|].
  apply Forall_singleton. unfold starting_balance.
  by rewrite flat_book_balances.
Qed.

Lemma flat_book_for_orders (l : Ledger) (temp : Candle) (k : string)
    (flag : bool) :
  flat_book l -> for_orders temp (orders_at l k) flag = (false, None).
Proof.
  intros [_ Ho]. apply for_orders_none. intros o Hin Ha.
  unfold orders_at in Hin.
  destruct (orders l !! k) as [os|] eqn:E;
    [|by apply elem_of_nil in Hin].
  simpl in Hin. rewrite (Ho _ _ E o Hin) in Ha. done.
Qed.

Lemma price_change_loop_none (fuel : nat) (real_candle : Candle)
    (exchange symbol handle : string) (temp : Candle) (flag : bool)
    (s : Store) :
  for_orders temp (orders_at (ledger s) handle) flag = (false, None) ->
  price_change_loop X (S fuel) real_candle exchange symbol handle temp flag s
  = (add_candle real_candle exchange symbol MINUTE_1 ;;
     update_position (with_current_price (close real_candle))
       exchange symbol) s.
Proof.
  intros Hscan. cbn [price_change_loop].
  unfold mbind at 1, M_bind at 1, bind at 1, read_orders.
  by rewrite Hscan.
Qed.

Lemma quiet_engine fuel real_candle exchange symbol :
  post (_simulate_price_change_effect X fuel real_candle exchange symbol)
       quiet_rel.
Proof.
  intros s.
  pose proof (frame_simulate_price_change_effect X fuel real_candle
                exchange symbol s) as Hframe.
  destruct (_simulate_price_change_effect X fuel real_candle exchange
              symbol s) as [[] s'|e s'|] eqn:E; [| |done].
  all: destruct Hframe as (Hd & _).
  all: exists []; split; [by rewrite app_nil_r, Hd|].
  all: intros Hidle Hflat.
  all: unfold _simulate_price_change_effect, get_orders in E.
  all: unfold mbind at 1 2 3, M_bind at 1 2 3, bind at 1 2 3 in E.
  all: unfold emit, modify, mret, M_ret, ret, get in E.
  all: destruct (fuel _) as [|n]; [done|].
  all: rewrite price_change_loop_none in E
         by (by apply flat_book_for_orders).
  all: assert (Hq : post
         (add_candle real_candle exchange symbol MINUTE_1 ;;
          update_position (with_current_price (close real_candle))
            exchange symbol : M unit) quiet_rel)
         by (apply post_bind;
               [apply _
               |apply (R_add_candle quiet_rel);
                  intros; by apply quiet_skip
               |intros _;
                apply (R_update_position _ quiet_position); done]).
  - eapply post_ok in Hq; [|exact E].
    destruct Hq as (snaps & _ & Hq).
    destruct (Hq Hidle Hflat) as (Hf & He & _).
    split; [exact Hf|split; [exact He|constructor]].
  - eapply post_raise_at in Hq; [|exact E].
    destruct Hq as (snaps & _ & Hq).
    destruct (Hq Hidle Hflat) as (Hf & He & _).
    split; [exact Hf|split; [exact He|constructor]].
Qed.

Lemma quiet_simulator (fuel : Ledger -> nat) (clock : Q * Q)
    (candles : list (string * CandleSet)) (hyper_parameters : option HP) :
  post (simulator X config routes fuel clock candles hyper_parameters)
       quiet_rel.
Proof.
  apply R_simulator; [apply _|..]; try (intros; by apply quiet_skip).
  - apply quiet_position.
  - apply quiet_callback.
  - apply quiet_engine.
  - apply quiet_snapshot.
Qed.

(** C1, as the program has it.  A backtest over [N >= 1] one-minute
    candles, on well-formed inputs and with fills that make progress,
    completes, and it appends [(N - 1) / 1440 + 2] snapshots to the daily
    balances, that is [ceil (N / 1440) + 1]: one before the first candle,
    one at the end of every minute [i] with [i <> 0] and
    [i mod 1440 = 0], one after the last candle.  A run over exactly 1440
    candles appends 2 snapshots; and when the strategies are idle, no
    position is open and no order is active, every snapshot is the
    starting balance. *)
Theorem daily_balance_cadence
    (Inv : gmap string (list Order) -> Prop)
    (mu : gmap string (list Order) -> nat)
    (clock : Q * Q) (candles : list (string * CandleSet))
    (hyper_parameters : option HP) (N : nat) (s : Store) :
  positions_kept X -> book_invariant X Inv -> fills_progress X Inv mu ->
  candles_ok config candles N -> (0 < N)%nat ->
  has_positions (needed_positions routes candles) (ledger s) ->
  Inv (orders (ledger s)) ->
  exists s' snaps,
    simulator X config routes (fun l => S (mu (orders l))) clock candles
      hyper_parameters s = Ok tt s'
    /\ daily_balance s' = daily_balance s ++ snaps
    /\ length snaps = ((N - 1) / 1440 + 2)%nat
    /\ (N = 1440%nat -> length snaps = 2%nat)
    /\ (idle_strategies -> flat_book (ledger s) ->
        Forall (fun x => x = starting_balance (ledger s)) snaps).
Proof.
  intros Hpos Hbook Hfills Hc HN Hhas Hinv.
  destruct (simulator_total X config routes Inv mu
              (needed_positions routes candles) Hpos Hbook Hfills
              clock candles hyper_parameters N Hc HN (fun k H => H) s)
    as ([] & s' & E & _); [by split|].
  pose proof (post_ok _ _ _ _ _
                (quiet_simulator _ clock candles hyper_parameters) E)
    as (snaps & Hd & Hq).
  destruct (simulator_ok _ _ _ _ _ _ _ _ _ E)
    as (exchange & symbol & entry & He & Hs & Hen & _ & _ & Hlen).
  destruct Hc as (exchange' & symbol' & entry' & He' & Hs' & Hen' & HN' & _).
  rewrite He in He'. injection He' as <-.
  rewrite Hs in Hs'. injection Hs' as <-.
  rewrite Hen in Hen'. injection Hen' as <-.
  rewrite HN' in Hlen.
  assert (Hsn : length snaps = ((N - 1) / 1440 + 2)%nat).
  { rewrite Hd, length_app in Hlen. lia. }
  exists s', snaps. split; [done|]. split; [done|]. split; [done|].
  split.
  - intros ->. by rewrite Hsn.
  - intros Hidle Hflat. by destruct (Hq Hidle Hflat) as (_ & _ & ?).
Qed.

End DailyBalance.

(** ** Hyper-parameters decoded from a DNA *)

Section Dna.

Context {UserState Schema HP : Type}.
Context (X : Externals UserState Schema HP).

Abbreviation Store := (Store UserState HP).
Abbreviation M := (M UserState HP).
Abbreviation Ledger := (Ledger UserState).
Abbreviation next_hyper_parameters := (next_hyper_parameters X).
Abbreviation injected := (injected X).
Abbreviation instance_with := (instance_with X).
Abbreviation instantiated := (instantiated X).

Lemma initiate_strategies_cons (index : nat) (r : Route)
    (rs : list (nat * Route)) (acc : option HP) (s : Store) (p : Position) :
  let s3 := instantiated index r (next_hyper_parameters acc r) s in
  assoc_get (key (r_exchange r) (r_symbol r)) (positions (ledger s3))
  = Some p ->
  initiate_strategies X ((index, r) :: rs) acc s
  = initiate_strategies X rs (next_hyper_parameters acc r)
      (set_ledger
         (set_positions
            (assoc_alter (with_strategy index)
               (key (r_exchange r) (r_symbol r)) (positions (ledger s3)))
            (ledger s3)) s3).
Proof.
  cbn [initiate_strategies]. fold (next_hyper_parameters acc r).
  unfold instantiated.
  destruct (next_hyper_parameters acc r) as [h|]; simpl; intros Hp;
    unfold mbind, M_bind, bind, modify, callback, mret, M_ret, ret,
      update_position; simpl; by rewrite Hp.
Qed.

Lemma initiate_strategies_spec (rs : list Route) :
  forall (k : nat) (acc : option HP) (s : Store),
    positions_kept X ->
    has_positions (route_keys rs) (ledger s) ->
    exists s',
      initiate_strategies X (enumerate_from k rs) acc s = Ok tt s'
      /\ (forall j, (j < k)%nat -> strategies s' !! j = strategies s !! j)
      /\ (forall i r o,
            rs !! i = Some r -> injected acc rs !! i = Some o ->
            strategies s' !! (k + i)%nat = Some (instance_with o r)).
Proof.
  induction rs as [|r rs IH]; intros k acc s Hkept Hhas.
  - exists s. by repeat split.
  - cbn [enumerate_from].
    set (acc' := next_hyper_parameters acc r).
    set (s3 := instantiated k r acc' s).
    assert (Hhas3 : has_positions (route_keys (r :: rs)) (ledger s3)).
    { intros key0 Hin. subst s3. unfold instantiated.
      destruct acc'; simpl;
        (apply (proj2 Hkept); [left; eauto|]); by apply Hhas. }
    destruct (Hhas3 (key (r_exchange r) (r_symbol r)))
      as [p Hp]; [apply list_elem_of_here|].
    rewrite (initiate_strategies_cons k r _ acc s p Hp).
    fold acc' s3.
    match goal with |- context [initiate_strategies _ _ _ ?s0] =>
      set (s4 := s0) end.
    destruct (IH (S k) acc' s4 Hkept) as (s' & E & Hlow & Hhigh).
    { intros key0 Hin. subst s4. simpl. apply assoc_alter_is_Some.
      apply Hhas3. by apply list_elem_of_further. }
    exists s'. split; [exact E|].
    assert (Hs4 : strategies s4 = strategies s3) by done.
    assert (Hk : strategies s3 !! k = Some (instance_with acc' r)).
    { subst s3. unfold instantiated. destruct acc' as [h|]; simpl.
      - by rewrite lookup_alter_eq, lookup_insert_eq.
      - by rewrite lookup_insert_eq. }
    assert (Hother : forall j, j <> k ->
              strategies s3 !! j = strategies s !! j).
    { intros j Hj. subst s3. unfold instantiated.
      destruct acc' as [h|]; simpl.
      - by rewrite lookup_alter_ne, lookup_insert_ne.
      - by rewrite lookup_insert_ne. }
    split.
    + intros j Hj. rewrite Hlow, Hs4 by lia. apply Hother. lia.
    + intros [|i] q o Hq Ho; simpl in Hq, Ho.
      * injection Hq as <-. injection Ho as <-.
        rewrite Nat.add_0_r, Hlow, Hs4 by lia. exact Hk.
      * replace (k + S i)%nat with (S k + i)%nat by lia.
        by apply Hhigh.
Qed.

Lemma injected_some (h : HP) (rs : list Route) :
  injected (Some h) rs = replicate (length rs) (Some h).
Proof.
  induction rs as [|r rs IH]; [done|]. simpl.
  unfold next_hyper_parameters at 1 2. simpl. rewrite andb_false_r.
  by rewrite IH.
Qed.

Lemma injected_no_dna (pre rest : list Route) :
  Forall (fun q => truthy (dna q) = false) pre ->
  injected None (pre ++ rest)
  = replicate (length pre) None ++ injected None rest.
Proof.
  induction 1 as [|q pre Hq _ IH]; [done|]. simpl.
  unfold next_hyper_parameters at 1 2. rewrite Hq. simpl. by rewrite IH.
Qed.

(** C9.  When the loop that initiates the strategies starts with
    [hyper_parameters = None] and [r] is the first route with a DNA, the
    hyper-parameters decoded from the DNA of [r], with the schema of the
    strategy of [r], become the [hp] of the strategy of [r] and of every
    route after it, whatever their own strategy and DNA; the strategies of
    the routes before [r] keep the [hp] they were created with. *)
Theorem dna_of_first_route_reaches_later_routes
    (routes pre rest : list Route) (r : Route) (d : string) (s : Store) :
  let decoded :=
    dna_to_hp X
      (class_hyper_parameters (get_strategy_class X (strategy_name r))) d in
  routes = pre ++ r :: rest ->
  Forall (fun q => truthy (dna q) = false) pre ->
  dna r = Some d -> d <> "" ->
  positions_kept X ->
  has_positions (route_keys routes) (ledger s) ->
  exists s',
    initiate_strategies X (enumerate routes) None s = Ok tt s'
    /\ (forall index q,
          routes !! index = Some q -> (length pre <= index)%nat ->
          strategies s' !! index = Some (with_hp decoded (new_instance X q))
          /\ hp (with_hp decoded (new_instance X q)) = Some decoded)
    /\ (forall index q,
          routes !! index = Some q -> (index < length pre)%nat ->
          strategies s' !! index = Some (new_instance X q)).
Proof.
  intros decoded -> Hpre Hdna Hd Hkept Hhas.
  destruct (initiate_strategies_spec (pre ++ r :: rest) 0 None s Hkept Hhas)
    as (s' & E & _ & Hinj).
  exists s'. split; [exact E|].
  assert (Hlist : injected None (pre ++ r :: rest)
                  = replicate (length pre) None
                    ++ replicate (S (length rest)) (Some decoded)).
  { rewrite injected_no_dna by done. f_equal. simpl.
    assert (next_hyper_parameters None r = Some decoded) as ->.
    { unfold next_hyper_parameters, truthy. rewrite Hdna. simpl.
      by destruct (String.eqb_spec d ""). }
    by rewrite injected_some. }
  split.
  - intros index q Hq Hle. split; [|done].
    apply (Hinj index q (Some decoded) Hq). rewrite Hlist.
    rewrite lookup_app_r by (rewrite length_replicate; lia).
    rewrite length_replicate. apply lookup_replicate_2.
    apply lookup_lt_Some in Hq. rewrite length_app in Hq. simpl in Hq. lia.
  - intros index q Hq Hlt.
    apply (Hinj index q None Hq). rewrite Hlist.
    rewrite lookup_app_l by (rewrite length_replicate; lia).
    by apply lookup_replicate_2.
Qed.

End Dna.

(** ** Loading the candles *)

Section Loading.

Context {UserState Schema HP : Type}.
Context (X : Externals UserState Schema HP).
Context (config : Config) (routes : list Route).

Abbreviation Store := (Store UserState HP).
Abbreviation M := (M UserState HP).
Abbreviation Ledger := (Ledger UserState).
Abbreviation fetched := (fetched X).
Abbreviation load_pairs := (load_pairs X).
Abbreviation with_required_candles := (with_required_candles X config).
Abbreviation load_rel := (@load_rel UserState HP).

#[local] Instance load_rel_preorder : PreOrder load_rel.
Proof.
  split.
  - intros s. repeat split. exists []. by rewrite app_nil_r.
  - intros s1 s2 s3 (? & ? & ? & ? & evs & Ht & Hevs)
      (? & ? & ? & ? & evs' & Ht' & Hevs').
    repeat split; try congruence. exists (evs ++ evs').
    split; [by rewrite Ht', Ht, app_assoc|by apply Forall_app].
Qed.

Lemma validate_candles_contract (start_date finish_date : Z)
    (start_date_str finish_date_str symbol : string) (rows : list Candle) :
  (contract_violated start_date finish_date rows ->
   exists msg,
     validate_candles start_date finish_date start_date_str finish_date_str
       symbol rows = Some (CandleNotFoundInDatabase msg))
  /\ (~ contract_violated start_date finish_date rows ->
      validate_candles start_date finish_date start_date_str finish_date_str
        symbol rows = None).
Proof.
  unfold validate_candles, contract_violated.
  destruct rows as [|c rows].
  { simpl. split; [eauto|]. intros H. exfalso. apply H. by left. }
  rewrite last_cons_default. cbn [length Nat.eqb orb head fmap option_fmap
    option_map hd].
  assert (Hlast : List.last (c :: rows) (mkCandle 0 0 0 0 0 0)
                  = List.last rows c).
  { destruct rows as [|c' rows]; [done|].
    change (List.last (c' :: rows) (mkCandle 0 0 0 0 0 0)
            = List.last (c' :: rows) c).
    apply last_default_irrelevant. }
  rewrite Hlast.
  destruct (Z.eqb_spec (timestamp (List.last rows c)) finish_date) as [Hf|Hf];
    cbn [negb orb].
  2:{ split; [eauto|]. intros H. exfalso. apply H. right. left.
      intros [= E]. done. }
  destruct (Z.eqb_spec (timestamp c) start_date) as [Hs|Hs]; cbn [negb].
  2:{ split; [eauto|]. intros H. exfalso. apply H. left.
      intros [= E]. done. }
  destruct (Qeq_bool _ _) eqn:Hq; cbn [negb].
  - apply Qeq_bool_iff in Hq. split; [|done].
    intros [H|[H|H]]; exfalso.
    + apply H. by rewrite Hs.
    + apply H. by rewrite Hf.
    + by apply H.
  - split; [eauto|]. intros H. exfalso. apply H. right. right.
    intros E. apply Qeq_bool_iff in E. congruence.
Qed.

Lemma load_symbol_outcome (start_date finish_date : Z)
    (start_date_str finish_date_str exchange symbol : string)
    (candles : list (string * CandleSet)) (s : Store) :
  let rows :=
    fetched start_date finish_date start_date_str finish_date_str
      exchange symbol s in
  let s1 := queried start_date_str finish_date_str exchange symbol s in
  load_symbol X start_date finish_date start_date_str finish_date_str
    exchange candles symbol s
  = match validate_candles start_date finish_date start_date_str
            finish_date_str symbol rows with
    | Some e => Raise e s1
    | None =>
        Ok (assoc_set (key exchange symbol)
              (mkCandleSet exchange symbol rows) candles)
           (set_cache
              (<[start_date_str +:+ "-" +:+ finish_date_str +:+ "-"
                 +:+ key exchange symbol := rows]> (cache s1)) s1)
    end.
Proof.
  unfold load_symbol, fetched, queried.
  unfold mbind at 1, M_bind at 1, bind at 1, get.
  destruct (cache s !! _) as [[|c cached]|];
    unfold mbind, M_bind, bind, emit, modify, mret, M_ret, ret, raise;
    simpl; by destruct (validate_candles _ _ _ _ _ _).
Qed.

Lemma queried_load_rel (start_date_str finish_date_str exchange symbol
    : string) (s : Store) :
  load_rel s (queried start_date_str finish_date_str exchange symbol s).
Proof.
  unfold queried.
  destruct (cache s !! _) as [[|c cached]|]; try reflexivity.
  all: repeat split; exists [EvDatabaseQuery exchange symbol];
    split; [done|]; by apply Forall_singleton.
Qed.

Lemma post_load_symbol (start_date finish_date : Z)
    (start_date_str finish_date_str exchange symbol : string)
    (candles : list (string * CandleSet)) :
  post (load_symbol X start_date finish_date start_date_str finish_date_str
          exchange candles symbol) load_rel.
Proof.
  intros s. rewrite load_symbol_outcome.
  pose proof (queried_load_rel start_date_str finish_date_str exchange
                symbol s) as Hq.
  destruct (validate_candles _ _ _ _ _ _); [done|].
  etrans; [exact Hq|]. repeat split. exists []. by rewrite app_nil_r.
Qed.

Lemma post_for_each_acc {A B} (R : Store -> Store -> Prop) `{!PreOrder R}
    (l : list A) (body : B -> A -> M B) :
  (forall acc x, post (body acc x) R) ->
  forall acc, post (for_each_acc l body acc) R.
Proof.
  intros Hbody. induction l as [|x l IH]; intros acc; simpl.
  - by apply post_ret.
  - apply post_bind; [done|apply Hbody|]. intros acc'. apply IH.
Qed.

Lemma for_each_acc_raise_at {A B} (pre rest : list A) (x : A)
    (body : B -> A -> M B) (acc acc' : B) (s s' s'' : Store)
    (e : Exception) :
  for_each_acc pre body acc s = Ok acc' s' ->
  body acc' x s' = Raise e s'' ->
  for_each_acc (pre ++ x :: rest) body acc s = Raise e s''.
Proof.
  revert acc s. induction pre as [|y pre IH]; intros acc s; simpl.
  - intros [= -> ->] Hx. unfold mbind, M_bind, bind. by rewrite Hx.
  - unfold mbind, M_bind, bind.
    destruct (body acc y s) as [a1 s1| |]; [|done|done].
    apply IH.
Qed.

Lemma for_each_acc_app {A B} (l1 l2 : list A) (body : B -> A -> M B) :
  forall acc s,
    for_each_acc (l1 ++ l2) body acc s
    = (for_each_acc l1 body acc ≫= for_each_acc l2 body) s.
Proof.
  induction l1 as [|x l1 IH]; intros acc s; simpl; [done|].
  unfold mbind, M_bind, bind in *.
  destruct (body acc x s) as [a1 s1| |]; [|done|done]. apply IH.
Qed.

Lemma for_each_acc_map {A A' B} (g : A -> A') (l : list A)
    (body : B -> A' -> M B) :
  forall acc s,
    for_each_acc (map g l) body acc s
    = for_each_acc l (fun acc x => body acc (g x)) acc s.
Proof.
  induction l as [|x l IH]; intros acc s; simpl; [done|].
  unfold mbind, M_bind, bind.
  destruct (body acc (g x) s) as [a1 s1| |]; [|done|done]. apply IH.
Qed.

Lemma nested_loops_pairs {B} (exchanges symbols : list string)
    (body : string -> B -> string -> M B) :
  forall acc s,
    for_each_acc exchanges
      (fun acc exchange => for_each_acc symbols (body exchange) acc) acc s
    = for_each_acc (pairs_of exchanges symbols)
        (fun acc p => body (fst p) acc (snd p)) acc s.
Proof.
  induction exchanges as [|exchange exchanges IH]; intros acc s; [done|].
  cbn [for_each_acc pairs_of flat_map]. rewrite for_each_acc_app.
  unfold mbind, M_bind, bind.
  rewrite for_each_acc_map. cbn [fst snd].
  destruct (for_each_acc symbols _ acc s) as [a1 s1| |]; [|done|done].
  apply IH.
Qed.

Lemma inject_required_loop (start_date_str finish_date_str : string)
    (l : list (string * string)) :
  forall s : Store,
    for_each l (fun c =>
      modify (fun s =>
        set_candle_storage
          (inject_required_candles X (fst c) (snd c)
             start_date_str finish_date_str (candle_storage s)) s)) s
    = Ok tt
        (fold_left
           (fun s c =>
              set_candle_storage
                (inject_required_candles X (fst c) (snd c)
                   start_date_str finish_date_str (candle_storage s)) s)
           l s).
Proof.
  induction l as [|c l IH]; intros s; simpl; [done|].
  unfold mbind, M_bind, bind, modify. apply IH.
Qed.

Lemma with_required_candles_load_rel (start_date_str finish_date_str
    : string) (s : Store) :
  load_rel s (with_required_candles start_date_str finish_date_str s).
Proof.
  unfold with_required_candles. revert s.
  induction (considering_candles config) as [|c l IH]; intros s; simpl;
    [reflexivity|].
  etrans; [|apply IH]. repeat split. exists []. by rewrite app_nil_r.
Qed.

(** [_load_candles] once the dates have passed the three checks. *)
Lemma load_candles_valid_dates (start_date_str finish_date_str : string)
    (s : Store) :
  let start_date := date_to_timestamp X start_date_str in
  let finish_date := (date_to_timestamp X finish_date_str - 60000)%Z in
  (start_date < finish_date)%Z ->
  (finish_date <= utcnow_timestamp X * 1000)%Z ->
  _load_candles X config start_date_str finish_date_str s
  = load_pairs start_date finish_date start_date_str finish_date_str
      (pairs_of (considering_exchanges config) (considering_symbols config))
      [] (with_required_candles start_date_str finish_date_str s).
Proof.
  intros start_date finish_date Hlt Hnow. unfold _load_candles.
  fold start_date finish_date.
  replace (start_date =? finish_date)%Z with false
    by (symmetry; apply Z.eqb_neq; lia).
  replace (finish_date <? start_date)%Z with false
    by (symmetry; apply Z.ltb_ge; lia).
  replace (utcnow_timestamp X * 1000 <? finish_date)%Z with false
    by (symmetry; apply Z.ltb_ge; lia).
  unfold mbind at 1, M_bind at 1, bind at 1.
  rewrite inject_required_loop. fold (with_required_candles
    start_date_str finish_date_str s).
  apply nested_loops_pairs.
Qed.

Lemma post_load_candles (start_date_str finish_date_str : string) :
  post (_load_candles X config start_date_str finish_date_str) load_rel.
Proof.
  unfold _load_candles.
  destruct (_ =? _)%Z; [apply post_raise, _|].
  destruct (_ <? _)%Z; [apply post_raise, _|].
  destruct (_ <? _)%Z; [apply post_raise, _|].
  apply post_bind; [apply _| |].
  - apply post_for_each; [apply _|]. intros c _ s. simpl.
    repeat split. exists []. by rewrite app_nil_r.
  - intros _. apply post_for_each_acc; [apply _|]. intros acc exchange.
    apply post_for_each_acc; [apply _|]. intros acc' symbol.
    apply post_load_symbol.
Qed.

(** C7.  When the routes are valid and the dates pass their checks, a
    symbol whose loaded rows break the contract of the loader (first row
    not at [start_ms], last row not at [finish_ms], or a number of rows
    other than [(finish_ms - start_ms) / 60000 + 1]) makes [run] raise
    [CandleNotFoundInDatabase], the exception of the program for missing
    candles and gaps, before the simulation has started: the daily
    balances, the ledger and the strategies are untouched and the trace
    holds nothing but queries of the database. *)
Theorem candle_gap_rejected_before_simulation
    (fuel : Ledger -> nat) (clock : Q * Q)
    (start_date_str finish_date_str : string)
    (before after : list (string * string)) (exchange symbol : string)
    (loaded : list (string * CandleSet)) (s s1 : Store) :
  let start_ms := date_to_timestamp X start_date_str in
  let finish_ms := (date_to_timestamp X finish_date_str - 60000)%Z in
  validate_routes X = None ->
  (start_ms < finish_ms)%Z ->
  (finish_ms <= utcnow_timestamp X * 1000)%Z ->
  pairs_of (considering_exchanges config) (considering_symbols config)
  = before ++ (exchange, symbol) :: after ->
  load_pairs start_ms finish_ms start_date_str finish_date_str before []
    (with_required_candles start_date_str finish_date_str s)
  = Ok loaded s1 ->
  contract_violated start_ms finish_ms
    (fetched start_ms finish_ms start_date_str finish_date_str
       exchange symbol s1) ->
  exists msg s',
    run X config routes fuel clock start_date_str finish_date_str None s
    = Raise (CandleNotFoundInDatabase msg) s'
    /\ daily_balance s' = daily_balance s
    /\ ledger s' = ledger s
    /\ strategies s' = strategies s
    /\ exists evs, trace s' = trace s ++ evs /\ Forall is_database_query evs.
Proof.
  intros start_ms finish_ms Hroutes Hlt Hnow Hpairs Hbefore Hviolated.
  destruct (proj1 (validate_candles_contract start_ms finish_ms
                     start_date_str finish_date_str symbol _) Hviolated)
    as [msg Hmsg].
  set (s' := queried start_date_str finish_date_str exchange symbol s1).
  assert (Hload : _load_candles X config start_date_str finish_date_str s
                  = Raise (CandleNotFoundInDatabase msg) s').
  { rewrite load_candles_valid_dates by done.
    fold start_ms finish_ms. rewrite Hpairs. unfold load_pairs.
    eapply for_each_acc_raise_at; [exact Hbefore|].
    cbn [fst snd]. rewrite load_symbol_outcome. by rewrite Hmsg. }
  exists msg, s'. split.
  - unfold run. rewrite Hroutes.
    unfold mbind, M_bind, bind, mret, M_ret, ret. by rewrite Hload.
  - pose proof (post_raise_at _ _ _ _ _ (post_load_candles _ _) Hload)
      as (Hd & Hl & Hs & _ & Hevs).
    by repeat split.
Qed.

End Loading.

(** ** Preloaded candles *)

Section Preloaded.

Context {UserState Schema HP : Type}.
Context (X : Externals UserState Schema HP).
Context (config : Config) (routes : list Route).

Abbreviation Store := (Store UserState HP).
Abbreviation M := (M UserState HP).
Abbreviation Ledger := (Ledger UserState).
Abbreviation with_loader := (with_loader X).
Abbreviation no_load_rel := (@no_load_rel UserState HP).

#[local] Instance no_load_rel_preorder : PreOrder no_load_rel.
Proof.
  split.
  - intros s. split; [done|]. exists []. by rewrite app_nil_r.
  - intros s1 s2 s3 (Hc & evs & Ht & Hevs) (Hc' & evs' & Ht' & Hevs').
    split; [congruence|]. exists (evs ++ evs').
    split; [by rewrite Ht', Ht, app_assoc|by apply Forall_app].
Qed.

Lemma no_load_simulator (fuel : Ledger -> nat) (clock : Q * Q)
    (candles : list (string * CandleSet)) (hyper_parameters : option HP) :
  post (simulator X config routes fuel clock candles hyper_parameters)
       no_load_rel.
Proof.
  assert (Hskip : forall s s' : Store,
            cache s' = cache s -> trace s' = trace s -> no_load_rel s s').
  { intros s s' Hc Ht. split; [done|]. exists []. by rewrite app_nil_r. }
  apply R_simulator; [apply _|..]; try (intros; by apply Hskip).
  - intros s e He. split; [done|]. exists [e]. split; [done|].
    by apply Forall_singleton.
  - intros fuel' real_candle exchange symbol.
    eapply post_weaken; [|apply frame_simulate_price_change_effect].
    intros s s' (_ & _ & Hc & _ & _ & evs & Ht & Hevs).
    split; [done|]. exists evs. split; [done|].
    eapply Forall_impl; [exact Hevs|].
    intros e He Hq. destruct e; simpl in *; done.
Qed.

Lemma raises_ret {A} (a : A) P : raises (mret a : M A) P.
Proof. by intros s e s'. Qed.

Lemma raises_modify (f : Store -> Store) P : raises (modify f) P.
Proof. by intros s e s'. Qed.

Lemma raises_bind {A B} (m : M A) (f : A -> M B) P :
  raises m P -> (forall a, raises (f a) P) -> raises (m ≫= f) P.
Proof.
  intros Hm Hf s e s'. unfold mbind, M_bind, bind.
  destruct (m s) as [a s1|e1 s1|] eqn:E; [|intros [= <- <-]|done].
  - apply Hf.
  - by eapply Hm.
Qed.

Lemma raises_of_option {A} (o : option A) (e : Exception)
    (P : Exception -> Prop) :
  P e -> raises (of_option o e : M A) P.
Proof. intros He s e' s'. destruct o; [done|]. by intros [= <- <-]. Qed.

Lemma raises_for_each {A} (l : list A) (body : A -> M unit) P :
  (forall x, raises (body x) P) -> raises (for_each l body) P.
Proof.
  intros H. induction l as [|x l IH]; simpl; [apply raises_ret|].
  apply raises_bind; [apply H|]. by intros _.
Qed.

Lemma raises_add_candle (c : Candle) (exchange symbol : string)
    (t : timeframe) P :
  raises (add_candle c exchange symbol t : M unit) P.
Proof. by intros s e s'. Qed.

Lemma raises_update_position (f : Position -> Position)
    (exchange symbol : string) (P : Exception -> Prop) :
  P AttributeError -> raises (update_position f exchange symbol : M unit) P.
Proof.
  intros HP' s e s'. unfold update_position.
  destruct (assoc_get _ _); [done|]. by intros [= <- <-].
Qed.

Lemma raises_price_change_loop (fuel : nat) (real_candle : Candle)
    (exchange symbol handle : string) (P : Exception -> Prop) :
  P AttributeError ->
  forall temp flag,
    raises (price_change_loop X fuel real_candle exchange symbol handle
              temp flag) P.
Proof.
  intros HP'. induction fuel as [|fuel IH]; intros temp flag;
    [by intros s e s'|].
  cbn [price_change_loop].
  apply raises_bind; [by intros s e s'|]. intros os.
  destruct (for_orders temp os flag) as [b [[index order]|]].
  - destruct (split_candle X temp (o_price order)) as [storable rest].
    apply raises_bind; [apply raises_add_candle|]. intros _.
    apply raises_bind; [by apply raises_update_position|]. intros _.
    apply raises_bind; [apply raises_modify|]. intros _.
    apply raises_bind; [apply raises_modify|]. intros _. apply IH.
  - destruct b; simpl; [apply IH|].
    apply raises_bind; [apply raises_add_candle|]. intros _.
    by apply raises_update_position.
Qed.

Lemma raises_initiate_strategies (rs : list (nat * Route))
    (hyper_parameters : option HP) (P : Exception -> Prop) :
  P AttributeError -> raises (initiate_strategies X rs hyper_parameters) P.
Proof.
  intros HP'. revert hyper_parameters.
  induction rs as [|[index r] rs IH]; intros hyper_parameters;
    [apply raises_ret|].
  cbn [initiate_strategies].
  apply raises_bind; [apply raises_modify|]. intros _.
  apply raises_bind; [apply raises_modify|]. intros _.
  apply raises_bind.
  { match goal with |- raises (match ?x with _ => _ end) _ => destruct x end;
      [apply raises_modify|apply raises_ret]. }
  intros _. apply raises_bind; [by apply raises_update_position|].
  intros _. apply IH.
Qed.

Lemma raises_simulator (fuel : Ledger -> nat) (clock : Q * Q)
    (candles : list (string * CandleSet)) (hyper_parameters : option HP) :
  raises (simulator X config routes fuel clock candles hyper_parameters)
         (fun e => ~ loader_error e).
Proof.
  unfold simulator.
  apply raises_bind; [apply raises_of_option; by intros []|]. intros e0.
  apply raises_bind; [apply raises_of_option; by intros []|]. intros s0.
  apply raises_bind; [apply raises_of_option; by intros []|]. intros entry.
  apply raises_bind; [apply raises_of_option; by intros []|]. intros first.
  apply raises_bind; [apply raises_modify|]. intros _.
  apply raises_bind; [apply raises_initiate_strategies; by intros []|].
  intros _. apply raises_bind; [apply raises_modify|]. intros _.
  apply raises_bind.
  { apply raises_for_each. intros i. unfold minute.
    apply raises_bind; [apply raises_of_option; by intros []|]. intros c.
    apply raises_bind; [apply raises_modify|]. intros _.
    apply raises_bind.
    { apply raises_for_each. intros j. unfold add_candles.
      apply raises_bind; [apply raises_of_option; by intros []|]. intros sc.
      apply raises_bind; [apply raises_add_candle|]. intros _.
      apply raises_bind.
      { unfold _simulate_price_change_effect, get_orders.
        apply raises_bind; [by intros s e s'|]. intros h.
        apply raises_bind; [by intros s e s'|]. intros s1.
        apply raises_price_change_loop. by intros []. }
      intros _. apply raises_for_each. intros t.
      unfold generate_bigger_timeframe.
      destruct (timeframe_eqb t MINUTE_1); [apply raises_ret|].
      destruct (_ =? 0)%Z; [|apply raises_ret].
      apply raises_bind; [apply raises_of_option; by intros []|].
      intros g. apply raises_add_candle. }
    intros _. apply raises_bind.
    { apply raises_for_each. intros ir. rewrite execute_route_due.
      destruct (due i (snd ir)); [by intros s e s'|apply raises_ret]. }
    intros _. apply raises_bind; [apply raises_modify|]. intros _.
    apply raises_bind; [apply raises_modify|]. intros _.
    destruct (_ && _); [apply raises_modify|apply raises_ret]. }
  intros _. apply raises_bind.
  { destruct (negb _); [apply raises_modify|apply raises_ret]. }
  intros _. apply raises_bind; [|intros _; apply raises_modify].
  apply raises_for_each. intros ir. by intros s e s'.
Qed.

(** C10.  With preloaded candles [run] is the validation of the routes
    followed by [simulator] on those candles: the dates, the calendar, the
    clock and the database play no part in its outcome, it raises none of
    the exceptions of [_load_candles], it leaves the cache alone and it
    does not query the database.  Without candles, equal dates make it
    raise. *)
Theorem preloaded_candles_skip_loading
    (fuel : Ledger -> nat) (clock : Q * Q) (start_date finish_date : string)
    (candles : list (string * CandleSet)) (s : Store) :
  run X config routes fuel clock start_date finish_date (Some candles) s
  = match validate_routes X with
    | Some msg => Raise (RouteError msg) s
    | None => simulator X config routes fuel clock candles None s
    end
  /\ (forall start_date' finish_date' d u inj db,
        run (with_loader d u inj db) config routes fuel clock
          start_date' finish_date' (Some candles) s
        = run X config routes fuel clock start_date finish_date
            (Some candles) s)
  /\ match run X config routes fuel clock start_date finish_date
             (Some candles) s with
     | Ok _ s' => no_load_rel s s'
     | Raise e s' => ~ loader_error e /\ no_load_rel s s'
     | OutOfFuel => True
     end
  /\ (validate_routes X = None ->
      date_to_timestamp X start_date
      = (date_to_timestamp X finish_date - 60000)%Z ->
      run X config routes fuel clock start_date finish_date None s
      = Raise (ValueError "start_date and finish_date cannot be the same.")
          s).
Proof.
  assert (Hrun : run X config routes fuel clock start_date finish_date
                   (Some candles) s
                 = match validate_routes X with
                   | Some msg => Raise (RouteError msg) s
                   | None => simulator X config routes fuel clock candles
                               None s
                   end).
  { unfold run. unfold mbind at 1 2, M_bind at 1 2, bind at 1 2.
    by destruct (validate_routes X). }
  split; [exact Hrun|]. split; [|split].
  - intros start_date' finish_date' d u inj db. reflexivity.
  - rewrite Hrun. destruct (validate_routes X) as [msg|].
    + split; [by intros []|reflexivity].
    + pose proof (no_load_simulator fuel clock candles None s) as Hpost.
      pose proof (raises_simulator fuel clock candles None s) as Hraise.
      destruct (simulator X config routes fuel clock candles None s)
        as [a s'|e s'|]; [done| |done].
      split; [by eapply Hraise|done].
  - intros Hroutes Hdates. unfold run, _load_candles. rewrite Hroutes, Hdates.
    unfold mbind, M_bind, bind, mret, M_ret, ret.
    by rewrite Z.eqb_refl.
Qed.

End Preloaded.

(** ** Determinism *)

Section Determinism.

Context {UserState Schema HP : Type}.
Context (X : Externals UserState Schema HP).
Context (config : Config) (routes : list Route).

Abbreviation Store := (Store UserState HP).
Abbreviation M := (M UserState HP).
Abbreviation Ledger := (Ledger UserState).

















End Determinism.

Section LoadingMore.

Context {UserState Schema HP : Type}.
Context (X : Externals UserState Schema HP).
Context (config : Config) (routes : list Route).

Abbreviation Store := (Store UserState HP).
Abbreviation M := (M UserState HP).
Abbreviation Ledger := (Ledger UserState).

Lemma classic_contract (start_ms finish_ms : Z) (rows : list Candle) :
  contract_violated start_ms finish_ms rows
  \/ ~ contract_violated start_ms finish_ms rows.
Proof.
  unfold contract_violated.
  destruct (decide (timestamp <$> head rows = Some start_ms)) as [H1|H1];
    [|by left; left].
  destruct (decide (timestamp <$> last rows = Some finish_ms)) as [H2|H2];
    [|by left; right; left].
  destruct (Qeq_dec (inject_Z (Z.of_nat (length rows)))
              (inject_Z (finish_ms - start_ms) / inject_Z 60000 + 1))
    as [H3|H3]; [|by left; right; right].
  right. intros [H|[H|H]]; by apply H.
Qed.

Lemma contract_kept_iff (start_ms finish_ms : Z) (rows : list Candle) :
  contract_kept start_ms finish_ms rows
  <-> ~ contract_violated start_ms finish_ms rows.
Proof.
  unfold contract_kept, contract_violated. split.
  - intros (H1 & H2 & H3) [H|[H|H]]; by apply H.
  - intros H.
    destruct (decide (timestamp <$> head rows = Some start_ms)) as [H1|H1];
      [|exfalso; apply H; by left].
    destruct (decide (timestamp <$> last rows = Some finish_ms)) as [H2|H2];
      [|exfalso; apply H; by right; left].
    destruct (Qeq_dec (inject_Z (Z.of_nat (length rows)))
                (inject_Z (finish_ms - start_ms) / inject_Z 60000 + 1))
      as [H3|H3]; [done|exfalso; apply H; by right; right].
Qed.

Lemma run_without_candles (fuel : Ledger -> nat) (clock : Q * Q)
    (start_date finish_date : string) (s : Store) :
  validate_routes X = None ->
  run X config routes fuel clock start_date finish_date None s
  = (_load_candles X config start_date finish_date
     ≫= fun candles => simulator X config routes fuel clock candles None) s.
Proof. intros H. unfold run. rewrite H. reflexivity. Qed.

(** The three checks of the dates, each with the store as it was. *)
Lemma dates_rejected (start_date finish_date : string) (s : Store) :
  let start_ms := date_to_timestamp X start_date in
  let finish_ms := (date_to_timestamp X finish_date - 60000)%Z in
  (start_ms = finish_ms ->
   _load_candles X config start_date finish_date s
   = Raise (ValueError "start_date and finish_date cannot be the same.") s)
  /\ ((finish_ms < start_ms)%Z ->
      _load_candles X config start_date finish_date s
      = Raise (ValueError "start_date cannot be bigger than finish_date.") s)
  /\ ((start_ms < finish_ms)%Z ->
      (utcnow_timestamp X * 1000 < finish_ms)%Z ->
      _load_candles X config start_date finish_date s
      = Raise (ValueError "Can't backtest the future!") s).
Proof.
  intros start_ms finish_ms. unfold _load_candles. fold start_ms finish_ms.
  destruct (Z.eqb_spec start_ms finish_ms) as [E|NE].
  { split; [done|]. split; intros; lia. }
  split; [done|].
  destruct (Z.ltb_spec finish_ms start_ms) as [Hlt|Hge].
  { split; [done|]. intros; lia. }
  split; [intros; lia|].
  destruct (Z.ltb_spec (utcnow_timestamp X * 1000) finish_ms) as [Hf|Hf].
  { done. }
  intros; lia.
Qed.

Lemma nothing_loaded_refl (s : Store) : nothing_loaded s s.
Proof. by repeat split. Qed.

(** The checks of [run] come in a fixed order: the routes first, whatever
    the candles and the dates, with the store as it was; then, when
    candles have to be loaded, whether the start is the finish less a
    minute, whether it is after it, and whether the finish less a minute
    is in the future.  A rejection of the dates has saved no balance, set
    up no strategy, cached nothing and asked nothing of the database. *)
Theorem run_rejects_in_order
    (fuel : Ledger -> nat) (clock : Q * Q) (start_date finish_date : string)
    (s : Store) :
  let start_ms := date_to_timestamp X start_date in
  let finish_ms := (date_to_timestamp X finish_date - 60000)%Z in
  (forall msg candles,
     validate_routes X = Some msg ->
     run X config routes fuel clock start_date finish_date candles s
     = Raise (RouteError msg) s)
  /\ (validate_routes X = None -> start_ms = finish_ms ->
      exists s',
        run X config routes fuel clock start_date finish_date None s
        = Raise (ValueError "start_date and finish_date cannot be the same.")
            s'
        /\ nothing_loaded s s')
  /\ (validate_routes X = None -> (finish_ms < start_ms)%Z ->
      exists s',
        run X config routes fuel clock start_date finish_date None s
        = Raise (ValueError "start_date cannot be bigger than finish_date.")
            s'
        /\ nothing_loaded s s')
  /\ (validate_routes X = None -> (start_ms < finish_ms)%Z ->
      (utcnow_timestamp X * 1000 < finish_ms)%Z ->
      exists s',
        run X config routes fuel clock start_date finish_date None s
        = Raise (ValueError "Can't backtest the future!") s'
        /\ nothing_loaded s s').
Proof.
  intros start_ms finish_ms.
  destruct (dates_rejected start_date finish_date s) as (Hsame & Hbig & Hfut).
  split; [|split; [|split]].
  - intros msg candles H. unfold run. rewrite H. reflexivity.
  - intros H E. exists s. split; [|apply nothing_loaded_refl].
    rewrite run_without_candles by done.
    unfold mbind, M_bind, bind. by rewrite (Hsame E).
  - intros H Hlt. exists s. split; [|apply nothing_loaded_refl].
    rewrite run_without_candles by done.
    unfold mbind, M_bind, bind. by rewrite (Hbig Hlt).
  - intros H Hlt Hnow. exists s. split; [|apply nothing_loaded_refl].
    rewrite run_without_candles by done.
    unfold mbind, M_bind, bind. by rewrite (Hfut Hlt Hnow).
Qed.

Lemma raises_for_each_acc {A B} (l : list A) (body : B -> A -> M B)
    (P : Exception -> Prop) :
  (forall acc x, raises (body acc x) P) ->
  forall acc, raises (for_each_acc l body acc) P.
Proof.
  intros Hbody. induction l as [|x l IH]; intros acc; cbn [for_each_acc].
  - apply raises_ret.
  - apply raises_bind; [apply Hbody|]. intros a. apply IH.
Qed.

(** Every exception of [_load_candles] is one of its three date errors,
    raised under the condition of its check, or
    [CandleNotFoundInDatabase]. *)
Lemma raises_load_candles (start_date finish_date : string) :
  let start_ms := date_to_timestamp X start_date in
  let finish_ms := (date_to_timestamp X finish_date - 60000)%Z in
  raises (_load_candles X config start_date finish_date)
    (fun e =>
       match e with
       | ValueError msg =>
           (msg = "start_date and finish_date cannot be the same."
            /\ start_ms = finish_ms)
           \/ (msg = "start_date cannot be bigger than finish_date."
               /\ (finish_ms < start_ms)%Z)
           \/ (msg = "Can't backtest the future!"
               /\ (start_ms < finish_ms)%Z
               /\ (utcnow_timestamp X * 1000 < finish_ms)%Z)
       | CandleNotFoundInDatabase _ => True
       | _ => False
       end).
Proof.
  intros start_ms finish_ms s e s'. unfold _load_candles.
  fold start_ms finish_ms.
  destruct (Z.eqb_spec start_ms finish_ms) as [E|NE].
  { intros [= <- <-]. left. done. }
  destruct (Z.ltb_spec finish_ms start_ms) as [Hlt|Hge].
  { intros [= <- <-]. right. left. done. }
  destruct (Z.ltb_spec (utcnow_timestamp X * 1000) finish_ms) as [Hf|Hf].
  { intros [= <- <-]. right. right. split; [done|]. split; [lia|done]. }
  revert s e s'. apply raises_bind.
  - apply raises_for_each. intros c. apply raises_modify.
  - intros _ s e s' H.
    assert (Hsym : forall exchange candles symbol,
              raises (load_symbol X start_ms finish_ms start_date finish_date
                        exchange candles symbol)
                (fun e => match e with
                          | CandleNotFoundInDatabase _ => True
                          | _ => False
                          end)).
    { intros exchange candles symbol s0 e0 s0'.
      rewrite load_symbol_outcome.
      destruct (validate_candles_contract start_ms finish_ms start_date
                  finish_date symbol
                  (fetched X start_ms finish_ms start_date finish_date
                     exchange symbol s0)) as [Hv Hk].
      destruct (validate_candles _ _ _ _ _ _) as [e1|] eqn:E; [|done].
      intros [= <- <-].
      destruct (classic_contract start_ms finish_ms
                  (fetched X start_ms finish_ms start_date finish_date
                     exchange symbol s0)) as [Hc|Hc].
      - destruct (Hv Hc) as [msg [= ->]]. done.
      - by specialize (Hk Hc). }
    assert (Hout :
              raises (for_each_acc (considering_exchanges config)
                        (fun candles exchange =>
                           for_each_acc (considering_symbols config)
                             (load_symbol X start_ms finish_ms start_date
                                finish_date exchange) candles) [])
                (fun e => match e with
                          | CandleNotFoundInDatabase _ => True
                          | _ => False
                          end)).
    { apply raises_for_each_acc. intros candles exchange.
      apply raises_for_each_acc. intros candles' symbol. apply Hsym. }
    specialize (Hout s e s' H). by destruct e.
Qed.

(** With dates that are whole days, the first date check of
    [_load_candles] can never fire, since a minute is taken off the finish
    date before the two are compared: no call raises
    "start_date and finish_date cannot be the same.", and a call with the
    same date twice is rejected as "start_date cannot be bigger than
    finish_date.", with the store as it was. *)
Theorem same_dates_check_never_fires :
  whole_days X ->
  (forall start_date finish_date (s s' : Store),
     _load_candles X config start_date finish_date s
     <> Raise (ValueError "start_date and finish_date cannot be the same.")
          s')
  /\ (forall date (s : Store),
        _load_candles X config date date s
        = Raise (ValueError "start_date cannot be bigger than finish_date.")
            s).
Proof.
  intros Hdays. split.
  - intros start_date finish_date s s' E.
    apply raises_load_candles in E.
    destruct E as [[_ E]|[[E _]|[E _]]]; [|discriminate E..].
    pose proof (Hdays start_date) as H1.
    pose proof (Hdays finish_date) as H2.
    assert ((date_to_timestamp X finish_date
             - date_to_timestamp X start_date) mod 86400000 = 0)%Z as H3.
    { rewrite Zminus_mod, H1, H2. reflexivity. }
    replace (date_to_timestamp X finish_date
             - date_to_timestamp X start_date)%Z with 60000%Z in H3 by lia.
    discriminate H3.
  - intros date s.
    apply (proj1 (proj2 (dates_rejected date date s))). lia.
Qed.

Lemma assoc_get_set_eq {A} (k : string) (v : A) (l : list (string * A)) :
  assoc_get k (assoc_set k v l) = Some v.
Proof.
  induction l as [|[k' v'] l IH]; simpl.
  - by rewrite String.eqb_refl.
  - destruct (String.eqb k k') eqn:E; simpl; rewrite E; [done|exact IH].
Qed.

Lemma assoc_get_set_ne {A} (k k' : string) (v : A) (l : list (string * A)) :
  k <> k' -> assoc_get k' (assoc_set k v l) = assoc_get k' l.
Proof.
  intros Hne. induction l as [|[k0 v0] l IH]; simpl.
  - destruct (String.eqb_spec k' k) as [->|_]; [done|reflexivity].
  - destruct (String.eqb_spec k k0) as [->|Hk]; simpl.
    + destruct (String.eqb_spec k' k0) as [->|_]; [done|reflexivity].
    + destruct (String.eqb_spec k' k0); [done|exact IH].
Qed.

Lemma elem_of_assoc_set {A} (k : string) (v : A) (l : list (string * A))
    (kv : string * A) :
  kv ∈ assoc_set k v l -> kv = (k, v) \/ kv ∈ l.
Proof.
  induction l as [|[k0 v0] l IH]; simpl.
  - intros H. apply list_elem_of_singleton in H. by left.
  - destruct (String.eqb_spec k k0) as [->|Hk]; intros H;
      apply elem_of_cons in H as [->|H].
    + by left.
    + right. by apply list_elem_of_further.
    + right. apply list_elem_of_here.
    + destruct (IH H) as [->|H']; [by left|].
      right. by apply list_elem_of_further.
Qed.

Lemma assoc_get_elem_of {A} (k : string) (v : A) (l : list (string * A)) :
  assoc_get k l = Some v -> (k, v) ∈ l.
Proof.
  induction l as [|[k0 v0] l IH]; simpl; [done|].
  destruct (String.eqb_spec k k0) as [->|Hk].
  - intros [= ->]. apply list_elem_of_here.
  - intros H. apply list_elem_of_further. by apply IH.
Qed.

Lemma elem_of_pairs_of (exchanges symbols : list string)
    (exchange symbol : string) :
  (exchange, symbol) ∈ pairs_of exchanges symbols
  <-> exchange ∈ exchanges /\ symbol ∈ symbols.
Proof.
  unfold pairs_of. rewrite list_elem_of_In, in_flat_map. split.
  - intros (e & He & Hin). apply in_map_iff in Hin as (sy & [= <- <-] & Hsy).
    by rewrite !list_elem_of_In.
  - intros [He Hs]. exists exchange. rewrite <- list_elem_of_In.
    split; [done|]. apply in_map_iff. exists symbol.
    by rewrite <- list_elem_of_In.
Qed.

(** One step of the loading loop that returns: the rows it checked keep
    the contract, and they are what it stores and caches. *)
Lemma load_symbol_ok (start_date finish_date : Z)
    (start_date_str finish_date_str exchange symbol : string)
    (candles candles' : list (string * CandleSet)) (s s' : Store) :
  load_symbol X start_date finish_date start_date_str finish_date_str
    exchange candles symbol s = Ok candles' s' ->
  let rows :=
    fetched X start_date finish_date start_date_str finish_date_str
      exchange symbol s in
  contract_kept start_date finish_date rows
  /\ candles'
     = assoc_set (key exchange symbol) (mkCandleSet exchange symbol rows)
         candles
  /\ s' = set_cache
            (<[cache_key_of start_date_str finish_date_str exchange symbol
               := rows]> (cache s))
            (queried start_date_str finish_date_str exchange symbol s).
Proof.
  rewrite load_symbol_outcome. intros H rows. fold rows in H.
  destruct (validate_candles_contract start_date finish_date start_date_str
              finish_date_str symbol rows) as [Hv Hk].
  destruct (classic_contract start_date finish_date rows) as [Hc|Hc].
  { destruct (Hv Hc) as [msg Hm]. by rewrite Hm in H. }
  rewrite (Hk Hc) in H. injection H as <- <-.
  split; [by apply contract_kept_iff|]. split; [done|].
  f_equal. unfold queried.
  by destruct (cache s !! _) as [[|c cached]|].
Qed.

Lemma load_pairs_cons (start_date finish_date : Z)
    (start_date_str finish_date_str : string) (p : string * string)
    (l : list (string * string)) (acc acc' : list (string * CandleSet))
    (s s' : Store) :
  load_pairs X start_date finish_date start_date_str finish_date_str
    (p :: l) acc s = Ok acc' s' ->
  exists acc1 s1,
    load_symbol X start_date finish_date start_date_str finish_date_str
      (fst p) acc (snd p) s = Ok acc1 s1
    /\ load_pairs X start_date finish_date start_date_str finish_date_str
         l acc1 s1 = Ok acc' s'.
Proof. unfold load_pairs. cbn [for_each_acc]. apply bind_ok. Qed.

Lemma load_pairs_ok (start_date finish_date : Z)
    (start_date_str finish_date_str : string) (l : list (string * string)) :
  forall (acc acc' : list (string * CandleSet)) (s s' : Store),
    load_pairs X start_date finish_date start_date_str finish_date_str
      l acc s = Ok acc' s' ->
    (forall k cs,
       (k, cs) ∈ acc' ->
       (k, cs) ∈ acc
       \/ (k = key (cs_exchange cs) (cs_symbol cs)
           /\ (cs_exchange cs, cs_symbol cs) ∈ l
           /\ contract_kept start_date finish_date (cs_candles cs)))
    /\ (forall p, p ∈ l -> is_Some (assoc_get (key (fst p) (snd p)) acc'))
    /\ (forall k, is_Some (assoc_get k acc) -> is_Some (assoc_get k acc')).
Proof.
  induction l as [|p l IH]; intros acc acc' s s' H.
  - injection H as <- <-. split; [by left|]. split; [|done].
    intros p Hp. by apply elem_of_nil in Hp.
  - apply load_pairs_cons in H as (acc1 & s1 & H1 & H2).
    apply load_symbol_ok in H1 as (Hkept & -> & _).
    destruct (IH _ _ _ _ H2) as (Hin & Hall & Hmono).
    split; [|split].
    + intros k cs Hk. destruct (Hin k cs Hk) as [Hk'|(-> & Hl & Hc)].
      * apply elem_of_assoc_set in Hk' as [[= -> ->]|Hk']; [|by left].
        right. simpl. split; [done|]. split; [|done].
        destruct p. apply list_elem_of_here.
      * right. split; [done|]. split; [|done].
        by apply list_elem_of_further.
    + intros q Hq. apply elem_of_cons in Hq as [->|Hq]; [|by apply Hall].
      apply Hmono. rewrite assoc_get_set_eq. by eexists.
    + intros k Hk. apply Hmono.
      destruct (decide (key (fst p) (snd p) = k)) as [<-|Hne].
      * rewrite assoc_get_set_eq. by eexists.
      * by rewrite assoc_get_set_ne.
Qed.

Lemma loaded_dates (start_date finish_date : string)
    (candles : list (string * CandleSet)) (s s' : Store) :
  _load_candles X config start_date finish_date s = Ok candles s' ->
  (date_to_timestamp X start_date
   < date_to_timestamp X finish_date - 60000)%Z
  /\ (date_to_timestamp X finish_date - 60000
      <= utcnow_timestamp X * 1000)%Z.
Proof.
  intros H. unfold _load_candles in H.
  destruct (Z.eqb_spec (date_to_timestamp X start_date)
              (date_to_timestamp X finish_date - 60000));
    [discriminate H|].
  destruct (Z.ltb_spec (date_to_timestamp X finish_date - 60000)
              (date_to_timestamp X start_date)); [discriminate H|].
  destruct (Z.ltb_spec (utcnow_timestamp X * 1000)
              (date_to_timestamp X finish_date - 60000));
    [discriminate H|].
  lia.
Qed.

Lemma loaded_rows_kept (start_date finish_date : string)
    (candles : list (string * CandleSet)) (s s' : Store) :
  _load_candles X config start_date finish_date s = Ok candles s' ->
  forall k cs,
    assoc_get k candles = Some cs ->
    contract_kept (date_to_timestamp X start_date)
      (date_to_timestamp X finish_date - 60000) (cs_candles cs).
Proof.
  intros H k cs Hk.
  destruct (loaded_dates _ _ _ _ _ H) as [H1 H2].
  rewrite (load_candles_valid_dates X config) in H by done.
  apply load_pairs_ok in H as (Hin & _ & _).
  apply assoc_get_elem_of in Hk.
  destruct (Hin k cs Hk) as [Hk'|(_ & _ & Hc)]; [|done].
  by apply elem_of_nil in Hk'.
Qed.

(** What [_load_candles] returns: the dates were accepted, every exchange
    and symbol under consideration has an entry, and every entry is filed
    under the key of its exchange and symbol and holds rows that start at
    the start date, end a minute before the finish date and number one a
    minute. *)
Theorem loaded_candles_keep_contract
    (start_date finish_date : string) (candles : list (string * CandleSet))
    (s s' : Store) :
  let start_ms := date_to_timestamp X start_date in
  let finish_ms := (date_to_timestamp X finish_date - 60000)%Z in
  _load_candles X config start_date finish_date s = Ok candles s' ->
  (start_ms < finish_ms)%Z
  /\ (finish_ms <= utcnow_timestamp X * 1000)%Z
  /\ (forall exchange symbol,
        exchange ∈ considering_exchanges config ->
        symbol ∈ considering_symbols config ->
        is_Some (assoc_get (key exchange symbol) candles))
  /\ (forall k cs,
        (k, cs) ∈ candles ->
        k = key (cs_exchange cs) (cs_symbol cs)
        /\ cs_exchange cs ∈ considering_exchanges config
        /\ cs_symbol cs ∈ considering_symbols config
        /\ contract_kept start_ms finish_ms (cs_candles cs)).
Proof.
  intros start_ms finish_ms H.
  destruct (loaded_dates _ _ _ _ _ H) as [H1 H2].
  split; [done|]. split; [done|].
  rewrite (load_candles_valid_dates X config) in H by done.
  apply load_pairs_ok in H as (Hin & Hall & _). split.
  - intros exchange symbol He Hs.
    apply (Hall (exchange, symbol)). by apply elem_of_pairs_of.
  - intros k cs Hk. destruct (Hin k cs Hk) as [Hk'|(-> & Hl & Hc)].
    + by apply elem_of_nil in Hk'.
    + apply elem_of_pairs_of in Hl as [He Hs]. done.
Qed.

#[local] Instance cached_checked_preorder (start_ms finish_ms : Z)
    (a b : string) :
  PreOrder (@cached_checked UserState HP start_ms finish_ms a b).
Proof.
  split.
  - intros s k rows H. by left.
  - intros s1 s2 s3 H12 H23 k rows H.
    destruct (H23 k rows H) as [H'|H']; [|by right]. by apply H12.
Qed.

Lemma cached_checked_same_cache (start_ms finish_ms : Z) (a b : string)
    (s s' : Store) :
  cache s' = cache s -> cached_checked start_ms finish_ms a b s s'.
Proof. intros E k rows H. left. by rewrite <- E. Qed.

Lemma cache_with_required_candles (a b : string) (s : Store) :
  cache (with_required_candles X config a b s) = cache s
  /\ trace (with_required_candles X config a b s) = trace s.
Proof.
  unfold with_required_candles. revert s.
  induction (considering_candles config) as [|c l IH]; intros s; simpl;
    [done|].
  destruct (IH (set_candle_storage
                  (inject_required_candles X (fst c) (snd c) a b
                     (candle_storage s)) s)) as [-> ->].
  done.
Qed.

(** Whether it returns or raises, [_load_candles] writes to the cache
    nothing but rows that passed its checks: rows that fail them are never
    cached. *)
Theorem only_checked_rows_are_cached
    (start_date finish_date : string) (s : Store) :
  let start_ms := date_to_timestamp X start_date in
  let finish_ms := (date_to_timestamp X finish_date - 60000)%Z in
  match _load_candles X config start_date finish_date s with
  | Ok _ s' | Raise _ s' =>
      cached_checked start_ms finish_ms start_date finish_date s s'
  | OutOfFuel => True
  end.
Proof.
  intros start_ms finish_ms.
  assert (Hpost : post (_load_candles X config start_date finish_date)
                    (cached_checked start_ms finish_ms start_date
                       finish_date)); [|exact (Hpost s)].
  unfold _load_candles. fold start_ms finish_ms.
  destruct (start_ms =? finish_ms)%Z; [apply post_raise; apply _|].
  destruct (finish_ms <? start_ms)%Z; [apply post_raise; apply _|].
  destruct (utcnow_timestamp X * 1000 <? finish_ms)%Z;
    [apply post_raise; apply _|].
  apply post_bind; [apply _| |].
  - apply post_for_each; [apply _|]. intros c _. apply post_modify.
    intros s0. by apply cached_checked_same_cache.
  - intros _. apply post_for_each_acc; [apply _|]. intros candles exchange.
    apply post_for_each_acc; [apply _|]. intros candles' symbol s0.
    rewrite load_symbol_outcome.
    destruct (validate_candles _ _ _ _ _ _) as [e|] eqn:E.
    + apply cached_checked_same_cache. unfold queried.
      by destruct (cache s0 !! _) as [[|c cached]|].
    + intros k rows Hk. cbn [cache set_cache] in Hk.
      assert (Hq : cache (queried start_date finish_date exchange symbol s0)
                   = cache s0).
      { unfold queried. by destruct (cache s0 !! _) as [[|c cached]|]. }
      rewrite Hq in Hk.
      destruct (decide (cache_key_of start_date finish_date exchange symbol
                        = k)) as [<-|Hne].
      * unfold cache_key_of in Hk. rewrite lookup_insert_eq in Hk.
        injection Hk as <-. right. split; [|by eauto].
        apply contract_kept_iff. intros Hv.
        destruct (validate_candles_contract start_ms finish_ms start_date
                    finish_date symbol
                    (fetched X start_ms finish_ms start_date finish_date
                       exchange symbol s0)) as [Hv' _].
        destruct (Hv' Hv) as [msg Hm]. by rewrite Hm in E.
      * unfold cache_key_of in Hne. rewrite lookup_insert_ne in Hk by done.
        by left.
Qed.

Lemma load_pairs_keeps_cached (start_date finish_date : Z)
    (a b : string) (l : list (string * string)) :
  forall (acc acc' : list (string * CandleSet)) (s s' : Store),
    load_pairs X start_date finish_date a b l acc s = Ok acc' s' ->
    forall k c rows,
      cache s !! k = Some (c :: rows) -> cache s' !! k = Some (c :: rows).
Proof.
  induction l as [|p l IH]; intros acc acc' s s' H k c rows Hk.
  - by injection H as <- <-.
  - apply load_pairs_cons in H as (acc1 & s1 & H1 & H2).
    apply (IH _ _ _ _ H2). apply load_symbol_ok in H1 as (_ & _ & ->).
    cbn [cache set_cache].
    destruct (decide (cache_key_of a b (fst p) (snd p) = k)) as [<-|Hne].
    + rewrite lookup_insert_eq. unfold fetched.
      unfold cache_key_of in Hk. by rewrite Hk.
    + by rewrite lookup_insert_ne.
Qed.

Lemma set_cache_same (s : Store) : set_cache (cache s) s = s.
Proof. by destruct s. Qed.

Lemma load_pairs_replay (start_date finish_date : Z)
    (a b : string) (l : list (string * string)) :
  forall (acc acc' : list (string * CandleSet)) (s s1 : Store),
    load_pairs X start_date finish_date a b l acc s = Ok acc' s1 ->
    forall s2 : Store,
      cache s2 = cache s1 ->
      load_pairs X start_date finish_date a b l acc s2 = Ok acc' s2.
Proof.
  induction l as [|p l IH]; intros acc acc' s s1 H s2 Hc.
  - by injection H as <- _.
  - apply load_pairs_cons in H as (acc1 & s' & H1 & H2).
    pose proof H1 as H1'. apply load_symbol_ok in H1' as (Hkept & -> & ->).
    set (rows := fetched X start_date finish_date a b (fst p) (snd p) s)
      in *.
    assert (Hrows : exists c r, rows = c :: r).
    { destruct rows as [|c r]; [|by eauto].
      destruct Hkept as (Hh & _). discriminate Hh. }
    destruct Hrows as (c & r & Hrows).
    assert (Hhit : cache s2 !! cache_key_of a b (fst p) (snd p)
                   = Some rows).
    { rewrite Hc, Hrows.
      apply (load_pairs_keeps_cached _ _ _ _ _ _ _ _ _ H2).
      cbn [cache set_cache]. by rewrite lookup_insert_eq, Hrows. }
    unfold load_pairs. cbn [for_each_acc].
    unfold mbind at 1, M_bind at 1, bind at 1.
    rewrite load_symbol_outcome.
    assert (Hf : fetched X start_date finish_date a b (fst p) (snd p) s2
                 = rows).
    { unfold fetched. unfold cache_key_of in Hhit. rewrite Hhit.
      by rewrite Hrows. }
    assert (Hq : queried a b (fst p) (snd p) s2 = s2).
    { unfold queried. unfold cache_key_of in Hhit. rewrite Hhit.
      by rewrite Hrows. }
    rewrite Hf, Hq.
    destruct (validate_candles_contract start_date finish_date a b (snd p)
                rows) as [_ Hk].
    rewrite Hk by (by apply contract_kept_iff).
    replace (<[a +:+ "-" +:+ b +:+ "-" +:+ key (fst p) (snd p) := rows]>
               (cache s2)) with (cache s2)
      by (symmetry; by apply insert_id).
    rewrite set_cache_same.
    by apply (IH _ _ _ _ H2).
Qed.

(** A second [_load_candles] for the same dates, made while the cache
    still holds what the first one left, returns the same dictionary
    without a query of the database, and leaves the cache as it is. *)
Theorem second_load_is_served_from_cache
    (start_date finish_date : string) (candles : list (string * CandleSet))
    (s s1 s2 : Store) :
  _load_candles X config start_date finish_date s = Ok candles s1 ->
  cache s2 = cache s1 ->
  exists s2',
    _load_candles X config start_date finish_date s2 = Ok candles s2'
    /\ trace s2' = trace s2
    /\ cache s2' = cache s2.
Proof.
  intros H Hc.
  destruct (loaded_dates _ _ _ _ _ H) as [H1 H2].
  rewrite (load_candles_valid_dates X config) in H by done.
  exists (with_required_candles X config start_date finish_date s2).
  rewrite (load_candles_valid_dates X config) by done.
  destruct (cache_with_required_candles start_date finish_date s2)
    as [Hc2 Ht2].
  split; [|done].
  apply (load_pairs_replay _ _ _ _ _ _ _ _ _ H). by rewrite Hc2.
Qed.

End LoadingMore.

Section EngineMore.

Context {UserState Schema HP : Type}.
Context (X : Externals UserState Schema HP).

Abbreviation Store := (Store UserState HP).
Abbreviation M := (M UserState HP).
Abbreviation Ledger := (Ledger UserState).

(** The [for] loop over the orders stops at the first order, in the order
    of the list, that is active and has its price inside the candle, and
    sets the flag; without such an order it runs through and clears the
    flag.  The flag it was entered with plays no part. *)
Theorem first_active_order_inside_is_matched
    (temp : Candle) (os : list Order) (flag : bool) :
  match for_orders temp os flag with
  | (executed_order, Some (index, order)) =>
      executed_order = true
      /\ os !! index = Some order
      /\ is_active order = true
      /\ candle_includes_price temp (o_price order) = true
      /\ (forall j o, (j < index)%nat -> os !! j = Some o ->
            is_active o = true ->
            candle_includes_price temp (o_price o) = false)
  | (executed_order, None) =>
      executed_order = false
      /\ (forall o, o ∈ os -> is_active o = true ->
            candle_includes_price temp (o_price o) = false)
  end.
Proof.
  destruct (first_match_split temp os)
    as [Hnone|(pre & o & post & -> & Hpre & Ha & Hin)].
  - rewrite for_orders_none by done. done.
  - rewrite for_orders_first by done.
    split; [done|]. split; [by apply list_lookup_middle|].
    split; [done|]. split; [done|].
    intros j o' Hj Hl Ha'. apply Hpre; [|done].
    rewrite lookup_app_l in Hl by done.
    by apply list_elem_of_lookup_2 in Hl.
Qed.

Lemma for_orders_flag_irrelevant (temp : Candle) (os : list Order)
    (flag flag' : bool) :
  for_orders temp os flag = for_orders temp os flag'.
Proof.
  destruct (first_match_split temp os)
    as [Hnone|(pre & o & post & -> & Hpre & Ha & Hin)].
  - by rewrite !for_orders_none.
  - by rewrite !for_orders_first.
Qed.

(** The variable [executed_order] that the [while] loop carries from one
    iteration to the next has no effect: whatever its value at the start
    of an iteration, the loop does the same. *)
Theorem executed_order_flag_is_irrelevant
    (fuel : nat) (real_candle : Candle) (exchange symbol handle : string)
    (temp : Candle) (flag flag' : bool) (s : Store) :
  price_change_loop X fuel real_candle exchange symbol handle temp flag s
  = price_change_loop X fuel real_candle exchange symbol handle temp flag' s.
Proof.
  destruct fuel as [|fuel]; [done|]. cbn [price_change_loop].
  unfold mbind, M_bind, bind, read_orders.
  by rewrite (for_orders_flag_irrelevant temp _ flag flag').
Qed.

Lemma trace_fill_step (exchange symbol : string) (index : nat)
    (order : Order) (c : Candle) (s : Store) :
  trace (fill_step X exchange symbol index order c s)
  = trace s ++ fill_events exchange symbol (mkFill c index order).
Proof. unfold fill_step. simpl. by rewrite <- app_assoc. Qed.

Lemma price_change_loop_shape (fuel : nat) (real_candle : Candle)
    (exchange symbol : string) :
  forall (temp : Candle) (flag : bool) (s s' : Store),
    price_change_loop X fuel real_candle exchange symbol
      (key exchange symbol) temp flag s = Ok tt s' ->
    exists fills,
      trace s'
      = trace s ++ flat_map (fill_events exchange symbol) fills
        ++ [EvAddCandle exchange symbol MINUTE_1 real_candle]
      /\ matched_in_turn X temp fills
      /\ (length fills < fuel)%nat
      /\ exists p,
           assoc_get (key exchange symbol) (positions (ledger s')) = Some p
           /\ current_price p = close real_candle.
Proof.
  induction fuel as [|fuel IH]; intros temp flag s s' H; [done|].
  destruct (assoc_get (key exchange symbol) (positions (ledger s)))
    as [p|] eqn:Hp.
  2:{ exfalso. cbn [price_change_loop] in H.
      unfold mbind, M_bind, bind, read_orders in H.
      destruct (for_orders_flag temp
                  (orders_at (ledger s) (key exchange symbol)) flag)
        as [E|(i & o & E)]; rewrite E in H.
      - revert H. unfold add_candle, update_position. unfold_monad. simpl.
        by rewrite Hp.
      - destruct (split_candle X temp (o_price o)) as [storable rest].
        unfold add_candle, update_position in H. unfold_monad. simpl in H.
        by rewrite Hp in H. }
  destruct (for_orders_flag temp
              (orders_at (ledger s) (key exchange symbol)) flag)
    as [E|(index & order & E)].
  - rewrite (price_change_loop_exit X fuel real_candle exchange symbol temp
               flag s p Hp E) in H.
    injection H as <-. exists []. split; [done|]. split; [done|].
    split; [simpl; lia|].
    exists (with_current_price (close real_candle) p). split; [|done].
    unfold store_real_candle. cbn [ledger set_ledger positions set_positions].
    by rewrite assoc_get_alter_eq, Hp.
  - rewrite (price_change_loop_step X fuel real_candle exchange symbol temp
               flag true s p index order Hp E) in H.
    apply IH in H as (fills & Ht & Hm & Hlen & Hpos).
    apply for_orders_hit in E as (_ & _ & Ha & Hin).
    exists (mkFill (fst (split_candle X temp (o_price order))) index order
            :: fills).
    split; [|split; [|split]].
    + rewrite Ht, trace_fill_step. cbn [flat_map].
      by rewrite <- !app_assoc.
    + cbn [matched_in_turn fill_order piece]. done.
    + simpl. lia.
    + done.
Qed.

(** A run of the matching engine that returns has fetched the orders,
    then, for each order it executed, stored a piece of the candle and
    executed the order, and last stored the real candle; the orders were
    matched in turn against what was left of the candle, the loop made one
    iteration more than it executed orders, and the position is left with
    the close of the real candle as its current price. *)
Theorem engine_stores_pieces_then_real_candle
    (budget : Ledger -> nat) (real_candle : Candle)
    (exchange symbol : string) (s s' : Store) :
  _simulate_price_change_effect X budget real_candle exchange symbol s
  = Ok tt s' ->
  exists fills,
    trace s'
    = trace s ++ EvGetOrders exchange symbol
      :: flat_map (fill_events exchange symbol) fills
      ++ [EvAddCandle exchange symbol MINUTE_1 real_candle]
    /\ matched_in_turn X real_candle fills
    /\ (length fills < budget (ledger s))%nat
    /\ exists p,
         assoc_get (key exchange symbol) (positions (ledger s')) = Some p
         /\ current_price p = close real_candle.
Proof.
  intros H. unfold _simulate_price_change_effect, get_orders in H.
  unfold_monad. simpl in H.
  apply price_change_loop_shape in H as (fills & Ht & Hm & Hlen & Hpos).
  exists fills. split; [|done]. rewrite Ht. simpl.
  by rewrite <- app_assoc.
Qed.

End EngineMore.

Section ScheduleProperties.

Context {UserState Schema HP : Type}.
Context (X : Externals UserState Schema HP).
Context (config : Config) (routes : list Route).

Abbreviation Store := (Store UserState HP).
Abbreviation M := (M UserState HP).
Abbreviation Ledger := (Ledger UserState).
Abbreviation clock_rel := (@clock_rel UserState HP).
Abbreviation minute_schedule := (minute_schedule routes).
Abbreviation minutes_from := (minutes_from routes).
Abbreviation configured := (configured config).
Abbreviation closing := (closing config).

Lemma timeframe_eqb_eq (a b : timeframe) :
  timeframe_eqb a b = true <-> a = b.
Proof. split; [by destruct a, b|intros ->; by destruct b]. Qed.

Lemma minute_event_ingest (e : Event) : minute_event e -> ingest_event e.
Proof. by destruct e. Qed.

Lemma minute_event_not_generated (t : timeframe) (e : Event) :
  t <> MINUTE_1 -> minute_event e -> is_generated t e = false.
Proof.
  intros Ht. destruct e; try done. unfold minute_event. simpl.
  intros H. apply timeframe_eqb_eq in H as ->.
  destruct (timeframe_eqb t MINUTE_1) eqn:E; [|done].
  by apply timeframe_eqb_eq in E.
Qed.

#[local] Instance clock_rel_preorder (P : Event -> Prop) :
  PreOrder (clock_rel P).
Proof.
  split.
  - intros s. repeat split. exists []. by rewrite app_nil_r.
  - intros s1 s2 s3 (Ha & Hs & evs & Ht & Hevs) (Ha' & Hs' & evs' & Ht' & Hevs').
    split; [congruence|]. split; [congruence|]. exists (evs ++ evs').
    split; [by rewrite Ht', Ht, app_assoc|by apply Forall_app].
Qed.

Lemma clock_rel_mono (P P' : Event -> Prop) (s s' : Store) :
  (forall e, P e -> P' e) -> clock_rel P s s' -> clock_rel P' s s'.
Proof.
  intros Himp (Ha & Hs & evs & Ht & Hevs). repeat split; try done.
  exists evs. split; [done|]. eapply Forall_impl; eauto.
Qed.

Lemma clock_rel_quiet (P : Event -> Prop) (s s' : Store) :
  app_time s' = app_time s -> starting_time s' = starting_time s ->
  trace s' = trace s -> clock_rel P s s'.
Proof.
  intros Ha Hs Ht. repeat split; try done. exists [].
  by rewrite app_nil_r.
Qed.

Lemma clock_emit (P : Event -> Prop) (e : Event) :
  P e -> post (emit e : M unit) (clock_rel P).
Proof.
  intros He s. repeat split. exists [e]. split; [done|].
  by apply Forall_singleton.
Qed.

Lemma clock_callback (P : Event -> Prop) f :
  post (callback f : M unit) (clock_rel P).
Proof. intros s. by apply clock_rel_quiet. Qed.

Lemma clock_add_candle (P : Event -> Prop) (c : Candle)
    (exchange symbol : string) (t : timeframe) :
  P (EvAddCandle exchange symbol t c) ->
  post (add_candle c exchange symbol t : M unit) (clock_rel P).
Proof.
  intros Hev. unfold add_candle.
  apply post_bind; [apply _|by apply clock_emit|]. intros _ s.
  by apply clock_rel_quiet.
Qed.

Lemma clock_update_position (P : Event -> Prop) (f : Position -> Position)
    (exchange symbol : string) :
  post (update_position f exchange symbol : M unit) (clock_rel P).
Proof.
  intros s. unfold update_position.
  destruct (assoc_get _ _); [by apply clock_rel_quiet|reflexivity].
Qed.

Lemma clock_price_change_loop (fuel : nat) (real_candle : Candle)
    (exchange symbol handle : string) :
  forall temp flag,
    post (price_change_loop X fuel real_candle exchange symbol handle
            temp flag)
         (clock_rel minute_event).
Proof.
  induction fuel as [|fuel IH]; intros temp flag; [by intros s|].
  cbn [price_change_loop].
  apply post_bind; [apply _|by intros s; simpl|].
  intros os. destruct (for_orders temp os flag) as [b [[index order]|]].
  - destruct (split_candle X temp (o_price order)) as [storable rest].
    apply post_bind; [apply _|by apply clock_add_candle|]. intros _.
    apply post_bind; [apply _|apply clock_update_position|]. intros _.
    apply post_bind; [apply _|by apply clock_emit|]. intros _.
    apply post_bind; [apply _|apply clock_callback|]. intros _.
    apply IH.
  - destruct b; simpl; [apply IH|].
    apply post_bind; [apply _|by apply clock_add_candle|]. intros _.
    apply clock_update_position.
Qed.

Lemma clock_engine (fuel : Ledger -> nat) (real_candle : Candle)
    (exchange symbol : string) :
  post (_simulate_price_change_effect X fuel real_candle exchange symbol)
       (clock_rel minute_event).
Proof.
  unfold _simulate_price_change_effect, get_orders.
  apply post_bind; [apply _| |].
  - apply post_bind; [apply _|by apply clock_emit|].
    intros _. apply post_ret, _.
  - intros h. apply post_bind; [apply _|apply post_get, _|]. intros s.
    apply clock_price_change_loop.
Qed.

Lemma clock_add_candles (fuel : Ledger -> nat) (i : nat)
    (j : string * CandleSet) :
  post (add_candles X config fuel i j) (clock_rel ingest_event).
Proof.
  unfold add_candles.
  apply post_bind; [apply _|apply post_of_option, _|]. intros sc.
  apply post_bind; [apply _|by apply clock_add_candle|]. intros _.
  apply post_bind; [apply _| |].
  { eapply post_weaken; [|apply clock_engine].
    intros s0 s1. apply clock_rel_mono, minute_event_ingest. }
  intros _. apply post_for_each; [apply _|]. intros t _.
  unfold generate_bigger_timeframe.
  destruct (timeframe_eqb t MINUTE_1); [apply post_ret, _|].
  destruct (_ =? 0)%Z; [|apply post_ret, _].
  apply post_bind; [apply _|apply post_of_option, _|].
  intros g. by apply clock_add_candle.
Qed.

Lemma clock_initiate_strategies (rs : list (nat * Route))
    (hyper_parameters : option HP) :
  post (initiate_strategies X rs hyper_parameters) (clock_rel no_event).
Proof.
  revert hyper_parameters. induction rs as [|[index r] rs IH];
    intros hyper_parameters; [apply post_ret, _|].
  cbn [initiate_strategies].
  apply post_bind; [apply _|by intros s; apply clock_rel_quiet|]. intros _.
  apply post_bind; [apply _|apply clock_callback|]. intros _.
  apply post_bind; [apply _| |].
  { match goal with |- post (match ?x with _ => _ end) _ => destruct x end;
      [by intros s; apply clock_rel_quiet|apply post_ret, _]. }
  intros _. apply post_bind; [apply _|apply clock_update_position|].
  intros _. apply IH.
Qed.

Lemma terminate_routes_total (rs : list (nat * Route)) :
  forall s : Store,
    exists s',
      for_each rs (terminate_route X) s = Ok tt s'
      /\ trace s'
         = trace s ++ map (fun ir => EvStrategyTerminate (fst ir)) rs
      /\ app_time s' = app_time s
      /\ starting_time s' = starting_time s
      /\ daily_balance s' = daily_balance s.
Proof.
  induction rs as [|ir rs IH]; intros s; simpl.
  - exists s. by rewrite app_nil_r.
  - unfold mbind, M_bind, bind. unfold terminate_route at 1.
    unfold_monad. simpl.
    match goal with |- context [for_each rs _ ?s0] =>
      destruct (IH s0) as (s' & -> & Ht & Ha & Hs & Hd) end.
    exists s'. split; [done|]. simpl in *.
    rewrite Ht, <- app_assoc. done.
Qed.

Lemma map_fst_enumerate_from {A} (l : list A) (k : nat) :
  map fst (enumerate_from k l) = seq k (length l).
Proof.
  revert k. induction l as [|x l IH]; intros k; simpl; [done|].
  by rewrite IH.
Qed.

Lemma schedule_app (a b : list Event) :
  schedule (a ++ b) = schedule a ++ schedule b.
Proof. unfold schedule. apply List.filter_app. Qed.

Lemma schedule_ingest (evs : list Event) :
  Forall ingest_event evs -> schedule evs = [].
Proof.
  induction 1 as [|e evs He _ IH]; [done|].
  unfold schedule in *. simpl. unfold ingest_event in He.
  by rewrite He, IH.
Qed.

Lemma schedule_minute_schedule (i : nat) :
  schedule (minute_schedule i) = minute_schedule i.
Proof.
  unfold minute_schedule. rewrite schedule_app. f_equal.
  induction (due_routes i (enumerate routes)) as [|ir l IH]; [done|].
  unfold schedule in *. simpl. by rewrite IH.
Qed.

Lemma schedule_terminate (l : list nat) :
  schedule (map EvStrategyTerminate l) = map EvStrategyTerminate l.
Proof.
  induction l as [|x l IH]; [done|].
  unfold schedule in *. simpl. by rewrite IH.
Qed.

Lemma generated_app (t : timeframe) (a b : list Event) :
  generated t (a ++ b) = generated t a ++ generated t b.
Proof. unfold generated. apply List.filter_app. Qed.

Lemma generated_none (t : timeframe) (evs : list Event) :
  Forall (fun e => is_generated t e = false) evs -> generated t evs = [].
Proof.
  induction 1 as [|e evs He _ IH]; [done|].
  unfold generated in *. simpl. by rewrite He.
Qed.

Lemma generated_clock (t : timeframe) (s s' : Store) :
  clock_rel (fun e => is_generated t e = false) s s' ->
  generated t (trace s') = generated t (trace s).
Proof.
  intros (_ & _ & evs & -> & H).
  by rewrite generated_app, (generated_none _ _ H), app_nil_r.
Qed.

Lemma generated_minute_schedule (t : timeframe) (i : nat) :
  generated t (minute_schedule i) = [].
Proof.
  unfold minute_schedule. rewrite generated_app.
  by induction (due_routes i (enumerate routes)) as [|ir l IH].
Qed.

Lemma generated_bigger_timeframe (t : timeframe) (i : nat) (cs : CandleSet)
    (t' : timeframe) (s s' : Store) :
  t <> MINUTE_1 ->
  generate_bigger_timeframe i cs t' s = Ok tt s' ->
  length (generated t (trace s'))
  = (length (generated t (trace s))
     + if timeframe_eqb t t' && closes t i then 1 else 0)%nat.
Proof.
  intros Ht. unfold generate_bigger_timeframe.
  destruct (timeframe_eqb t' MINUTE_1) eqn:E1.
  { intros [= <-]. apply timeframe_eqb_eq in E1 as ->.
    destruct (timeframe_eqb t MINUTE_1) eqn:E;
      [by apply timeframe_eqb_eq in E|]. simpl. lia. }
  destruct (timeframe_eqb t t') eqn:E.
  - pose proof E as E'. apply timeframe_eqb_eq in E' as <-. unfold closes.
    destruct (_ =? 0)%Z; [|intros [= <-]; simpl; lia].
    intros H. apply bind_ok in H as (g & s1 & H1 & H).
    apply of_option_ok in H1 as [_ ->].
    unfold add_candle in H. unfold_monad. injection H as <-. simpl.
    rewrite generated_app, length_app. unfold generated at 2. simpl.
    by rewrite E.
  - simpl. destruct (_ =? 0)%Z; [|intros [= <-]; simpl; lia].
    intros H. apply bind_ok in H as (g & s1 & H1 & H).
    apply of_option_ok in H1 as [_ ->].
    unfold add_candle in H. unfold_monad. injection H as <-. simpl.
    rewrite generated_app, length_app. unfold generated at 2. simpl.
    rewrite E. simpl. lia.
Qed.

Lemma filter_and_const {A} (p : A -> bool) (b : bool) (l : list A) :
  List.filter (fun x => p x && b) l = if b then List.filter p l else [].
Proof.
  destruct b; induction l as [|x l IH]; simpl;
    rewrite ?andb_true_r, ?andb_false_r; try done.
  by rewrite IH.
Qed.

Lemma fold_left_add_const {A} (c : nat) (l : list A) (n : nat) :
  fold_left (fun n _ => n + c)%nat l n = (n + length l * c)%nat.
Proof.
  revert n. induction l as [|x l IH]; intros n; simpl; [lia|].
  rewrite IH. lia.
Qed.

(** What the ingestion of minute [i] for one exchange and symbol adds to
    the candles of a bigger timeframe. *)
Lemma generated_add_candles (fuel : Ledger -> nat) (t : timeframe) (i : nat)
    (j : string * CandleSet) (s s' : Store) :
  t <> MINUTE_1 ->
  add_candles X config fuel i j s = Ok tt s' ->
  length (generated t (trace s'))
  = (length (generated t (trace s)) + closing t i)%nat.
Proof.
  intros Ht H. unfold add_candles in H.
  apply bind_ok in H as (sc & s1 & H1 & H).
  apply of_option_ok in H1 as [_ ->].
  apply bind_ok in H as ([] & s2 & H2 & H).
  apply bind_ok in H as ([] & s3 & H3 & H).
  apply (post_ok _ (clock_rel minute_event)) in H2;
    [|by apply clock_add_candle].
  apply (post_ok _ (clock_rel minute_event)) in H3; [|apply clock_engine].
  assert (E : generated t (trace s3) = generated t (trace s)).
  { transitivity (generated t (trace s2)); apply generated_clock;
      eapply clock_rel_mono; eauto using minute_event_not_generated. }
  apply (for_each_ok_fold _ _ (fun s => length (generated t (trace s)))
           (fun n t' =>
              n + if timeframe_eqb t t' && closes t i then 1 else 0)%nat)
    in H.
  2:{ intros t' s0 s0' _ E0.
      by apply (generated_bigger_timeframe t i (snd j) t'). }
  rewrite H, E.
  rewrite (fold_left_count (fun t' => timeframe_eqb t t' && closes t i)).
  rewrite filter_and_const. unfold closing, configured.
  by destruct (closes t i).
Qed.

(** What a minute that completes has done to the clocks and to the
    trace. *)
Lemma minute_clock_and_trace (fuel : Ledger -> nat)
    (candles : list (string * CandleSet))
    (first_candles_set : list Candle) (i : nat) (s s' : Store) :
  minute X config routes fuel candles first_candles_set i s = Ok tt s' ->
  exists c evs,
    first_candles_set !! i = Some c
    /\ app_time s' = (timestamp c + 60000)%Z
    /\ starting_time s' = starting_time s
    /\ Forall ingest_event evs
    /\ (forall t, t <> MINUTE_1 ->
        length (generated t evs) = (length candles * closing t i)%nat)
    /\ trace s' = trace s ++ evs ++ minute_schedule i.
Proof.
  unfold minute. intros H.
  apply bind_ok in H as (c & s1 & H1 & H).
  apply of_option_ok in H1 as [Hc ->].
  apply bind_ok in H as ([] & s2 & H2 & H). injection H2 as <-.
  apply bind_ok in H as ([] & s3 & H3 & H).
  assert (Hgen : forall t, t <> MINUTE_1 ->
            length (generated t (trace s3))
            = (length (generated t (trace s)) + length candles * closing t i)%nat).
  { intros t Ht.
    apply (for_each_ok_fold _ _ (fun s => length (generated t (trace s)))
             (fun n _ => n + closing t i)%nat) in H3.
    - rewrite H3. apply fold_left_add_const.
    - intros j s0 s0' _ E0. by apply (generated_add_candles fuel t i j). }
  apply (post_ok _ (clock_rel ingest_event)) in H3;
    [|apply post_for_each; [apply _|intros; apply clock_add_candles]].
  destruct H3 as (Ha3 & Hs3 & evs & Ht3 & Hevs).
  apply bind_ok in H as ([] & s4 & H4 & H).
  destruct (execute_routes_total X i (enumerate routes) s3)
    as (s4' & E & Ht & _ & _ & _ & Ha & _).
  rewrite E in H4. injection H4 as ->.
  assert (Hs4 : starting_time s4 = starting_time s3).
  { assert (Hp : post (for_each (enumerate routes) (execute_route X i))
                   (clock_rel (fun _ => True))).
    { apply post_for_each; [apply _|]. intros ir _.
      rewrite execute_route_due. destruct (due i (snd ir));
        [|apply post_ret, _].
      unfold strategy_execute.
      apply post_bind; [apply _|by apply clock_emit|]. intros _.
      apply clock_callback. }
    apply (post_ok _ _ _ _ _ Hp) in E. by destruct E as (_ & ? & _). }
  apply bind_ok in H as ([] & s5 & H5 & H). injection H5 as <-.
  apply bind_ok in H as ([] & s6 & H6 & H). injection H6 as <-.
  exists c, evs. split; [done|].
  assert (Hfin : app_time s' = app_time s4
                 /\ starting_time s' = starting_time s4
                 /\ trace s' = trace s4 ++ [EvMarketOrders i]).
  { destruct (_ && _); by injection H as <-. }
  destruct Hfin as (-> & -> & ->).
  rewrite Ha, Ha3, Hs4, Hs3, Ht, Ht3. simpl.
  split; [done|]. split; [done|]. split; [done|]. split.
  { intros t Ht'. specialize (Hgen t Ht'). rewrite Ht3 in Hgen. simpl in Hgen.
    rewrite generated_app, length_app in Hgen. lia. }
  unfold minute_schedule. by rewrite <- !app_assoc.
Qed.

Lemma minutes_from_cons (k : nat) (evs : list Event)
    (ingested : list (list Event)) :
  minutes_from k (evs :: ingested)
  = evs ++ minute_schedule k ++ minutes_from (S k) ingested.
Proof.
  unfold minutes_from. simpl. rewrite Nat.add_0_r, <- app_assoc.
  do 3 f_equal. apply imap_ext. intros i x _. simpl. do 2 f_equal. lia.
Qed.

(** What the minutes of a run that complete have done to the trace. *)
Lemma minutes_trace (fuel : Ledger -> nat)
    (candles : list (string * CandleSet))
    (first_candles_set : list Candle) (n : nat) :
  forall (k : nat) (s s' : Store),
    for_each (seq k n)
      (minute X config routes fuel candles first_candles_set) s
    = Ok tt s' ->
    exists ingested,
      length ingested = n
      /\ (forall i evs,
            ingested !! i = Some evs ->
            Forall ingest_event evs
            /\ forall t, t <> MINUTE_1 ->
                 length (generated t evs)
                 = (length candles * closing t (k + i))%nat)
      /\ trace s' = trace s ++ minutes_from k ingested.
Proof.
  induction n as [|n IH]; intros k s s' H.
  - injection H as <-. exists []. split; [done|]. split; [done|].
    by rewrite app_nil_r.
  - simpl in H. apply bind_ok in H as ([] & s1 & H1 & H).
    apply minute_clock_and_trace in H1
      as (c & evs & _ & _ & _ & Hevs & Hgen & Ht).
    apply IH in H as (ingested & Hlen & Hall & Ht').
    exists (evs :: ingested). split; [simpl; lia|]. split.
    + intros [|i] evs' Hl; simpl in Hl.
      * injection Hl as <-. by rewrite Nat.add_0_r.
      * replace (k + S i)%nat with (S k + i)%nat by lia. by apply Hall.
    + rewrite Ht', Ht, minutes_from_cons. by rewrite <- !app_assoc.
Qed.

Lemma schedule_minutes_from (ingested : list (list Event)) :
  forall k,
    (forall i evs, ingested !! i = Some evs -> Forall ingest_event evs) ->
    schedule (minutes_from k ingested)
    = flat_map minute_schedule (seq k (length ingested)).
Proof.
  induction ingested as [|evs l IH]; intros k H; [done|].
  rewrite minutes_from_cons, !schedule_app.
  rewrite (schedule_ingest _ (H 0%nat evs eq_refl)).
  rewrite schedule_minute_schedule, IH; [done|].
  intros i evs' Hl. by apply (H (S i)).
Qed.

Lemma generated_minutes_from (t : timeframe) (c : nat)
    (ingested : list (list Event)) :
  forall k,
    (forall i evs,
       ingested !! i = Some evs ->
       length (generated t evs) = (c * closing t (k + i))%nat) ->
    length (generated t (minutes_from k ingested))
    = (c * sum_list (map (closing t) (seq k (length ingested))))%nat.
Proof.
  induction ingested as [|evs l IH]; intros k H; [simpl; lia|].
  rewrite minutes_from_cons, !generated_app, !length_app.
  rewrite generated_minute_schedule, (IH (S k)).
  - rewrite (H 0%nat evs eq_refl), Nat.add_0_r. simpl. lia.
  - intros i evs' Hl. replace (S k + i)%nat with (k + S i)%nat by lia.
    by apply (H (S i)).
Qed.

(** Of the first [N] minutes, [N / k] close a timeframe of [k] minutes. *)
Lemma closes_count (k N : nat) :
  (0 < k)%nat ->
  length (List.filter
            (fun i => ((Z.of_nat i + 1) mod Z.of_nat k =? 0)%Z) (seq 0 N))
  = (N / k)%nat.
Proof.
  intros Hk. induction N as [|N IH]; [by rewrite Nat.Div0.div_0_l|].
  rewrite seq_S, List.filter_app, length_app, IH. clear IH.
  cbn [List.filter Nat.add].
  replace (Z.of_nat N + 1)%Z with (Z.of_nat (S N)) by lia.
  rewrite <- Nat2Z.inj_mod.
  pose proof (Nat.div_mod_eq (S N) k) as Hdm.
  pose proof (Nat.mod_upper_bound (S N) k ltac:(lia)) as Hr.
  destruct (Z.eqb_spec (Z.of_nat (S N mod k)) 0) as [E|E]; simpl.
  - assert (E' : (S N mod k = 0)%nat) by lia. rewrite E' in Hdm.
    assert (Hq : (0 < S N / k)%nat) by nia.
    rewrite <- (Nat.div_unique N k (S N / k - 1) (k - 1)); nia.
  - assert (E' : (S N mod k <> 0)%nat) by lia.
    rewrite <- (Nat.div_unique N k (S N / k) (S N mod k - 1)); nia.
Qed.

Lemma sum_closing (t : timeframe) (N : nat) :
  sum_list (map (closing t) (seq 0 N))
  = (configured t * (N / Z.to_nat (timeframe_to_one_minutes t)))%nat.
Proof.
  pose proof (timeframe_to_one_minutes_pos t) as Hpos.
  rewrite <- (closes_count (Z.to_nat (timeframe_to_one_minutes t)) N) by lia.
  rewrite Z2Nat.id by lia.
  induction (seq 0 N) as [|i l IH]; simpl; [lia|].
  rewrite IH. unfold closing, closes.
  destruct (_ =? 0)%Z; simpl; lia.
Qed.

Lemma fold_left_same {A B} (l : list A) (b : B) :
  fold_left (fun acc _ => acc) l b = b.
Proof. by induction l. Qed.

(** What a run that completes has done to the clocks and to the trace. *)
Lemma simulator_clock_and_trace (fuel : Ledger -> nat) (clock : Q * Q)
    (candles : list (string * CandleSet)) (hyper_parameters : option HP)
    (s s' : Store) :
  simulator X config routes fuel clock candles hyper_parameters s
  = Ok tt s' ->
  exists exchange symbol entry first,
    trading_exchanges config !! 0%nat = Some exchange
    /\ trading_symbols config !! 0%nat = Some symbol
    /\ assoc_get (key exchange symbol) candles = Some entry
    /\ cs_candles entry !! 0%nat = Some first
    /\ starting_time s' = timestamp first
    /\ app_time s'
       = fold_left
           (fun acc i =>
              match cs_candles entry !! i with
              | Some c => (timestamp c + 60000)%Z
              | None => acc
              end)
           (seq 0 (length (cs_candles entry))) (app_time s)
    /\ exists ingested,
         length ingested = length (cs_candles entry)
         /\ (forall i evs,
               ingested !! i = Some evs ->
               Forall ingest_event evs
               /\ forall t, t <> MINUTE_1 ->
                    length (generated t evs)
                    = (length candles * closing t i)%nat)
         /\ trace s'
            = trace s ++ minutes_from 0 ingested
              ++ map EvStrategyTerminate (seq 0 (length routes)).
Proof.
  unfold simulator. intros H.
  apply bind_ok in H as (exchange & s1 & H1 & H).
  apply of_option_ok in H1 as [Hex ->].
  apply bind_ok in H as (symbol & s1 & H1 & H).
  apply of_option_ok in H1 as [Hsym ->].
  apply bind_ok in H as (entry & s1 & H1 & H).
  apply of_option_ok in H1 as [Hentry ->].
  apply bind_ok in H as (first & s1 & H1 & H).
  apply of_option_ok in H1 as [Hfirst ->].
  apply bind_ok in H as ([] & s1 & H1 & H). injection H1 as <-.
  apply bind_ok in H as ([] & s2 & H2 & H).
  apply (post_ok _ _ _ _ _ (clock_initiate_strategies _ _)) in H2.
  destruct H2 as (Ha2 & Hs2 & evs2 & Ht2 & Hevs2). simpl in Ha2, Hs2, Ht2.
  assert (evs2 = []) as -> by (by destruct Hevs2).
  rewrite app_nil_r in Ht2.
  apply bind_ok in H as ([] & s3 & H3 & H). injection H3 as <-.
  apply bind_ok in H as ([] & s4 & H4 & H).
  assert (Ha4 : app_time s4
                = fold_left
                    (fun acc i =>
                       match cs_candles entry !! i with
                       | Some c => (timestamp c + 60000)%Z
                       | None => acc
                       end)
                    (seq 0 (length (cs_candles entry))) (app_time s2)).
  { apply (for_each_ok_fold _ _ (fun s => app_time s)
             (fun acc i =>
                match cs_candles entry !! i with
                | Some c => (timestamp c + 60000)%Z
                | None => acc
                end)) in H4; [exact H4|].
    intros i s0 s0' _ E.
    apply minute_clock_and_trace in E as (c & evs & Hc & Ha & _).
    by rewrite Hc. }
  assert (Hs4' : starting_time s4 = starting_time s2).
  { apply (for_each_ok_fold _ _ (fun s => starting_time s)
             (fun acc (i : nat) => acc)) in H4.
    - rewrite H4. apply fold_left_same.
    - intros i s0 s0' _ E.
      by apply minute_clock_and_trace in E as (c & evs & _ & _ & Hs & _). }
  pose proof (minutes_trace _ _ _ _ _ _ _ H4)
    as (ingested & Hlen & Hall & Ht4).
  simpl in Ha4, Hs4', Ht4.
  apply bind_ok in H as ([] & s5 & H5 & H).
  assert (Hframe5 : trace s5 = trace s4 /\ app_time s5 = app_time s4
                    /\ starting_time s5 = starting_time s4).
  { by destruct (should_execute_silently config);
      cbv [negb modify mret M_ret ret] in H5; injection H5 as <-. }
  destruct Hframe5 as (Ht5 & Ha5 & Hs5).
  apply bind_ok in H as ([] & s6 & H6 & H).
  destruct (terminate_routes_total (enumerate routes) s5)
    as (s6' & E & Ht6 & Ha6 & Hs6 & _).
  rewrite E in H6. injection H6 as ->.
  injection H as <-.
  exists exchange, symbol, entry, first.
  split; [done|]. split; [done|]. split; [done|]. split; [done|].
  split; [simpl; by rewrite Hs6, Hs5, Hs4', Hs2|].
  split; [simpl; by rewrite Ha6, Ha5, Ha4, Ha2|].
  exists ingested. split; [done|]. split; [exact Hall|].
  simpl. rewrite Ht6, Ht5, Ht4, Ht2.
  rewrite <- (map_map fst EvStrategyTerminate).
  unfold enumerate. rewrite map_fst_enumerate_from.
  by rewrite <- app_assoc.
Qed.

Lemma fold_left_last_timestamp (l : list Candle) (final : Candle) (z : Z) :
  last l = Some final ->
  fold_left
    (fun acc i =>
       match l !! i with
       | Some c => (timestamp c + 60000)%Z
       | None => acc
       end)
    (seq 0 (length l)) z
  = (timestamp final + 60000)%Z.
Proof.
  intros Hlast. rewrite last_lookup in Hlast.
  destruct (length l) as [|n] eqn:Hn.
  { destruct l; [done|discriminate Hn]. }
  rewrite seq_S, fold_left_app. simpl in *. by rewrite Hlast.
Qed.

(** In a run that completes, every minute first ingests its candles
    (writes to the candle store, fetches and executions of orders) and
    only then calls the strategies that are due, in the order of the
    router, and then the sweep of the pending market orders, once; after
    the last minute every strategy is terminated once, in the order of the
    router.  So the calls the driver makes on the strategies and on the
    market orders are those of the schedule, minute after minute. *)
Theorem run_follows_schedule
    (fuel : Ledger -> nat) (clock : Q * Q)
    (candles : list (string * CandleSet)) (hyper_parameters : option HP)
    (s s' : Store) :
  simulator X config routes fuel clock candles hyper_parameters s
  = Ok tt s' ->
  exists exchange symbol entry ingested,
    trading_exchanges config !! 0%nat = Some exchange
    /\ trading_symbols config !! 0%nat = Some symbol
    /\ assoc_get (key exchange symbol) candles = Some entry
    /\ length ingested = length (cs_candles entry)
    /\ Forall (Forall ingest_event) ingested
    /\ trace s'
       = trace s ++ minutes_from 0 ingested
         ++ map EvStrategyTerminate (seq 0 (length routes))
    /\ schedule (trace s')
       = schedule (trace s)
         ++ flat_map minute_schedule (seq 0 (length (cs_candles entry)))
         ++ map EvStrategyTerminate (seq 0 (length routes)).
Proof.
  intros H.
  apply simulator_clock_and_trace in H
    as (exchange & symbol & entry & first & He & Hs & Hen & _ & _ & _
        & ingested & Hlen & Hall & Ht).
  exists exchange, symbol, entry, ingested.
  assert (Hin : forall i evs,
            ingested !! i = Some evs -> Forall ingest_event evs).
  { intros i evs Hl. by apply (Hall i evs Hl). }
  split; [done|]. split; [done|]. split; [done|]. split; [done|].
  split.
  { apply Forall_forall. intros evs Hevs.
    apply list_elem_of_lookup_1 in Hevs as [i Hl].
    by apply (Hin i). }
  split; [done|].
  rewrite Ht, !schedule_app, schedule_minutes_from, schedule_terminate
    by done.
  by rewrite Hlen.
Qed.

(** A run over [N] minutes that completes adds, for every exchange and
    symbol of the candles, [N / k] candles of a configured timeframe of
    [k] minutes other than 1m: one each time the timeframe closes, and
    none for the minutes that are left over at the end. *)
Theorem run_adds_bigger_timeframe_candles
    (fuel : Ledger -> nat) (clock : Q * Q)
    (candles : list (string * CandleSet)) (hyper_parameters : option HP)
    (t : timeframe) (s s' : Store) :
  simulator X config routes fuel clock candles hyper_parameters s
  = Ok tt s' ->
  t <> MINUTE_1 ->
  exists exchange symbol entry,
    trading_exchanges config !! 0%nat = Some exchange
    /\ trading_symbols config !! 0%nat = Some symbol
    /\ assoc_get (key exchange symbol) candles = Some entry
    /\ length (generated t (trace s'))
       = (length (generated t (trace s))
          + length candles * configured t
            * (length (cs_candles entry)
               / Z.to_nat (timeframe_to_one_minutes t)))%nat.
Proof.
  intros H Ht.
  apply simulator_clock_and_trace in H
    as (exchange & symbol & entry & first & He & Hs & Hen & _ & _ & _
        & ingested & Hlen & Hall & Htrace).
  exists exchange, symbol, entry.
  split; [done|]. split; [done|]. split; [done|].
  rewrite Htrace, !generated_app, !length_app.
  rewrite (generated_minutes_from t (length candles) ingested 0%nat).
  2:{ intros i evs Hl. by apply (Hall i evs Hl). }
  rewrite Hlen, sum_closing.
  replace (generated t (map EvStrategyTerminate (seq 0 (length routes))))
    with (@nil Event).
  2:{ symmetry. apply generated_none, Forall_forall. intros e He'.
      apply list_elem_of_In, in_map_iff in He' as (r & <- & _). done. }
  simpl. lia.
Qed.

(** A run that completes leaves the starting time at the timestamp of the
    first candle of the trading route, and the time of the application one
    minute after the timestamp of its last candle. *)
Theorem run_sets_clocks
    (fuel : Ledger -> nat) (clock : Q * Q)
    (candles : list (string * CandleSet)) (hyper_parameters : option HP)
    (s s' : Store) :
  simulator X config routes fuel clock candles hyper_parameters s
  = Ok tt s' ->
  exists exchange symbol entry first final,
    trading_exchanges config !! 0%nat = Some exchange
    /\ trading_symbols config !! 0%nat = Some symbol
    /\ assoc_get (key exchange symbol) candles = Some entry
    /\ head (cs_candles entry) = Some first
    /\ last (cs_candles entry) = Some final
    /\ starting_time s' = timestamp first
    /\ app_time s' = (timestamp final + 60000)%Z.
Proof.
  intros H.
  apply simulator_clock_and_trace in H
    as (exchange & symbol & entry & first & He & Hs & Hen & Hf & Hst & Ha
        & _).
  destruct (last (cs_candles entry)) as [final|] eqn:Hlast.
  2:{ apply last_None in Hlast. by rewrite Hlast in Hf. }
  exists exchange, symbol, entry, first, final.
  repeat split; try done.
  - by rewrite head_lookup.
  - rewrite Ha. by apply fold_left_last_timestamp.
Qed.

End ScheduleProperties.

Section DriverEdges.

Context {UserState Schema HP : Type}.
Context (X : Externals UserState Schema HP).
Context (config : Config) (routes : list Route).

Abbreviation Store := (Store UserState HP).
Abbreviation M := (M UserState HP).
Abbreviation Ledger := (Ledger UserState).

(** [simulator] fails before it has touched the store when the
    configuration names no trading exchange or symbol ([IndexError]), when
    the candles have no entry for the first trading exchange and symbol
    ([KeyError]), and when that entry has no candle ([IndexError]). *)
Theorem simulator_rejects_missing_candles
    (fuel : Ledger -> nat) (clock : Q * Q)
    (candles : list (string * CandleSet)) (hyper_parameters : option HP)
    (s : Store) :
  (trading_exchanges config = [] \/ trading_symbols config = [] ->
   simulator X config routes fuel clock candles hyper_parameters s
   = Raise IndexError s)
  /\ (forall exchange symbol,
        trading_exchanges config !! 0%nat = Some exchange ->
        trading_symbols config !! 0%nat = Some symbol ->
        (assoc_get (key exchange symbol) candles = None ->
         simulator X config routes fuel clock candles hyper_parameters s
         = Raise (KeyError (key exchange symbol)) s)
        /\ (forall entry,
              assoc_get (key exchange symbol) candles = Some entry ->
              cs_candles entry = [] ->
              simulator X config routes fuel clock candles hyper_parameters
                s
              = Raise IndexError s)).
Proof.
  split.
  - intros [H|H]; unfold simulator; rewrite H.
    + reflexivity.
    + by destruct (trading_exchanges config !! 0%nat).
  - intros exchange symbol He Hs. unfold simulator. rewrite He, Hs.
    split.
    + intros Hk. cbn [of_option]. unfold mbind, M_bind, bind, ret.
      by rewrite Hk.
    + intros entry Hk Hnil. cbn [of_option]. unfold mbind, M_bind, bind, ret.
      rewrite Hk. cbn [of_option ret]. by rewrite Hnil.
Qed.

Lemma for_each_ok_elem {A} (l : list A) (body : A -> M unit) :
  forall s s' : Store,
    for_each l body s = Ok tt s' ->
    forall x, x ∈ l -> exists s0 s1, body x s0 = Ok tt s1.
Proof.
  induction l as [|y l IH]; intros s s' H x Hx.
  - by apply elem_of_nil in Hx.
  - simpl in H. apply bind_ok in H as ([] & s1 & H1 & H2).
    apply elem_of_cons in Hx as [->|Hx]; [by eauto|].
    by apply (IH _ _ H2).
Qed.

(** A run can only complete when the candles of the first trading
    exchange and symbol are there and are not empty, and when every
    exchange and symbol of the candles has at least as many candles as
    that one: the driver reads candle [i] of each of them in every
    minute [i]. *)
Theorem completed_run_had_its_candles
    (fuel : Ledger -> nat) (clock : Q * Q)
    (candles : list (string * CandleSet)) (hyper_parameters : option HP)
    (s s' : Store) :
  simulator X config routes fuel clock candles hyper_parameters s
  = Ok tt s' ->
  exists exchange symbol entry,
    trading_exchanges config !! 0%nat = Some exchange
    /\ trading_symbols config !! 0%nat = Some symbol
    /\ assoc_get (key exchange symbol) candles = Some entry
    /\ cs_candles entry <> []
    /\ forall j, j ∈ candles ->
         (length (cs_candles entry) <= length (cs_candles (snd j)))%nat.
Proof.
  unfold simulator. intros H.
  apply bind_ok in H as (exchange & s1 & H1 & H).
  apply of_option_ok in H1 as [Hex ->].
  apply bind_ok in H as (symbol & s1 & H1 & H).
  apply of_option_ok in H1 as [Hsym ->].
  apply bind_ok in H as (entry & s1 & H1 & H).
  apply of_option_ok in H1 as [Hentry ->].
  apply bind_ok in H as (first & s1 & H1 & H).
  apply of_option_ok in H1 as [Hfirst ->].
  apply bind_ok in H as ([] & s1 & _ & H).
  apply bind_ok in H as ([] & s2 & _ & H).
  apply bind_ok in H as ([] & s3 & _ & H).
  apply bind_ok in H as ([] & s4 & H4 & _).
  exists exchange, symbol, entry. repeat split; try done.
  { intros Hnil. by rewrite Hnil in Hfirst. }
  intros j Hj.
  destruct (cs_candles entry) as [|c0 l] eqn:Hl; [simpl; lia|].
  assert (Hin : length l ∈ seq 0 (length (c0 :: l))).
  { apply elem_of_seq. simpl. lia. }
  destruct (for_each_ok_elem _ _ _ _ H4 _ Hin) as (s0 & s0' & Hm).
  unfold minute in Hm.
  apply bind_ok in Hm as (c & s5 & _ & Hm).
  apply bind_ok in Hm as ([] & s6 & _ & Hm).
  apply bind_ok in Hm as ([] & s7 & H7 & _).
  destruct (for_each_ok_elem _ _ _ _ H7 _ Hj) as (s8 & s8' & Hadd).
  unfold add_candles in Hadd.
  apply bind_ok in Hadd as (sc & s9 & H9 & _).
  apply of_option_ok in H9 as [H9 _].
  apply lookup_lt_Some in H9. simpl. lia.
Qed.

End DriverEdges.

Section HyperParameters.

Context {UserState Schema HP : Type}.
Context (X : Externals UserState Schema HP).

Abbreviation Store := (Store UserState HP).

(** Hyper-parameters that are passed to [simulator] win over every DNA:
    no DNA is decoded, and the strategy of every route gets the mapping
    that was passed.  And when none is passed and no route has a DNA (an
    empty one counts as none), every strategy keeps the [hp] of its
    class. *)
Theorem hyper_parameters_given_or_absent
    (routes : list Route) (s : Store) :
  positions_kept X ->
  has_positions (route_keys routes) (ledger s) ->
  (forall h : HP,
     exists s',
       initiate_strategies X (enumerate routes) (Some h) s = Ok tt s'
       /\ forall index q,
            routes !! index = Some q ->
            strategies s' !! index = Some (with_hp h (new_instance X q)))
  /\ (Forall (fun q => truthy (dna q) = false) routes ->
      exists s',
        initiate_strategies X (enumerate routes) None s = Ok tt s'
        /\ forall index q,
             routes !! index = Some q ->
             strategies s' !! index = Some (new_instance X q)).
Proof.
  intros Hkept Hpos. split.
  - intros h.
    destruct (initiate_strategies_spec X routes 0 (Some h) s Hkept Hpos)
      as (s' & E & _ & Hall).
    exists s'. split; [exact E|]. intros index q Hq.
    apply (Hall index q (Some h) Hq).
    rewrite injected_some. apply lookup_replicate_2.
    by apply lookup_lt_Some in Hq.
  - intros Hdna.
    destruct (initiate_strategies_spec X routes 0 None s Hkept Hpos)
      as (s' & E & _ & Hall).
    exists s'. split; [exact E|]. intros index q Hq.
    apply (Hall index q None Hq).
    rewrite <- (app_nil_r routes), injected_no_dna by done.
    simpl. rewrite app_nil_r. apply lookup_replicate_2.
    by apply lookup_lt_Some in Hq.
Qed.

End HyperParameters.

Section WholeDays.

Context {UserState Schema HP : Type}.
Context (X : Externals UserState Schema HP).
Context (config : Config) (routes : list Route).

Abbreviation Store := (Store UserState HP).
Abbreviation M := (M UserState HP).
Abbreviation Ledger := (Ledger UserState).

Lemma count_of_span (n : nat) (m : Z) :
  (inject_Z (Z.of_nat n) == inject_Z (60000 * m) / inject_Z 60000 + 1)%Q ->
  Z.of_nat n = (m + 1)%Z.
Proof.
  unfold Qeq, Qdiv, Qplus, Qmult, Qinv, inject_Z. simpl. lia.
Qed.

Lemma snapshots_of_days (D : nat) :
  (0 < D)%nat -> ((D * 1440 - 1) / 1440 + 2 = D + 1)%nat.
Proof.
  intros HD.
  rewrite <- (Nat.div_unique (D * 1440 - 1) 1440 (D - 1) 1439); lia.
Qed.

(** The rows of a span of [D] whole days, less the last minute: what the
    contract says about them. *)
Lemma contract_of_days (start_ms finish : Z) (D : nat) (rows : list Candle) :
  (finish - start_ms = Z.of_nat D * 86400000)%Z ->
  contract_kept start_ms (finish - 60000) rows ->
  length rows = (D * 1440)%nat
  /\ (exists first, head rows = Some first /\ timestamp first = start_ms)
  /\ (exists final, last rows = Some final
                    /\ (timestamp final + 60000)%Z = finish).
Proof.
  intros Hspan (Hh & Hl & Hn).
  replace (finish - 60000 - start_ms)%Z
    with (60000 * (Z.of_nat D * 1440 - 1))%Z in Hn by lia.
  apply count_of_span in Hn. split; [lia|]. split.
  - destruct (head rows) as [first|]; [|done]. exists first.
    split; [done|]. by injection Hh.
  - destruct (last rows) as [final|]; [|done]. exists final.
    split; [done|]. injection Hl as Hl. lia.
Qed.

(** A backtest between two dates that are [D] days apart, with candles
    loaded from the database: when it completes, it has added [D + 1]
    daily balances, its starting time is the start date, and the time of
    the application has reached the finish date. *)
Theorem backtest_of_whole_days
    (fuel : Ledger -> nat) (clock : Q * Q) (start_date finish_date : string)
    (D : nat) (s s' : Store) :
  run X config routes fuel clock start_date finish_date None s = Ok tt s' ->
  (date_to_timestamp X finish_date - date_to_timestamp X start_date
   = Z.of_nat D * 86400000)%Z ->
  length (daily_balance s') = (length (daily_balance s) + D + 1)%nat
  /\ starting_time s' = date_to_timestamp X start_date
  /\ app_time s' = date_to_timestamp X finish_date.
Proof.
  intros H Hspan. unfold run in H.
  destruct (validate_routes X) as [msg|]; [discriminate H|].
  apply bind_ok in H as ([] & s0 & H0 & H). injection H0 as <-.
  apply bind_ok in H as (candles & s1 & Hload & H).
  pose proof (loaded_dates X config _ _ _ _ _ Hload) as [Hlt _].
  assert (HD : (0 < D)%nat) by lia.
  pose proof (post_ok _ _ _ _ _
                (post_load_candles X config start_date finish_date) Hload)
    as (Hd1 & _).
  pose proof (simulator_ok X config routes _ _ _ _ _ _ H)
    as (exchange & symbol & entry & Hex & Hsym & Hentry & _ & _ & Hlen).
  apply simulator_clock_and_trace in H
    as (exchange' & symbol' & entry' & first & Hex' & Hsym' & Hentry'
        & Hfirst & Hstart & Happ & _).
  rewrite Hex in Hex'. injection Hex' as <-.
  rewrite Hsym in Hsym'. injection Hsym' as <-.
  rewrite Hentry in Hentry'. injection Hentry' as <-.
  pose proof (loaded_rows_kept X config _ _ _ _ _ Hload _ _ Hentry) as Hkept.
  apply (contract_of_days _ _ D) in Hkept
    as (Hn & (first' & Hhead & Hts) & (final & Hlast & Htf)); [|done].
  rewrite head_lookup, Hfirst in Hhead. injection Hhead as <-.
  split; [|split].
  - rewrite Hlen, Hd1, Hn, snapshots_of_days by done. lia.
  - by rewrite Hstart.
  - rewrite Happ. by rewrite (fold_left_last_timestamp _ final).
Qed.

End WholeDays.

(** * The scenarios, run *)

Import Scenario.

(** A run over 1440 flat candles with an idle strategy leaves two daily
    balances, the initial and the final one, not [ceil (1440 / 1440) + 2]. *)
Lemma flat_run_has_two_snapshots :
  daily_balance_of
    (simulator externals config routes (fun _ => 1%nat) (0, 0)%Q
       (preloaded 1440) None (store_with []))
  = Some [1000; 1000]%Q
  /\ length [1000; 1000]%Q <> (ceil_div 1440 1440 + 2)%nat.
Proof. split; [vm_compute; reflexivity|vm_compute; discriminate]. Qed.

(** A buy at 98 inside the candle, whose fill places a sell at 108 inside
    the remainder: the loop of the engine makes three iterations, and the
    order list is fetched once. *)
Lemma orders_fetched_once_for_three_iterations :
  let evs :=
    trace_of (_simulate_price_change_effect externals (fun _ => 5%nat)
                real_candle "Binance" "BTCUSD" (store_with [buy_98])) in
  fetches evs = 1%nat /\ iterations evs = 3%nat
  /\ fetches evs <> iterations evs.
Proof. vm_compute. repeat split. discriminate. Qed.

(** With one active order at 200, outside of the candle, the loop stores
    the real candle and returns. *)
Lemma no_order_inside_stores_real_candle_witness :
  assoc_get (key "Binance" "BTCUSD")
    (positions (ledger (store_with [outside_order]))) = Some flat_position
  /\ (forall o,
        o ∈ orders_at (ledger (store_with [outside_order]))
              (key "Binance" "BTCUSD") ->
        is_active o = true ->
        candle_includes_price real_candle (o_price o) = false)
  /\ exists s',
       price_change_loop externals 1 real_candle "Binance" "BTCUSD"
         (key "Binance" "BTCUSD") real_candle true
         (store_with [outside_order]) = Ok tt s'
       /\ trace s' = [EvAddCandle "Binance" "BTCUSD" MINUTE_1 real_candle].
Proof.
  assert (H1 : assoc_get (key "Binance" "BTCUSD")
                 (positions (ledger (store_with [outside_order])))
               = Some flat_position) by reflexivity.
  assert (H2 : forall o,
             o ∈ orders_at (ledger (store_with [outside_order]))
                   (key "Binance" "BTCUSD") ->
             is_active o = true ->
             candle_includes_price real_candle (o_price o) = false).
  { intros o Hin _. apply list_elem_of_singleton in Hin. subst o. reflexivity. }
  split; [exact H1|]. split; [exact H2|].
  destruct (no_order_inside_stores_real_candle externals 0 real_candle
              "Binance" "BTCUSD" real_candle true
              (store_with [outside_order]) flat_position H1 H2)
    as (s' & E & Ht & _).
  exists s'. split; [exact E|exact Ht].
Defined.

(** The sell at 108 is not in the book when the engine starts; the fill of
    the buy at 98 creates it, and the next iteration executes it. *)
Lemma orders_fetched_once_and_read_live_witness :
  let s := store_with [buy_98] in
  let pieces := split_at real_candle 98 in
  let s1 := fill_step externals "Binance" "BTCUSD" 0 buy_98 (fst pieces) s in
  let pieces' := split_at (snd pieces) (o_price sell_108) in
  assoc_get (key "Binance" "BTCUSD") (positions (ledger s))
  = Some flat_position
  /\ for_orders real_candle (orders_at (ledger s) (key "Binance" "BTCUSD"))
       false = (true, Some (0%nat, buy_98))
  /\ (sell_108 ∉ orders_at (ledger s) (key "Binance" "BTCUSD"))
  /\ for_orders (snd pieces) (orders_at (ledger s1) (key "Binance" "BTCUSD"))
       true = (true, Some (1%nat, sell_108))
  /\ price_change_loop externals 3 real_candle "Binance" "BTCUSD"
       (key "Binance" "BTCUSD") real_candle false s
     = price_change_loop externals 1 real_candle "Binance" "BTCUSD"
         (key "Binance" "BTCUSD") (snd pieces') true
         (fill_step externals "Binance" "BTCUSD" 1 sell_108 (fst pieces') s1).
Proof.
  intros s pieces s1 pieces'.
  assert (H1 : assoc_get (key "Binance" "BTCUSD") (positions (ledger s))
               = Some flat_position) by reflexivity.
  assert (H2 : for_orders real_candle
                 (orders_at (ledger s) (key "Binance" "BTCUSD")) false
               = (true, Some (0%nat, buy_98))) by reflexivity.
  assert (H3 : assoc_get (key "Binance" "BTCUSD") (positions (ledger s1))
               = Some (filled buy_98
                         (with_current_price 98 flat_position)))
    by reflexivity.
  assert (H4 : for_orders (snd pieces)
                 (orders_at (ledger s1) (key "Binance" "BTCUSD")) true
               = (true, Some (1%nat, sell_108))) by reflexivity.
  split; [exact H1|]. split; [exact H2|]. split.
  { intros Hin. apply list_elem_of_singleton in Hin. discriminate Hin. }
  split; [exact H4|].
  exact (proj2 (proj2 (orders_fetched_once_and_read_live externals
                         (fun _ => 3%nat) 1 real_candle "Binance" "BTCUSD" s
                         flat_position _ 0 1 buy_98 sell_108 H1 H2 H3 H4))).
Defined.

(** At minute 14 the 15m candle of the first fifteen minutes is added. *)
Lemma bigger_timeframe_candle_emitted_witness :
  let cs := mkCandleSet "Binance" "BTCUSD" (flats 15) in
  (14 < length (cs_candles cs))%nat
  /\ MINUTE_15 <> MINUTE_1
  /\ exists c,
       generate_bigger_timeframe 14 cs MINUTE_15 (store_with [])
       = Ok tt
           (set_candle_storage
              (<[series_key "Binance" "BTCUSD" MINUTE_15 :=
                   add_to_series c
                     (get_candles (store_with []) "Binance" "BTCUSD"
                        MINUTE_15)]>
                 (candle_storage (store_with [])))
              (set_trace
                 (trace (store_with [])
                  ++ [EvAddCandle "Binance" "BTCUSD" MINUTE_15 c])
                 (store_with [])))
       /\ aggregate_of (window cs 14 15) c.
Proof.
  intros cs.
  assert (H1 : (14 < length (cs_candles cs))%nat) by (vm_compute; lia).
  assert (H2 : MINUTE_15 <> MINUTE_1) by discriminate.
  split; [exact H1|]. split; [exact H2|].
  destruct (proj2 (bigger_timeframe_candle_emitted 14 cs MINUTE_15
                     (store_with []) H1) H2) as (c & E & Ha & _).
  exists c. split; [exact E|exact Ha].
Defined.

Lemma tally_keeps_positions : positions_kept tally_market.
Proof.
  split.
  - intros exchange symbol index order v l k Hk. exact Hk.
  - intros f [(n & i & ->)|[(n & i & ->)|[(n & i & ->)| ->]]] v l k Hk;
      exact Hk.
Qed.

Lemma tally_book_invariant : book_invariant tally_market no_active_order.
Proof.
  intros f [(n & i & ->)|[(n & i & ->)|[(n & i & ->)| ->]]] v l H; exact H.
Qed.

Lemma tally_fills_progress :
  fills_progress tally_market no_active_order (fun _ => 0%nat).
Proof.
  intros exchange symbol index order v l Hinv Hl Ha. exfalso.
  unfold orders_at in Hl.
  destruct (orders l !! key exchange symbol) as [os|] eqn:E; [|done].
  simpl in Hl. apply list_elem_of_lookup_2 in Hl.
  rewrite (Hinv _ _ E _ Hl) in Ha. done.
Qed.

Lemma tally_only_execute_moves :
  only_execute_moves tally_market (fun l => user_state l) (fun n _ => S n).
Proof. by repeat split. Qed.

(** Scenario S4, with a strategy that counts its executions: over 15
    candles the backtest completes, one 15m route is executed once, at
    minute 14, and the count that the strategy keeps on the ledger has
    gone from 0 to 1. *)
Lemma execute_called_when_timeframe_closes_witness :
  positions_kept tally_market
  /\ book_invariant tally_market no_active_order
  /\ fills_progress tally_market no_active_order (fun _ => 0%nat)
  /\ candles_ok config (preloaded 15) 15
  /\ (0 < 15)%nat
  /\ has_positions (needed_positions routes (preloaded 15))
       (ledger tally_store)
  /\ no_active_order (orders (ledger tally_store))
  /\ exists s',
       simulator tally_market config routes (fun l => S 0) (0, 0)%Q
         (preloaded 15) None tally_store = Ok tt s'
       /\ executions (trace s') = [(14, 0)%nat]
       /\ user_state (ledger s') = 1%nat.
Proof.
  assert (H1 : candles_ok config (preloaded 15) 15).
  { exists "Binance", "BTCUSD", (mkCandleSet "Binance" "BTCUSD" (flats 15)).
    assert (Hlen : length (flats 15) = 15%nat) by (vm_compute; reflexivity).
    split; [reflexivity|]. split; [reflexivity|]. split; [reflexivity|].
    split; [exact Hlen|].
    intros j Hj. apply list_elem_of_singleton in Hj. subst j.
    cbn [snd cs_candles]. by rewrite Hlen. }
  assert (H2 : (0 < 15)%nat) by lia.
  assert (H3 : has_positions (needed_positions routes (preloaded 15))
                 (ledger tally_store)).
  { intros k Hk. apply list_elem_of_In in Hk.
    destruct Hk as [<-|[<-|[]]]; by eexists. }
  assert (H4 : no_active_order (orders (ledger tally_store))).
  { intros k os Hk o Ho. simpl in Hk.
    apply lookup_singleton_Some in Hk as [_ <-]. by apply elem_of_nil in Ho. }
  split; [exact tally_keeps_positions|].
  split; [exact tally_book_invariant|].
  split; [exact tally_fills_progress|].
  split; [exact H1|]. split; [exact H2|]. split; [exact H3|].
  split; [exact H4|].
  destruct (execute_called_when_timeframe_closes tally_market config routes
              no_active_order (fun _ => 0%nat) (0, 0)%Q (preloaded 15) None
              15 tally_store tally_keeps_positions tally_book_invariant
              tally_fills_progress H1 H2 H3 H4)
    as (_ & _ & _ & _ & s' & E & _ & H15 & Hobs).
  exists s'. split; [exact E|]. split.
  - exact (H15 _ eq_refl eq_refl eq_refl).
  - exact (Hobs nat (fun l => user_state l) (fun n _ => S n)
             tally_only_execute_moves).
Defined.

(** Scenario S5: the database misses the minute at 120000, and [run]
    raises before it has touched the balances or the ledger. *)
Lemma candle_gap_rejected_before_simulation_witness :
  let s := store_with [] in
  validate_routes externals = None
  /\ (date_to_timestamp externals "1970-01-01"
      < date_to_timestamp externals "1970-01-02" - 60000)%Z
  /\ (date_to_timestamp externals "1970-01-02" - 60000
      <= utcnow_timestamp externals * 1000)%Z
  /\ contract_violated 0 300000
       (fetched externals 0 300000 "1970-01-01" "1970-01-02"
          "Binance" "BTCUSD" s)
  /\ exists msg s',
       run externals config routes (fun _ => 1%nat) (0, 0)%Q
         "1970-01-01" "1970-01-02" None s
       = Raise (CandleNotFoundInDatabase msg) s'
       /\ daily_balance s' = daily_balance s
       /\ ledger s' = ledger s.
Proof.
  intros s.
  assert (H1 : validate_routes externals = None) by reflexivity.
  assert (H2 : (date_to_timestamp externals "1970-01-01"
                < date_to_timestamp externals "1970-01-02" - 60000)%Z)
    by (vm_compute; reflexivity).
  assert (H3 : (date_to_timestamp externals "1970-01-02" - 60000
                <= utcnow_timestamp externals * 1000)%Z)
    by (vm_compute; discriminate).
  assert (H4 : pairs_of (considering_exchanges config)
                 (considering_symbols config)
               = [] ++ ("Binance", "BTCUSD") :: []) by reflexivity.
  assert (H5 : load_pairs externals
                 (date_to_timestamp externals "1970-01-01")
                 (date_to_timestamp externals "1970-01-02" - 60000)
                 "1970-01-01" "1970-01-02" [] []
                 (with_required_candles externals config
                    "1970-01-01" "1970-01-02" s)
               = Ok [] s) by reflexivity.
  assert (H6 : contract_violated 0 300000
                 (fetched externals 0 300000 "1970-01-01" "1970-01-02"
                    "Binance" "BTCUSD" s)).
  { right. right. vm_compute. discriminate. }
  split; [exact H1|]. split; [exact H2|]. split; [exact H3|].
  split; [exact H6|].
  destruct (candle_gap_rejected_before_simulation externals config routes
              (fun _ => 1%nat) (0, 0)%Q "1970-01-01" "1970-01-02"
              [] [] "Binance" "BTCUSD" [] s s H1 H2 H3 H4 H5 H6)
    as (msg & s' & E & Hd & Hl & _).
  exists msg, s'. split; [exact E|]. split; [exact Hd|exact Hl].
Defined.

(** The callbacks of the market keep the positions and an order book
    without active orders, in which no fill can occur. *)
Lemma externals_keep_positions : positions_kept externals.
Proof.
  split.
  - intros exchange symbol index order v l k Hk. simpl.
    unfold execute_order. simpl. by apply assoc_alter_is_Some.
  - intros f [(n & i & ->)|[(n & i & ->)|[(n & i & ->)| ->]]] v l k Hk;
      exact Hk.
Qed.

Lemma has_position_of_routes :
  has_positions (route_keys dna_routes) (ledger (store_with [])).
Proof.
  intros k Hk. apply list_elem_of_In in Hk.
  destruct Hk as [<-|[<-|[<-|[]]]]; by eexists.
Qed.

(** Of three routes for the same market the second is the first with a
    DNA: the first keeps the [hp] of its class, the second and the third
    get the DNA of the second. *)
Lemma dna_of_first_route_reaches_later_routes_witness :
  dna_routes
  = [mkRoute "Binance" "BTCUSD" MINUTE_1 "First" None]
    ++ mkRoute "Binance" "BTCUSD" MINUTE_5 "Second" (Some "abc")
       :: [mkRoute "Binance" "BTCUSD" MINUTE_15 "Third" (Some "xyz")]
  /\ exists s',
       initiate_strategies externals (enumerate dna_routes) None
         (store_with []) = Ok tt s'
       /\ hp <$> strategies s' !! 0%nat = Some None
       /\ hp <$> strategies s' !! 1%nat = Some (Some "abc")
       /\ hp <$> strategies s' !! 2%nat = Some (Some "abc").
Proof.
  split; [reflexivity|].
  destruct (dna_of_first_route_reaches_later_routes externals dna_routes
              [mkRoute "Binance" "BTCUSD" MINUTE_1 "First" None]
              [mkRoute "Binance" "BTCUSD" MINUTE_15 "Third" (Some "xyz")]
              (mkRoute "Binance" "BTCUSD" MINUTE_5 "Second" (Some "abc"))
              "abc" (store_with []) eq_refl
              ltac:(by repeat constructor) eq_refl ltac:(discriminate)
              externals_keep_positions has_position_of_routes)
    as (s' & E & Hlater & Hearlier).
  exists s'. split; [exact E|].
  rewrite (Hearlier 0%nat _ eq_refl ltac:(simpl; lia)).
  rewrite (proj1 (Hlater 1%nat _ eq_refl ltac:(simpl; lia))).
  rewrite (proj1 (Hlater 2%nat _ eq_refl ltac:(simpl; lia))).
  by repeat split.
Defined.

Lemma externals_book_invariant : book_invariant externals no_active_order.
Proof.
  intros f [(n & i & ->)|[(n & i & ->)|[(n & i & ->)| ->]]] v l H; exact H.
Qed.

Lemma externals_fills_progress :
  fills_progress externals no_active_order (fun _ => 0%nat).
Proof.
  intros exchange symbol index order v l Hinv Hl Ha. exfalso.
  unfold orders_at in Hl.
  destruct (orders l !! key exchange symbol) as [os|] eqn:E; [|done].
  simpl in Hl. apply list_elem_of_lookup_2 in Hl.
  rewrite (Hinv _ _ E _ Hl) in Ha. done.
Qed.

(** Scenario S1 on one day of candles: the run completes with the two
    daily balances [1000; 1000]. *)
Lemma daily_balance_cadence_witness :
  candles_ok config (preloaded 1440) 1440
  /\ (0 < 1440)%nat
  /\ has_positions (needed_positions routes (preloaded 1440))
       (ledger (store_with []))
  /\ no_active_order (orders (ledger (store_with [])))
  /\ exists s',
       simulator externals config routes (fun l => S 0) (0, 0)%Q
         (preloaded 1440) None (store_with []) = Ok tt s'
       /\ daily_balance s' = [1000; 1000]%Q.
Proof.
  assert (H1 : candles_ok config (preloaded 1440) 1440).
  { exists "Binance", "BTCUSD",
      (mkCandleSet "Binance" "BTCUSD" (flats 1440)).
    assert (Hlen : length (flats 1440) = 1440%nat)
      by (vm_compute; reflexivity).
    split; [reflexivity|]. split; [reflexivity|]. split; [reflexivity|].
    split; [exact Hlen|].
    intros j Hj. apply list_elem_of_singleton in Hj. subst j.
    cbn [snd cs_candles]. by rewrite Hlen. }
  assert (H2 : (0 < 1440)%nat) by lia.
  assert (H3 : has_positions (needed_positions routes (preloaded 1440))
                 (ledger (store_with []))).
  { intros k Hk. apply list_elem_of_In in Hk.
    destruct Hk as [<-|[<-|[]]]; by eexists. }
  assert (H4 : no_active_order (orders (ledger (store_with [])))).
  { intros k os Hk o Ho. simpl in Hk.
    apply lookup_singleton_Some in Hk as [_ <-]. by apply elem_of_nil in Ho. }
  split; [exact H1|]. split; [exact H2|]. split; [exact H3|].
  split; [exact H4|].
  destruct (daily_balance_cadence externals config routes no_active_order
              (fun _ => 0%nat) (0, 0)%Q (preloaded 1440) None 1440
              (store_with []) externals_keep_positions
              externals_book_invariant externals_fills_progress H1 H2 H3 H4)
    as (s' & snaps & E & Hd & Hlen & _ & Hflat).
  exists s'. split; [exact E|]. rewrite Hd. simpl.
  assert (Hall : Forall (fun x => x = starting_balance (ledger (store_with [])))
                   snaps).
  { apply Hflat.
    - intros f [(n & i & ->)|[(n & i & ->)|[(n & i & ->)| ->]]] v l;
        reflexivity.
    - split; [|exact H4]. intros kp Hkp.
      apply list_elem_of_singleton in Hkp. by subst kp. }
  destruct snaps as [|a [|b [|c snaps]]]; try (simpl in Hlen; discriminate Hlen).
  inversion Hall as [|? ? -> Hall']. inversion Hall' as [|? ? -> _].
  reflexivity.
Defined.

Lemma daily_whole_days : whole_days daily.
Proof.
  intros d. simpl. unfold calendar. by destruct (String.eqb d "1970-01-01").
Qed.

(** Loading from 1970-01-01 to 1970-01-01 is rejected because the start
    is after the finish less a minute. *)
Lemma same_dates_check_never_fires_witness :
  whole_days daily
  /\ _load_candles daily config "1970-01-01" "1970-01-01" (store_with [])
     = Raise (ValueError "start_date cannot be bigger than finish_date.")
         (store_with []).
Proof.
  split; [exact daily_whole_days|].
  exact (proj2 (same_dates_check_never_fires daily config daily_whole_days)
           "1970-01-01" (store_with [])).
Defined.

(** Six minutes of a database without a gap are loaded, and keep the
    contract. *)
Lemma loaded_candles_keep_contract_witness :
  let o :=
    _load_candles complete config "1970-01-01" "1970-01-02" (store_with []) in
  o = Ok (result_of o []) (store_of o)
  /\ forall k cs,
       (k, cs) ∈ result_of o [] -> contract_kept 0 300000 (cs_candles cs).
Proof.
  intros o.
  assert (H : o = Ok (result_of o []) (store_of o))
    by (vm_compute; reflexivity).
  split; [exact H|]. intros k cs Hk.
  destruct (loaded_candles_keep_contract complete config
              "1970-01-01" "1970-01-02" _ _ _ H) as (_ & _ & _ & Hall).
  exact (proj2 (proj2 (proj2 (Hall k cs Hk)))).
Defined.

(** The same six minutes, loaded again from the store the first load
    left. *)
Lemma second_load_is_served_from_cache_witness :
  let o :=
    _load_candles complete config "1970-01-01" "1970-01-02" (store_with []) in
  o = Ok (result_of o []) (store_of o)
  /\ exists s2',
       _load_candles complete config "1970-01-01" "1970-01-02" (store_of o)
       = Ok (result_of o []) s2'
       /\ trace s2' = trace (store_of o)
       /\ cache s2' = cache (store_of o).
Proof.
  intros o.
  assert (H : o = Ok (result_of o []) (store_of o))
    by (vm_compute; reflexivity).
  split; [exact H|].
  exact (second_load_is_served_from_cache complete config
           "1970-01-01" "1970-01-02" _ _ _ (store_of o) H eq_refl).
Defined.

(** The buy at 98 and its take-profit at 108: two fills, then the real
    candle. *)
Lemma engine_stores_pieces_then_real_candle_witness :
  let o :=
    _simulate_price_change_effect externals (fun _ => 5%nat) real_candle
      "Binance" "BTCUSD" (store_with [buy_98]) in
  o = Ok tt (store_of o)
  /\ exists fills,
       trace (store_of o)
       = EvGetOrders "Binance" "BTCUSD"
         :: flat_map (fill_events "Binance" "BTCUSD") fills
         ++ [EvAddCandle "Binance" "BTCUSD" MINUTE_1 real_candle]
       /\ matched_in_turn externals real_candle fills
       /\ (length fills < 5)%nat.
Proof.
  intros o.
  assert (H : o = Ok tt (store_of o)) by (vm_compute; reflexivity).
  split; [exact H|].
  destruct (engine_stores_pieces_then_real_candle externals (fun _ => 5%nat)
              real_candle "Binance" "BTCUSD" (store_with [buy_98])
              (store_of o) H) as (fills & Ht & Hm & Hlen & _).
  exists fills. split; [exact Ht|]. split; [exact Hm|exact Hlen].
Defined.

(** One 15m route over 15 candles: fifteen sweeps of the market orders,
    the strategy executed before the last of them, and one termination. *)
Lemma run_follows_schedule_witness :
  let o :=
    simulator externals config routes (fun _ => 1%nat) (0, 0)%Q
      (preloaded 15) None (store_with []) in
  o = Ok tt (store_of o)
  /\ schedule (trace (store_of o))
     = flat_map (minute_schedule routes) (seq 0 15)
       ++ [EvStrategyTerminate 0].
Proof.
  intros o.
  assert (H : o = Ok tt (store_of o)) by (vm_compute; reflexivity).
  split; [exact H|].
  destruct (run_follows_schedule externals config routes (fun _ => 1%nat)
              (0, 0)%Q (preloaded 15) None (store_with []) (store_of o) H)
    as (exchange & symbol & entry & ingested & He & Hs & Hen & _ & _ & _
        & Ht).
  injection He as <-. injection Hs as <-. injection Hen as <-.
  exact Ht.
Defined.

(** Over 31 candles a 15m timeframe closes twice: two 15m candles are
    added, and the last minute adds none. *)
Lemma run_adds_bigger_timeframe_candles_witness :
  let o :=
    simulator externals config routes (fun _ => 1%nat) (0, 0)%Q
      (preloaded 31) None (store_with []) in
  o = Ok tt (store_of o)
  /\ MINUTE_15 <> MINUTE_1
  /\ length (generated MINUTE_15 (trace (store_of o))) = 2%nat.
Proof.
  intros o.
  assert (H : o = Ok tt (store_of o)) by (vm_compute; reflexivity).
  assert (H2 : MINUTE_15 <> MINUTE_1) by discriminate.
  split; [exact H|]. split; [exact H2|].
  destruct (run_adds_bigger_timeframe_candles externals config routes
              (fun _ => 1%nat) (0, 0)%Q (preloaded 31) None MINUTE_15
              (store_with []) (store_of o) H H2)
    as (exchange & symbol & entry & He & Hs & Hen & Hn).
  injection He as <-. injection Hs as <-. injection Hen as <-.
  exact Hn.
Defined.

(** Over 15 candles from timestamp 0 the run starts at 0 and ends at
    900000. *)
Lemma run_sets_clocks_witness :
  let o :=
    simulator externals config routes (fun _ => 1%nat) (0, 0)%Q
      (preloaded 15) None (store_with []) in
  o = Ok tt (store_of o)
  /\ starting_time (store_of o) = 0%Z
  /\ app_time (store_of o) = 900000%Z.
Proof.
  intros o.
  assert (H : o = Ok tt (store_of o)) by (vm_compute; reflexivity).
  split; [exact H|].
  destruct (run_sets_clocks externals config routes (fun _ => 1%nat)
              (0, 0)%Q (preloaded 15) None (store_with []) (store_of o) H)
    as (exchange & symbol & entry & first & final & He & Hs & Hen & Hf & Hl
        & Hst & Ha).
  injection He as <-. injection Hs as <-. injection Hen as <-.
  injection Hf as <-. injection Hl as <-.
  split; [exact Hst|exact Ha].
Defined.

(** The run over 15 candles completes: its entry is there and is not
    empty. *)
Lemma completed_run_had_its_candles_witness :
  let o :=
    simulator externals config routes (fun _ => 1%nat) (0, 0)%Q
      (preloaded 15) None (store_with []) in
  o = Ok tt (store_of o)
  /\ exists entry,
       assoc_get (key "Binance" "BTCUSD") (preloaded 15) = Some entry
       /\ cs_candles entry <> [].
Proof.
  intros o.
  assert (H : o = Ok tt (store_of o)) by (vm_compute; reflexivity).
  split; [exact H|].
  destruct (completed_run_had_its_candles externals config routes
              (fun _ => 1%nat) (0, 0)%Q (preloaded 15) None (store_with [])
              (store_of o) H)
    as (exchange & symbol & entry & He & Hs & Hen & Hne & _).
  injection He as <-. injection Hs as <-.
  exists entry. split; [exact Hen|exact Hne].
Defined.

(** Of three routes, two with a DNA, every strategy gets the mapping
    passed to the driver. *)
Lemma hyper_parameters_given_or_absent_witness :
  positions_kept externals
  /\ has_positions (route_keys dna_routes) (ledger (store_with []))
  /\ exists s',
       initiate_strategies externals (enumerate dna_routes) (Some "given")
         (store_with []) = Ok tt s'
       /\ hp <$> strategies s' !! 0%nat = Some (Some "given")
       /\ hp <$> strategies s' !! 1%nat = Some (Some "given")
       /\ hp <$> strategies s' !! 2%nat = Some (Some "given").
Proof.
  split; [exact externals_keep_positions|].
  split; [exact has_position_of_routes|].
  destruct (proj1 (hyper_parameters_given_or_absent externals dna_routes
                     (store_with []) externals_keep_positions
                     has_position_of_routes) "given") as (s' & E & Hall).
  exists s'. split; [exact E|].
  rewrite (Hall 0%nat _ eq_refl), (Hall 1%nat _ eq_refl),
    (Hall 2%nat _ eq_refl).
  by repeat split.
Defined.

(** One day, from 1970-01-01 to 1970-01-02, over a database of 1440
    candles: two daily balances, and the clocks at the two midnights. *)
Lemma backtest_of_whole_days_witness :
  let o :=
    run daily config routes (fun _ => 1%nat) (0, 0)%Q
      "1970-01-01" "1970-01-02" None (store_with []) in
  o = Ok tt (store_of o)
  /\ (date_to_timestamp daily "1970-01-02"
      - date_to_timestamp daily "1970-01-01" = Z.of_nat 1 * 86400000)%Z
  /\ length (daily_balance (store_of o)) = 2%nat
  /\ starting_time (store_of o) = 0%Z
  /\ app_time (store_of o) = 86400000%Z.
Proof.
  intros o.
  assert (H : o = Ok tt (store_of o)) by (vm_compute; reflexivity).
  assert (H2 : (date_to_timestamp daily "1970-01-02"
                - date_to_timestamp daily "1970-01-01"
                = Z.of_nat 1 * 86400000)%Z) by reflexivity.
  split; [exact H|]. split; [exact H2|].
  exact (backtest_of_whole_days daily config routes (fun _ => 1%nat)
           (0, 0)%Q "1970-01-01" "1970-01-02" 1 (store_with [])
           (store_of o) H H2).
Defined.
